(** * sme-vuln-patch-toolkit: the TLS audit and the weak-configuration scanner

    A shallow embedding of [tools/scanner/tls_cipher_audit.py] and
    [tools/scanner/weak_configuration_scanner.py], and the properties of the
    two probes that the specification states.

    Conventions.
    - Python [str] values are modelled as [string], a character being a
      code point below 256.  The entries given on the command line or in
      an input file (targets, URLs) and OpenSSL cipher names are ASCII;
      header text is Latin-1, as the HTTP client decodes it.  The string
      primitives below are the behaviour of the Python built-ins of the same
      name on such text ([upper] and [isdigit] on ASCII text).
    - Python [int] is [Z]; [Optional[T]] is [option T].
    - A raised exception is a value of [Exception] carrying [str(e)]; a
      function that may raise returns a [result].
    - The network and the file system are explicit: a world that every
      request threads through, and a map from paths to what reading them
      gives. *)

From Stdlib Require Import ZArith Ascii Lia.
From Stdlib Require String.
From stdpp Require Import gmap strings list fin_maps.

Local Open Scope Z_scope.

(** ** Exceptions and fallible results *)

Record Exception : Type := mkException { exc_str : string }.

Inductive result (A : Type) : Type :=
| Ok (a : A)
| Raise (e : Exception).
Arguments Ok {A} a.
Arguments Raise {A} e.

Definition ValueError (msg : string) : Exception := mkException msg.
Definition FileNotFoundError (msg : string) : Exception := mkException msg.

(** ** Python string built-ins *)

Module Py.

(** [c.isspace()] for a code point below 256: TAB, LF, VT, FF, CR, the
    four separators FS, GS, RS, US, the space, NEL and the no-break
    space. *)
Definition isspace (c : ascii) : bool :=
  match c with
  | "009" | "010" | "011" | "012" | "013"
  | "028" | "029" | "030" | "031" | " " | "133" | "160" => true
  | _ => false
  end%char.

(** The whitespace [int] drops around a number: as [isspace], without the
    four separators FS, GS, RS, US. *)
Definition int_isspace (c : ascii) : bool :=
  match c with
  | "009" | "010" | "011" | "012" | "013" | " " | "133" | "160" => true
  | _ => false
  end%char.

Definition isdigit_char (c : ascii) : bool :=
  match c with
  | "0" | "1" | "2" | "3" | "4" | "5" | "6" | "7" | "8" | "9" => true
  | _ => false
  end%char.

Definition digit_value (c : ascii) : Z :=
  Z.of_nat (nat_of_ascii c) - 48.

(** [c.upper()] for an ASCII character; cipher names, the only text the
    scripts put in upper case, are ASCII. *)
Definition upper_char (c : ascii) : ascii :=
  let n := nat_of_ascii c in
  if ((97 <=? n) && (n <=? 122))%nat then ascii_of_nat (n - 32) else c.

(** [c.lower()] for a code point below 256: the ASCII capitals, and the
    Latin-1 capitals from 192 to 222 but for the multiplication sign. *)
Definition lower_char (c : ascii) : ascii :=
  let n := nat_of_ascii c in
  if ((65 <=? n) && (n <=? 90))%nat then ascii_of_nat (n + 32)
  else if ((192 <=? n) && (n <=? 222) && negb (n =? 215))%nat then ascii_of_nat (n + 32)
  else c.

Fixpoint upper (s : string) : string :=
  match s with
  | EmptyString => EmptyString
  | String c r => String (upper_char c) (upper r)
  end.

Fixpoint lower (s : string) : string :=
  match s with
  | EmptyString => EmptyString
  | String c r => String (lower_char c) (lower r)
  end.

Fixpoint lstrip (s : string) : string :=
  match s with
  | String c r => if isspace c then lstrip r else s
  | EmptyString => EmptyString
  end.

Fixpoint rstrip (s : string) : string :=
  match s with
  | EmptyString => EmptyString
  | String c r =>
      match rstrip r with
      | EmptyString => if isspace c then EmptyString else String c EmptyString
      | r' => String c r'
      end
  end.

Definition strip (s : string) : string := rstrip (lstrip s).

(** [s.startswith(p)] *)
Fixpoint startswith (p s : string) : bool :=
  match p, s with
  | EmptyString, _ => true
  | String a p', String b s' => if Ascii.eqb a b then startswith p' s' else false
  | String _ _, EmptyString => false
  end.

(** [sub in s] *)
Fixpoint contains (sub s : string) : bool :=
  startswith sub s ||
  match s with
  | EmptyString => false
  | String _ r => contains sub r
  end.

(** [s.isdigit()]: at least one character, all of them digits. *)
Fixpoint all_digits (s : string) : bool :=
  match s with
  | EmptyString => true
  | String c r => isdigit_char c && all_digits r
  end.

Definition isdigit (s : string) : bool :=
  match s with
  | EmptyString => false
  | _ => all_digits s
  end.

(** [s.split(sep)] for a one-character separator. *)
Fixpoint split (sep : ascii) (s : string) : list string :=
  match s with
  | EmptyString => [EmptyString]
  | String c r =>
      if Ascii.eqb c sep then EmptyString :: split sep r
      else match split sep r with
           | h :: t => String c h :: t
           | [] => [String c EmptyString]
           end
  end.

(** [s.split(sep, 1)]: cut at the first separator, if any. *)
Fixpoint split1 (sep : ascii) (s : string) : list string :=
  match s with
  | EmptyString => [EmptyString]
  | String c r =>
      if Ascii.eqb c sep then [EmptyString; r]
      else match split1 sep r with
           | h :: t => String c h :: t
           | [] => [String c EmptyString]
           end
  end.

(** [s.rsplit(sep, 1)]: cut at the last separator, if any. *)
Fixpoint rsplit1 (sep : ascii) (s : string) : list string :=
  match s with
  | EmptyString => [EmptyString]
  | String c r =>
      match rsplit1 sep r with
      | [h; t] => [String c h; t]
      | _ => if Ascii.eqb c sep then [EmptyString; r] else [s]
      end
  end.

(** [sep.join(parts)] *)
Fixpoint join (sep : string) (parts : list string) : string :=
  match parts with
  | [] => EmptyString
  | [p] => p
  | p :: rest => p +:+ sep +:+ join sep rest
  end.

Fixpoint int_lstrip (s : string) : string :=
  match s with
  | String c r => if int_isspace c then int_lstrip r else s
  | EmptyString => EmptyString
  end.

Fixpoint int_rstrip (s : string) : string :=
  match s with
  | EmptyString => EmptyString
  | String c r =>
      match int_rstrip r with
      | EmptyString => if int_isspace c then EmptyString else String c EmptyString
      | r' => String c r'
      end
  end.

(** [int(s)] in base 10: the whitespace around the number is dropped, one
    sign is allowed, and single underscores may separate digits.  [None]
    stands for the [ValueError] that [int] raises.  The limit that recent
    interpreters put on the number of digits (4300 unless configured) is
    not modelled. *)
Fixpoint int_digits (acc : Z) (after_digit : bool) (s : string) : option Z :=
  match s with
  | EmptyString => if after_digit then Some acc else None
  | String c r =>
      if isdigit_char c then int_digits (10 * acc + digit_value c) true r
      else if Ascii.eqb c "_" && after_digit then int_digits acc false r
      else None
  end.

Definition int (s : string) : option Z :=
  match int_rstrip (int_lstrip s) with
  | String "-" r => Z.opp <$> int_digits 0 false r
  | String "+" r => int_digits 0 false r
  | t => int_digits 0 false t
  end.

(** Truth value of an [Optional[str]]: [None] and the empty string are
    false. *)
Definition truthy (o : option string) : bool :=
  match o with
  | Some (String _ _) => true
  | _ => false
  end.

End Py.

(** ** tls_cipher_audit.py *)

Module TLS.

Record TLSResult : Type := mkTLSResult {
  target : string;
  hostname : string;
  port : Z;
  tls_version : option string;
  cipher_name : option string;
  cipher_protocol : option string;
  cipher_bits : option Z;
  weak_protocol : bool;
  weak_cipher : bool;
  error : option string
}.

Definition WEAK_PROTOCOLS : gset string :=
  {[ "SSLv2"; "SSLv3"; "TLSv1"; "TLSv1.1" ]}.

Definition WEAK_CIPHER_SUBSTRINGS : list string :=
  [ "RC4"; "3DES"; "DES-"; "MD5"; "NULL"; "EXPORT" ].

Definition parse_target (target : string) : result TLSResult :=
  let target := Py.strip target in
  if negb (Py.truthy (Some target)) then Raise (ValueError "Empty target entry")
  else
    let shell host port :=
      Ok (mkTLSResult target host port None None None None false false None) in
    if negb (Py.contains ":" target) then shell target 443
    else
      match Py.rsplit1 ":" target with
      | [host; port_str] =>
          if negb (Py.isdigit port_str)
          then Raise (ValueError ("Invalid port in target: " +:+ target))
          else match Py.int port_str with
               | Some port => shell host port
               | None => Raise (ValueError "invalid literal for int() with base 10")
               end
      | _ => Raise (ValueError "not enough values to unpack (expected 2, got 1)")
      end.

Definition is_weak_protocol (tls_version : option string) : bool :=
  if negb (Py.truthy tls_version) then false
  else match tls_version with
       | Some v => bool_decide (v ∈ WEAK_PROTOCOLS)
       | None => false
       end.

Definition is_weak_cipher (cipher_name : option string) (cipher_bits : option Z) : bool :=
  if negb (Py.truthy cipher_name) then false
  else
    let upper_name := Py.upper (default "" cipher_name) in
    if existsb (fun bad => Py.contains bad upper_name) WEAK_CIPHER_SUBSTRINGS
    then true
    else match cipher_bits with
         | Some bits => if bits <? 128 then true else false
         | None => false
         end.

(** The part of [socket] and [ssl] that [check_target] calls.  A TCP
    connection and a TLS handshake each either raise or hand back an
    object; [version()] may raise (it is guarded on its own in the
    source) and [cipher()] gives [None] or the triple
    [(name, protocol, secret_bits)].  The calls that reach the outer
    handler of [check_target] are the connection and the handshake:
    [cipher()] and the closing of the two sockets at the end of the
    [with] blocks are taken not to raise. *)
Record Network : Type := mkNetwork {
  World : Type;
  Socket : Type;
  SSLSocket : Type;
  Timeout : Type;
  create_connection : World -> string * Z -> Timeout -> World * result Socket;
  wrap_socket : World -> Socket -> string -> World * result SSLSocket;
  version : SSLSocket -> result (option string);
  cipher : SSLSocket -> option (option string * option string * option Z)
}.

Definition set_tls_version (v : option string) (t : TLSResult) : TLSResult :=
  mkTLSResult (target t) (hostname t) (port t) v (cipher_name t)
    (cipher_protocol t) (cipher_bits t) (weak_protocol t) (weak_cipher t) (error t).

Definition set_cipher (c : option string * option string * option Z) (t : TLSResult) : TLSResult :=
  mkTLSResult (target t) (hostname t) (port t) (tls_version t) (c.1.1)
    (c.1.2) (c.2) (weak_protocol t) (weak_cipher t) (error t).

Definition set_weak_protocol (b : bool) (t : TLSResult) : TLSResult :=
  mkTLSResult (target t) (hostname t) (port t) (tls_version t) (cipher_name t)
    (cipher_protocol t) (cipher_bits t) b (weak_cipher t) (error t).

Definition set_weak_cipher (b : bool) (t : TLSResult) : TLSResult :=
  mkTLSResult (target t) (hostname t) (port t) (tls_version t) (cipher_name t)
    (cipher_protocol t) (cipher_bits t) (weak_protocol t) b (error t).

Definition set_error (e : option string) (t : TLSResult) : TLSResult :=
  mkTLSResult (target t) (hostname t) (port t) (tls_version t) (cipher_name t)
    (cipher_protocol t) (cipher_bits t) (weak_protocol t) (weak_cipher t) e.

(** Command-line arguments, and the files [--input] may name: a path that
    is not in the map does not exist; a path mapped to [Raise e] is one
    for which the existence check or the reading (opening, decoding) raises
    [e]; a path mapped to [Ok lines] reads as these lines. *)
Record Args (net : Network) : Type := mkArgs {
  arg_target : option string;
  arg_targets : option string;
  arg_input : option string;
  arg_timeout : Timeout net
}.
Arguments mkArgs {net}.
Arguments arg_target {net}.
Arguments arg_targets {net}.
Arguments arg_input {net}.
Arguments arg_timeout {net}.

Definition load_targets_from_file (lines : list string) : list string :=
  foldl (fun targets line =>
           let line := Py.strip line in
           if negb (Py.truthy (Some line)) || Py.startswith "#" line then targets
           else targets ++ [line]) [] lines.

(** The loop under "Remove duplicates while preserving order". *)
Definition unique_step (st : gset string * list string) (t : string)
  : gset string * list string :=
  if bool_decide (t ∉ st.1) then ({[ t ]} ∪ st.1, st.2 ++ [t]) else st.

Definition gather_targets {net} (files : gmap string (result (list string)))
    (args : Args net) : result (list string) :=
  let targets := [] in
  let targets :=
    if Py.truthy (arg_target args) then targets ++ [default "" (arg_target args)]
    else targets in
  let targets :=
    if Py.truthy (arg_targets args) then
      foldl (fun targets t =>
               let t := Py.strip t in
               if Py.truthy (Some t) then targets ++ [t] else targets)
            targets (Py.split "," (default "" (arg_targets args)))
    else targets in
  let extended :=
    match arg_input args with
    | Some path =>
        match files !! path with
        | None => Raise (FileNotFoundError ("Input file not found: " +:+ path))
        | Some (Raise e) => Raise e
        | Some (Ok lines) => Ok (targets ++ load_targets_from_file lines)
        end
    | None => Ok targets
    end in
  match extended with
  | Raise e => Raise e
  | Ok targets =>
      let unique_targets := (foldl unique_step (∅, []) targets).2 in
      match unique_targets with
      | [] => Raise (ValueError "No targets specified. Use --target, --targets, or --input.")
      | _ => Ok unique_targets
      end
  end.

Section Probe.
Context (net : Network).

Definition check_target (w : World net) (t : TLSResult) (timeout : Timeout net)
  : World net * TLSResult :=
  match create_connection net w (hostname t, port t) timeout with
  | (w, Raise e) => (w, set_error (Some (exc_str e)) t)
  | (w, Ok sock) =>
      match wrap_socket net w sock (hostname t) with
      | (w, Raise e) => (w, set_error (Some (exc_str e)) t)
      | (w, Ok ssock) =>
          let t :=
            match version net ssock with
            | Ok v => set_tls_version v t
            | Raise _ => set_tls_version None t
            end in
          let t :=
            match cipher net ssock with
            | Some c => set_cipher c t
            | None => t
            end in
          let t := set_weak_protocol (is_weak_protocol (tls_version t)) t in
          let t := set_weak_cipher (is_weak_cipher (cipher_name t) (cipher_bits t)) t in
          (w, t)
      end
  end.

(** One turn of the loop of [main]. *)
Definition probe (timeout : Timeout net) (st : World net * list TLSResult) (t_str : string)
  : World net * list TLSResult :=
  match parse_target t_str with
  | Raise e =>
      (st.1, st.2 ++ [mkTLSResult t_str t_str 0 None None None None false false
                        (Some ("Invalid target format: " +:+ exc_str e))])
  | Ok t =>
      let '(w, r) := check_target st.1 t timeout in
      (w, st.2 ++ [r])
  end.

(** [main]: the exit status and the list handed to the writers. *)
Definition main (files : gmap string (result (list string))) (w : World net)
    (args : Args net) : World net * (Z * list TLSResult) :=
  match gather_targets files args with
  | Raise e => (w, (1, []))
  | Ok targets =>
      let '(w, results) := foldl (probe (arg_timeout args)) (w, []) targets in
      (w, (0, results))
  end.

End Probe.

End TLS.

(** ** weak_configuration_scanner.py *)

Module HTTP.

Definition REQUIRED_HEADERS : list string :=
  [ "strict-transport-security";
    "content-security-policy";
    "x-content-type-options";
    "x-frame-options";
    "referrer-policy" ].

Definition OPTIONAL_HEADERS : list string :=
  [ "permissions-policy"; "x-xss-protection" ].

Record SiteCheckResult : Type := mkSiteCheckResult {
  url : string;
  final_url : option string;
  scheme : option string;
  status_code : option Z;
  redirect_chain : string;
  https_downgrade : bool;
  missing_required_headers : string;
  missing_optional_headers : string;
  header_findings : string;
  error : option string
}.

(** A [requests.Response]: the URL it answers, the status, and the items
    of its header container (names as the server sent them). *)
Record Response : Type := mkResponse {
  resp_url : string;
  resp_status_code : Z;
  resp_headers : list (string * string)
}.

(** [{k.lower(): v for k, v in headers.items()}] *)
Definition lowercased (items : list (string * string)) : gmap string string :=
  foldl (fun d kv => <[ Py.lower kv.1 := kv.2 ]> d) ∅ items.

(** The header container of [requests] looks names up whatever their
    case: [name in resp.headers] and [resp.headers[name]]. *)
Definition headers_get (name : string) (items : list (string * string)) : option string :=
  lowercased items !! Py.lower name.

Definition headers_contains (name : string) (items : list (string * string)) : bool :=
  bool_decide (is_Some (headers_get name items)).

(** The part of [requests] and [urllib.parse] the scanner calls:
    [session.get(url, allow_redirects=False, timeout=timeout)], which
    raises on a transport failure and on a URL it cannot prepare;
    [urljoin] and [urlparse(u).scheme], which raise [ValueError] on a
    malformed URL (an unbalanced bracket in the host, for one).
    [get_url_parses] is the one assumption made on the library: the URL of
    a response that [get] returns is the one [requests] has parsed and
    assembled again for the request, and [urlparse] accepts it. *)
Record Web : Type := mkWeb {
  World : Type;
  Timeout : Type;
  get : World -> string -> Timeout -> World * result Response;
  urljoin : string -> string -> result string;
  urlparse_scheme : string -> result string;
  get_url_parses :
    forall w url timeout w' resp,
      get w url timeout = (w', Ok resp) ->
      exists scheme, urlparse_scheme (resp_url resp) = Ok scheme
}.

Definition max_redirects : nat := 10.

Definition is_redirect (status : Z) : bool := (300 <=? status) && (status <? 400).

Definition KeyError (key : string) : Exception := mkException ("'" +:+ key +:+ "'").
Definition IndexError (msg : string) : Exception := mkException msg.

(** *** The header checks, block by block *)

Definition check_hsts (headers : gmap string string) (findings : list string) : list string :=
  let hsts := headers !! "strict-transport-security" in
  if Py.truthy hsts then
    let hsts := default "" hsts in
    if negb (Py.contains "max-age" (Py.lower hsts))
    then findings ++ ["HSTS present but max-age missing"]
    else
      let parts := Py.strip <$> Py.split ";" hsts in
      let max_age_part :=
        default "" (head (filter (fun p => Py.startswith "max-age" (Py.lower p)) parts)) in
      if Py.contains "=" max_age_part then
        match Py.split1 "=" max_age_part with
        | _ :: v :: _ =>
            match Py.int v with
            | Some val =>
                if val <? 15552000
                then findings ++ ["HSTS max-age < 6 months (consider increasing)"]
                else findings
            | None => findings ++ ["Could not parse HSTS max-age"]
            end
        | _ => findings ++ ["Could not parse HSTS max-age"]
        end
      else findings
  else findings ++ ["HSTS missing (for HTTPS site)"].

Definition check_csp (headers : gmap string string) (findings : list string) : list string :=
  let csp := headers !! "content-security-policy" in
  if negb (Py.truthy csp) then findings ++ ["Content-Security-Policy header missing"]
  else findings.

Definition check_xcto (headers : gmap string string) (findings : list string) : list string :=
  let xcto := headers !! "x-content-type-options" in
  if negb (Py.truthy xcto) then findings ++ ["X-Content-Type-Options missing"]
  else if negb (String.eqb (Py.lower (default "" xcto)) "nosniff")
  then findings ++ ["X-Content-Type-Options is '" +:+ default "" xcto +:+ "', expected 'nosniff'"]
  else findings.

Definition check_xfo (headers : gmap string string) (findings : list string) : list string :=
  let xfo := headers !! "x-frame-options" in
  if negb (Py.truthy xfo)
  then findings ++ ["X-Frame-Options missing (consider SAMEORIGIN or DENY)"]
  else
    let v := Py.lower (default "" xfo) in
    if negb (bool_decide (v ∈ ["deny"; "sameorigin"]))
    then findings ++ ["X-Frame-Options value '" +:+ default "" xfo
                      +:+ "' is non-standard; prefer DENY or SAMEORIGIN"]
    else findings.

Definition check_referrer (headers : gmap string string) (findings : list string) : list string :=
  let rp := headers !! "referrer-policy" in
  if negb (Py.truthy rp)
  then findings ++ ["Referrer-Policy missing (consider 'strict-origin-when-cross-origin')"]
  else
    let weak_policies : gset string := {[ "no-referrer-when-downgrade"; "unsafe-url" ]} in
    if bool_decide (Py.lower (default "" rp) ∈ weak_policies)
    then findings ++ ["Referrer-Policy '" +:+ default "" rp +:+ "' is weaker than recommended"]
    else findings.

Definition check_permissions (headers : gmap string string) (findings : list string) : list string :=
  let pp := headers !! "permissions-policy" in
  if negb (Py.truthy pp)
  then findings ++ ["Permissions-Policy missing (not critical but recommended)"]
  else findings.

Definition check_xxp (headers : gmap string string) (findings : list string) : list string :=
  let xxp := headers !! "x-xss-protection" in
  if Py.truthy xxp
  then findings ++ ["X-XSS-Protection present (legacy): '" +:+ default "" xxp +:+ "'"]
  else findings.

Definition check_security_headers (resp : Response)
  : list string * list string * list string :=
  let headers := lowercased (resp_headers resp) in
  let missing_required := filter (fun h => headers !! h = None) REQUIRED_HEADERS in
  let missing_optional := filter (fun h => headers !! h = None) OPTIONAL_HEADERS in
  let findings := [] in
  let findings := check_hsts headers findings in
  let findings := check_csp headers findings in
  let findings := check_xcto headers findings in
  let findings := check_xfo headers findings in
  let findings := check_referrer headers findings in
  let findings := check_permissions headers findings in
  let findings := check_xxp headers findings in
  (missing_required, missing_optional, findings).

Section Scanner.
Context (web : Web).

Definition normalize_url (url : string) : result string :=
  let url := Py.strip url in
  if negb (Py.truthy (Some url)) then Raise (ValueError "Empty URL")
  else
    match urlparse_scheme web url with
    | Raise e => Raise e
    | Ok scheme =>
        if negb (Py.truthy (Some scheme)) then Ok ("https://" +:+ url) else Ok url
    end.

(** The [while] loop of [fetch_url].  [fuel] bounds the number of turns;
    [None] means the fuel ran out before the loop condition failed.  The
    loop runs inside the [try] of [fetch_url]: whatever raises in it, the
    header lookup, [urljoin] or the request, ends the walk with
    [return [], e]. *)
Fixpoint follow (fuel : nat) (w : World web) (resp : Response)
    (responses : list Response) (timeout : Timeout web)
  : option (World web * (list Response * option Exception)) :=
  if is_redirect (resp_status_code resp)
     && headers_contains "location" (resp_headers resp)
     && bool_decide (length responses < max_redirects)%nat
  then
    match fuel with
    | O => None
    | S fuel =>
        match headers_get "location" (resp_headers resp) with
        | None => Some (w, ([], Some (KeyError "location")))
        | Some location =>
            match urljoin web (resp_url resp) location with
            | Raise e => Some (w, ([], Some e))
            | Ok next_url =>
                match get web w next_url timeout with
                | (w, Raise e) => Some (w, ([], Some e))
                | (w, Ok resp) => follow fuel w resp (responses ++ [resp]) timeout
                end
            end
        end
    end
  else Some (w, (responses, None)).

Definition fetch_url_fuel (fuel : nat) (w : World web) (url : string) (timeout : Timeout web)
  : option (World web * (list Response * option Exception)) :=
  match get web w url timeout with
  | (w, Raise e) => Some (w, ([], Some e))
  | (w, Ok resp) => follow fuel w resp [resp] timeout
  end.

(** [fetch_url]: [max_redirects] turns are always enough
    (see [fetch_url_fuel_enough]), so the default is never used. *)
Definition fetch_url (w : World web) (url : string) (timeout : Timeout web)
  : World web * (list Response * option Exception) :=
  default (w, ([], None)) (fetch_url_fuel max_redirects w url timeout).

Definition analyse_target (w : World web) (url : string) (timeout : Timeout web)
  : World web * result SiteCheckResult :=
  match normalize_url url with
  | Raise e => (w, Raise e)
  | Ok url =>
      let '(w, (responses, error)) := fetch_url w url timeout in
      if bool_decide (is_Some error) || bool_decide (responses = []) then
        (w, Ok (mkSiteCheckResult url None None None "" false "" "" ""
                  (Some (match error with
                         | Some e => exc_str e
                         | None => "No response"
                         end))))
      else
        let chain_urls := map resp_url responses in
        let redirect_chain := Py.join " -> " chain_urls in
        match head responses, last responses with
        | Some first_resp, Some final_resp =>
            match urlparse_scheme web (resp_url first_resp) with
            | Raise e => (w, Raise e)
            | Ok first_scheme =>
                match urlparse_scheme web (resp_url final_resp) with
                | Raise e => (w, Raise e)
                | Ok final_scheme =>
                    let https_downgrade :=
                      String.eqb first_scheme "https" && String.eqb final_scheme "http" in
                    let '(missing_required, missing_optional, findings) :=
                      if negb (is_redirect (resp_status_code final_resp))
                      then check_security_headers final_resp
                      else ([], [], []) in
                    (w, Ok (mkSiteCheckResult url
                              (Some (resp_url final_resp))
                              (Some final_scheme)
                              (Some (resp_status_code final_resp))
                              redirect_chain
                              https_downgrade
                              (Py.join ";" missing_required)
                              (Py.join ";" missing_optional)
                              (Py.join " | " findings)
                              None))
                end
            end
        | _, _ => (w, Raise (IndexError "list index out of range"))
        end
  end.

End Scanner.

End HTTP.

(** ** Server behaviours used in the statements *)

(** [redirecting web timeout w url rs w']: starting in world [w], requesting
    [url] and then following each [Location] in turn yields the responses
    [rs], all of them 3xx with a [Location] header, and leaves the world
    in [w']. *)
Inductive redirecting (web : HTTP.Web) (timeout : HTTP.Timeout web)
  : HTTP.World web -> string -> list HTTP.Response -> HTTP.World web -> Prop :=
| redirecting_nil w url :
    redirecting web timeout w url [] w
| redirecting_cons w url w1 resp location next_url rs w2 :
    HTTP.get web w url timeout = (w1, Ok resp) ->
    HTTP.is_redirect (HTTP.resp_status_code resp) = true ->
    HTTP.headers_get "location" (HTTP.resp_headers resp) = Some location ->
    HTTP.urljoin web (HTTP.resp_url resp) location = Ok next_url ->
    redirecting web timeout w1 next_url rs w2 ->
    redirecting web timeout w url (resp :: rs) w2.

(** ** The wording of the specification, for comparison with the code *)

(** "the cipher name (case-insensitive) contains [pattern]" *)
Definition contains_ignoring_case (name pattern : string) : Prop :=
  exists pre mid post, name = pre +:+ mid +:+ post /\ Py.upper mid = Py.upper pattern.

Definition name_on_deny_list (cipher_name : option string) : Prop :=
  exists name bad,
    cipher_name = Some name /\ bad ∈ TLS.WEAK_CIPHER_SUBSTRINGS /\
    contains_ignoring_case name bad.

(** "the reported bit length is present and below 128" *)
Definition bits_below_128 (cipher_bits : option Z) : Prop :=
  exists bits, cipher_bits = Some bits /\ bits < 128.

(** The observation group of a TLS record and of an HTTP record. *)
Definition tls_observed (r : TLS.TLSResult) : Prop :=
  is_Some (TLS.tls_version r) \/ is_Some (TLS.cipher_name r) \/
  is_Some (TLS.cipher_protocol r) \/ is_Some (TLS.cipher_bits r).

Definition tls_unobserved (r : TLS.TLSResult) : Prop :=
  TLS.tls_version r = None /\ TLS.cipher_name r = None /\
  TLS.cipher_protocol r = None /\ TLS.cipher_bits r = None /\
  TLS.weak_protocol r = false /\ TLS.weak_cipher r = false.

Definition http_observed (r : HTTP.SiteCheckResult) : Prop :=
  is_Some (HTTP.final_url r) /\ is_Some (HTTP.scheme r) /\ is_Some (HTTP.status_code r).

Definition http_unobserved (r : HTTP.SiteCheckResult) : Prop :=
  HTTP.final_url r = None /\ HTTP.scheme r = None /\ HTTP.status_code r = None /\
  HTTP.redirect_chain r = "" /\ HTTP.https_downgrade r = false /\
  HTTP.missing_required_headers r = "" /\ HTTP.missing_optional_headers r = "" /\
  HTTP.header_findings r = "".

(** The directives of a Strict-Transport-Security value are its parts
    between semicolons, trimmed.  [max_age_directive] is the first one
    whose text starts with [max-age], whatever the case. *)
Definition max_age_directive (hsts : string) : option string :=
  head (filter (fun p => Py.startswith "max-age" (Py.lower p))
          (Py.strip <$> Py.split ";" hsts)).

(** The condition under which the classifier records that it could not
    parse the lifetime: the first directive whose text starts with
    [max-age] reads [name=value], and [int(value)] fails. *)
Definition unparsable_max_age (hsts : string) : Prop :=
  exists name value,
    head (filter (fun p => Py.startswith "max-age" (Py.lower p))
            (Py.strip <$> Py.split ";" hsts))
      = Some (name +:+ "=" +:+ value) /\
    Py.contains "=" name = false /\
    Py.int value = None.

(** The condition under which the classifier records a short lifetime: the
    same directive reads [name=value] and the value is an integer below
    15552000. *)
Definition short_max_age (hsts : string) : Prop :=
  exists name value seconds,
    max_age_directive hsts = Some (name +:+ "=" +:+ value) /\
    Py.contains "=" name = false /\
    Py.int value = Some seconds /\ seconds < 15552000.

(** The integer a directive gives: what follows its first [=], read by
    [int]; none when it has no [=] or when [int] fails. *)
Definition directive_seconds (directive : string) : option Z :=
  match Py.split1 "=" directive with
  | [_; value] => Py.int value
  | _ => None
  end.

(** "contains a max-age directive that cannot be parsed as an integer", as
    the specification words it: some directive of the value starts with
    [max-age], whatever the case, and gives no integer. *)
Definition contains_unparsable_max_age (hsts : string) : Prop :=
  exists directive,
    directive ∈ (Py.strip <$> Py.split ";" hsts) /\
    Py.startswith "max-age" (Py.lower directive) = true /\
    directive_seconds directive = None.

(** ** The notes of the header classifier, header by header

    For each note, the condition on the lower-cased headers under which
    it is recorded.  A header has no value when it is absent or empty. *)
Definition no_value (headers : gmap string string) (h : string) : Prop :=
  headers !! h = None \/ headers !! h = Some "".

Definition has_value (headers : gmap string string) (h v : string) : Prop :=
  headers !! h = Some v /\ v <> "".

Definition hsts_note (headers : gmap string string) (note : string) : Prop :=
  (no_value headers "strict-transport-security" /\ note = "HSTS missing (for HTTPS site)")
  \/ exists hsts,
       has_value headers "strict-transport-security" hsts /\
       ((Py.contains "max-age" (Py.lower hsts) = false /\
         note = "HSTS present but max-age missing")
        \/ (short_max_age hsts /\ note = "HSTS max-age < 6 months (consider increasing)")
        \/ (unparsable_max_age hsts /\ note = "Could not parse HSTS max-age")).

Definition csp_note (headers : gmap string string) (note : string) : Prop :=
  no_value headers "content-security-policy" /\
  note = "Content-Security-Policy header missing".

Definition xcto_note (headers : gmap string string) (note : string) : Prop :=
  (no_value headers "x-content-type-options" /\ note = "X-Content-Type-Options missing")
  \/ exists xcto,
       has_value headers "x-content-type-options" xcto /\
       Py.lower xcto <> "nosniff" /\
       note = "X-Content-Type-Options is '" +:+ xcto +:+ "', expected 'nosniff'".

Definition xfo_note (headers : gmap string string) (note : string) : Prop :=
  (no_value headers "x-frame-options" /\
   note = "X-Frame-Options missing (consider SAMEORIGIN or DENY)")
  \/ exists xfo,
       has_value headers "x-frame-options" xfo /\
       Py.lower xfo <> "deny" /\ Py.lower xfo <> "sameorigin" /\
       note = "X-Frame-Options value '" +:+ xfo
              +:+ "' is non-standard; prefer DENY or SAMEORIGIN".

Definition referrer_note (headers : gmap string string) (note : string) : Prop :=
  (no_value headers "referrer-policy" /\
   note = "Referrer-Policy missing (consider 'strict-origin-when-cross-origin')")
  \/ exists rp,
       has_value headers "referrer-policy" rp /\
       (Py.lower rp = "no-referrer-when-downgrade" \/ Py.lower rp = "unsafe-url") /\
       note = "Referrer-Policy '" +:+ rp +:+ "' is weaker than recommended".

Definition permissions_note (headers : gmap string string) (note : string) : Prop :=
  no_value headers "permissions-policy" /\
  note = "Permissions-Policy missing (not critical but recommended)".

Definition xxp_note (headers : gmap string string) (note : string) : Prop :=
  exists xxp,
    has_value headers "x-xss-protection" xxp /\
    note = "X-XSS-Protection present (legacy): '" +:+ xxp +:+ "'".

Definition expected_note (headers : gmap string string) (note : string) : Prop :=
  hsts_note headers note \/ csp_note headers note \/ xcto_note headers note
  \/ xfo_note headers note \/ referrer_note headers note
  \/ permissions_note headers note \/ xxp_note headers note.

(** ** Scripted environments for the examples *)

Module Script.

(** A stand-in for [urlparse(url).scheme]: a URL that names a host, after
    [//], and has one of the two brackets without the other is refused, as
    [urlparse] refuses a host with an unbalanced bracket. *)
Definition urlparse_scheme (url : string) : result string :=
  if Py.contains "//" url && xorb (Py.contains "[" url) (Py.contains "]" url)
  then Raise (ValueError "Invalid IPv6 URL")
  else
    match Py.split1 ":" url with
    | [scheme; _] => Ok (Py.lower scheme)
    | _ => Ok ""
    end.

(** A stand-in for [urljoin]: an absolute location replaces the base, any
    other is appended to it; a location [urlparse] refuses is refused. *)
Definition urljoin (base location : string) : result string :=
  match urlparse_scheme location with
  | Raise e => Raise e
  | Ok _ => Ok (if Py.startswith "http" location then location else base +:+ location)
  end.

(** A server that answers the k-th request with the k-th entry of the
    script, a status and headers or a transport failure, and refuses the
    connection once the script is used up.  A response carries the URL
    that was requested; a URL that does not parse is refused before any
    request is made. *)
Definition get (w : list (result (Z * list (string * string)))) (url : string) (timeout : Z)
  : list (result (Z * list (string * string))) * result HTTP.Response :=
  match urlparse_scheme url with
  | Raise e => (w, Raise (mkException ("Failed to parse: " +:+ url)))
  | Ok _ =>
      match w with
      | [] => ([], Raise (mkException "Connection refused"))
      | Ok (status, headers) :: rest => (rest, Ok (HTTP.mkResponse url status headers))
      | Raise e :: rest => (rest, Raise e)
      end
  end.

Definition get_url_parses w url timeout w' resp :
  get w url timeout = (w', Ok resp) ->
  exists scheme, urlparse_scheme (HTTP.resp_url resp) = Ok scheme.
Proof.
  unfold get. destruct (urlparse_scheme url) as [scheme|e] eqn:Hurl; [|discriminate].
  destruct w as [|[[status headers]|e] rest]; [discriminate| |discriminate].
  intros [= _ <-]. by exists scheme.
Qed.

Definition web : HTTP.Web :=
  HTTP.mkWeb (list (result (Z * list (string * string)))) Z
    get urljoin urlparse_scheme get_url_parses.

Definition found (location : string) : result (Z * list (string * string)) :=
  Ok (302, [("Location", location)]).

Definition page (headers : list (string * string)) : result (Z * list (string * string)) :=
  Ok (200, headers).

Definition timed_out : result (Z * list (string * string)) :=
  Raise (mkException "Read timed out").

(** Twelve consecutive 302 responses of one origin. *)
Definition twelve_redirects : list (result (Z * list (string * string))) :=
  replicate 12 (found "https://site.example/").

(** A network that logs every connection attempt.  [down.example]
    refuses the connection, [badcert.example] fails the handshake,
    [silent.example] completes it but reports neither version nor
    cipher, and every other host negotiates TLS 1.3. *)
Definition net : TLS.Network :=
  TLS.mkNetwork (list (string * Z)) string string Z
    (fun w addr _ =>
       (w ++ [addr],
        if String.eqb addr.1 "down.example"
        then Raise (mkException "[Errno 111] Connection refused")
        else Ok addr.1))
    (fun w sock _ =>
       (w,
        if String.eqb sock "badcert.example"
        then Raise (mkException "certificate verify failed")
        else Ok sock))
    (fun ssock =>
       if String.eqb ssock "silent.example" then Ok None else Ok (Some "TLSv1.3"))
    (fun ssock =>
       if String.eqb ssock "silent.example" then None
       else Some (Some "TLS_AES_256_GCM_SHA384", Some "TLSv1.3", Some 256)).

Definition args (target targets : option string) : TLS.Args net :=
  @TLS.mkArgs net target targets None 5.

End Script.

(** ** Records the TLS batch builds *)

(** The shell [parse_target] returns: no observation, no flag, no error. *)
Definition shell (target host : string) (port : Z) : TLS.TLSResult :=
  TLS.mkTLSResult target host port None None None None false false None.

(** The record [main] stores for an entry that [parse_target] rejects. *)
Definition invalid_target (t_str : string) (e : Exception) : TLS.TLSResult :=
  TLS.mkTLSResult t_str t_str 0 None None None None false false
    (Some ("Invalid target format: " +:+ exc_str e)).

(** [produced net timeout t_str r]: [r] is the record of the entry [t_str],
    either the stored parse error or what [check_target] returned for the
    parsed shell in some world. *)
Definition produced (net : TLS.Network) (timeout : TLS.Timeout net)
    (t_str : string) (r : TLS.TLSResult) : Prop :=
  match TLS.parse_target t_str with
  | Raise e => r = invalid_target t_str e
  | Ok t => exists w, r = (TLS.check_target net w t timeout).2
  end.

(** What the library reported for an established session. *)
Definition reported_version (net : TLS.Network) (ssock : TLS.SSLSocket net) : option string :=
  match TLS.version net ssock with
  | Ok v => v
  | Raise _ => None
  end.

Definition reported_cipher (net : TLS.Network) (ssock : TLS.SSLSocket net)
  : option string * option string * option Z :=
  default (None, None, None) (TLS.cipher net ssock).

(** ** The condition of the loop of [fetch_url] *)

Definition loop_condition (resp : HTTP.Response) (responses : list HTTP.Response) : bool :=
  HTTP.is_redirect (HTTP.resp_status_code resp)
  && HTTP.headers_contains "location" (HTTP.resp_headers resp)
  && bool_decide (length responses < HTTP.max_redirects)%nat.

(** ** What [analyse_target] evaluates on the last response

    "Only check headers if we got a final non-3xx response". *)
Definition headers_checked (final_resp : HTTP.Response)
  : list string * list string * list string :=
  if negb (HTTP.is_redirect (HTTP.resp_status_code final_resp))
  then HTTP.check_security_headers final_resp
  else ([], [], []).

(** The record [analyse_target] builds from a fetched chain, given the
    schemes of its first and last URL. *)
Definition site_record (url : string) (rs : list HTTP.Response)
    (first_scheme final_scheme : string) (final_resp : HTTP.Response)
  : HTTP.SiteCheckResult :=
  HTTP.mkSiteCheckResult url
    (Some (HTTP.resp_url final_resp))
    (Some final_scheme)
    (Some (HTTP.resp_status_code final_resp))
    (Py.join " -> " (map HTTP.resp_url rs))
    (String.eqb first_scheme "https" && String.eqb final_scheme "http")
    (Py.join ";" (headers_checked final_resp).1.1)
    (Py.join ";" (headers_checked final_resp).1.2)
    (Py.join " | " (headers_checked final_resp).2)
    None.

(** The record [analyse_target] builds when the fetch failed. *)
Definition site_error (url : string) (e : Exception) : HTTP.SiteCheckResult :=
  HTTP.mkSiteCheckResult url None None None "" false "" "" "" (Some (exc_str e)).

(** The header checks that follow the HSTS block, in the order of the
    source. *)
Definition other_checks (headers : gmap string string) (findings : list string) : list string :=
  HTTP.check_xxp headers
    (HTTP.check_permissions headers
       (HTTP.check_referrer headers
          (HTTP.check_xfo headers
             (HTTP.check_xcto headers
                (HTTP.check_csp headers findings))))).

(** [p] occurs in [s]. *)
Definition substring (p s : string) : Prop := exists pre post, s = pre +:+ p +:+ post.

(** A block that only appends to the findings it is given. *)
Definition appends (block : list string -> list string) : Prop :=
  forall findings, block findings = findings ++ block [].

(** "keeping first-seen order": every entry stays at its first occurrence
    and later occurrences are dropped. *)
Fixpoint first_seen (l : list string) : list string :=
  match l with
  | [] => []
  | x :: l => x :: filter (fun y => y <> x) (first_seen l)
  end.

(** ** The batch of weak_configuration_scanner.py *)

Module WeakConfig.

Record Args (web : HTTP.Web) : Type := mkArgs {
  arg_url : option string;
  arg_urls : option string;
  arg_input : option string;
  arg_timeout : HTTP.Timeout web
}.
Arguments mkArgs {web}.
Arguments arg_url {web}.
Arguments arg_urls {web}.
Arguments arg_input {web}.
Arguments arg_timeout {web}.

Definition load_urls_from_file (lines : list string) : list string :=
  foldl (fun urls line =>
           let line := Py.strip line in
           if negb (Py.truthy (Some line)) || Py.startswith "#" line then urls
           else urls ++ [line]) [] lines.

(** The loop under "Deduplicate while preserving order". *)
Definition unique_step (st : gset string * list string) (u : string)
  : gset string * list string :=
  if bool_decide (u ∉ st.1) then ({[ u ]} ∪ st.1, st.2 ++ [u]) else st.

Definition gather_urls {web} (files : gmap string (result (list string)))
    (args : Args web) : result (list string) :=
  let urls := [] in
  let urls :=
    if Py.truthy (arg_url args) then urls ++ [default "" (arg_url args)]
    else urls in
  let urls :=
    if Py.truthy (arg_urls args) then
      foldl (fun urls u =>
               let u := Py.strip u in
               if Py.truthy (Some u) then urls ++ [u] else urls)
            urls (Py.split "," (default "" (arg_urls args)))
    else urls in
  let extended :=
    match arg_input args with
    | Some path =>
        match files !! path with
        | None => Raise (FileNotFoundError ("Input file not found: " +:+ path))
        | Some (Raise e) => Raise e
        | Some (Ok lines) => Ok (urls ++ load_urls_from_file lines)
        end
    | None => Ok urls
    end in
  match extended with
  | Raise e => Raise e
  | Ok urls =>
      let unique_urls := (foldl unique_step (∅, []) urls).2 in
      match unique_urls with
      | [] => Raise (ValueError "No URLs specified. Use --url, --urls, or --input.")
      | _ => Ok unique_urls
      end
  end.

Section Batch.
Context (web : HTTP.Web).

(** One turn of the loop of [main].  [analyse_target] is not guarded: once
    it has raised, the exception has left the loop and no later entry is
    scanned. *)
Definition scan (timeout : HTTP.Timeout web)
    (st : HTTP.World web * result (list HTTP.SiteCheckResult)) (u : string)
  : HTTP.World web * result (list HTTP.SiteCheckResult) :=
  match st.2 with
  | Raise e => st
  | Ok results =>
      match HTTP.analyse_target web st.1 u timeout with
      | (w, Raise e) => (w, Raise e)
      | (w, Ok res) => (w, Ok (results ++ [res]))
      end
  end.

(** [main]: the exit status and the list handed to the writers, or the
    exception that ends the run. *)
Definition main (files : gmap string (result (list string))) (w : HTTP.World web)
    (args : Args web) : HTTP.World web * result (Z * list HTTP.SiteCheckResult) :=
  match gather_urls files args with
  | Raise e => (w, Ok (1, []))
  | Ok urls =>
      match foldl (scan (arg_timeout args)) (w, Ok []) urls with
      | (w, Raise e) => (w, Raise e)
      | (w, Ok results) => (w, Ok (0, results))
      end
  end.

End Batch.

End WeakConfig.

(** ** Descriptions used in the statements about the batches *)

(** The entries a batch collects before duplicates are removed: the single
    value as it was typed, then the trimmed, non-empty entries of the comma
    list, then the trimmed lines of the file that are neither blank nor
    comments. *)
Definition kept_line (line : string) : Prop :=
  line <> "" /\ Py.startswith "#" line = false.

Definition collected (single comma : option string) (lines : list string) : list string :=
  (if Py.truthy single then [default "" single] else [])
  ++ (if Py.truthy comma
      then filter (fun t => t <> "") (Py.strip <$> Py.split "," (default "" comma))
      else [])
  ++ filter kept_line (Py.strip <$> lines).

(** The lines of the file [--input] names; no [--input] reads as no line. *)
Definition input_lines (files : gmap string (result (list string)))
    (input : option string) : list string :=
  match input with
  | Some path =>
      match files !! path with
      | Some (Ok lines) => lines
      | _ => []
      end
  | None => []
  end.

(** [walked web timeout w url rs w']: requesting [url] in world [w] and
    then following each [Location] in turn yields exactly the responses
    [rs], at least one, and leaves the world in [w']; every response but
    the last is a 3xx with a [Location] header. *)
Inductive walked (web : HTTP.Web) (timeout : HTTP.Timeout web)
  : HTTP.World web -> string -> list HTTP.Response -> HTTP.World web -> Prop :=
| walked_last w url w1 resp :
    HTTP.get web w url timeout = (w1, Ok resp) ->
    walked web timeout w url [resp] w1
| walked_cons w url w1 resp location next_url rs w2 :
    HTTP.get web w url timeout = (w1, Ok resp) ->
    HTTP.is_redirect (HTTP.resp_status_code resp) = true ->
    HTTP.headers_get "location" (HTTP.resp_headers resp) = Some location ->
    HTTP.urljoin web (HTTP.resp_url resp) location = Ok next_url ->
    walked web timeout w1 next_url rs w2 ->
    walked web timeout w url (resp :: rs) w2.

(** [walk_completes web timeout w url rs w']: the walk from [url] yields
    the responses [rs] without any step raising, and stops there: the last
    response is no redirect, or carries no [Location], or is the tenth. *)
Definition walk_completes (web : HTTP.Web) (timeout : HTTP.Timeout web)
    (w : HTTP.World web) (url : string) (rs : list HTTP.Response)
    (w' : HTTP.World web) : Prop :=
  walked web timeout w url rs w' /\
  (length rs <= HTTP.max_redirects)%nat /\
  exists final_resp,
    last rs = Some final_resp /\
    (HTTP.is_redirect (HTTP.resp_status_code final_resp) = false
     \/ HTTP.headers_get "location" (HTTP.resp_headers final_resp) = None
     \/ length rs = HTTP.max_redirects).

(** [walk_fails web timeout w url w' e]: a step of the walk from [url]
    raises [e] and leaves the world in [w'].  The step is the first
    request, or, after fewer than ten responses of which the last is a 3xx
    with a [Location], the resolution of that [Location] against the URL of
    the response, or the request of the resolved URL. *)
Definition walk_fails (web : HTTP.Web) (timeout : HTTP.Timeout web)
    (w : HTTP.World web) (url : string) (w' : HTTP.World web) (e : Exception) : Prop :=
  HTTP.get web w url timeout = (w', Raise e)
  \/ exists run w1 final_resp location,
       walked web timeout w url run w1 /\ last run = Some final_resp /\
       HTTP.is_redirect (HTTP.resp_status_code final_resp) = true /\
       HTTP.headers_get "location" (HTTP.resp_headers final_resp) = Some location /\
       (length run < HTTP.max_redirects)%nat /\
       (HTTP.urljoin web (HTTP.resp_url final_resp) location = Raise e /\ w' = w1
        \/ exists next_url,
             HTTP.urljoin web (HTTP.resp_url final_resp) location = Ok next_url /\
             HTTP.get web w1 next_url timeout = (w', Raise e)).

(** The note each header leaves in the findings when it is missing
    ([x-xss-protection] leaves none). *)
Definition missing_note (header : string) : option string :=
  if String.eqb header "strict-transport-security"
  then Some "HSTS missing (for HTTPS site)"
  else if String.eqb header "content-security-policy"
  then Some "Content-Security-Policy header missing"
  else if String.eqb header "x-content-type-options"
  then Some "X-Content-Type-Options missing"
  else if String.eqb header "x-frame-options"
  then Some "X-Frame-Options missing (consider SAMEORIGIN or DENY)"
  else if String.eqb header "referrer-policy"
  then Some "Referrer-Policy missing (consider 'strict-origin-when-cross-origin')"
  else if String.eqb header "permissions-policy"
  then Some "Permissions-Policy missing (not critical but recommended)"
  else None.

(** * Properties *)

(** ** Strings *)

Lemma app_cons c s t : String c s +:+ t = String c (s +:+ t).
Proof. reflexivity. Qed.

Lemma app_empty_l s : "" +:+ s = s.
Proof. reflexivity. Qed.

Lemma app_empty_r s : s +:+ "" = s.
Proof. induction s as [|c s IH]; [done|]. by rewrite app_cons, IH. Qed.

Lemma app_assoc' s t u : (s +:+ t) +:+ u = s +:+ t +:+ u.
Proof. induction s as [|c s IH]; [done|]. by rewrite !app_cons, IH. Qed.

Lemma startswith_spec p s : Py.startswith p s = true <-> exists r, s = p +:+ r.
Proof.
  revert s. induction p as [|a p IH]; intros s; simpl.
  - split; [intros _; by exists s | done].
  - destruct s as [|b s].
    + split; [done | intros [r Hr]; discriminate].
    + destruct (Ascii.eqb_spec a b) as [->|Hne].
      * rewrite IH. split; intros [r Hr]; exists r.
        -- by rewrite app_cons, Hr.
        -- rewrite app_cons in Hr. by injection Hr.
      * split; [done | intros [r Hr]]. rewrite app_cons in Hr. congruence.
Qed.

Lemma contains_spec sub s :
  Py.contains sub s = true <-> exists pre post, s = pre +:+ sub +:+ post.
Proof.
  induction s as [|c s IH].
  - cbn [Py.contains]. rewrite orb_false_r, startswith_spec. split.
    + intros [r Hr]. by exists "", r.
    + intros [pre [post H]]. destruct pre; [by exists post | discriminate].
  - cbn [Py.contains]. rewrite orb_true_iff, startswith_spec, IH. split.
    + intros [[r Hr] | [pre [post H]]].
      * by exists "", r.
      * exists (String c pre), post. by rewrite app_cons, H.
    + intros [pre [post H]]. destruct pre as [|a pre].
      * left. by exists post.
      * right. exists pre, post. rewrite app_cons in H. by injection H.
Qed.

Lemma upper_char_idem c : Py.upper_char (Py.upper_char c) = Py.upper_char c.
Proof. by destruct c as [[] [] [] [] [] [] [] []]. Qed.

Lemma upper_idem s : Py.upper (Py.upper s) = Py.upper s.
Proof. induction s as [|c s IH]; [done|]. simpl. by rewrite upper_char_idem, IH. Qed.

Lemma upper_app s t : Py.upper (s +:+ t) = Py.upper s +:+ Py.upper t.
Proof. induction s as [|c s IH]; [done|]. rewrite app_cons. simpl. by rewrite IH. Qed.

Lemma upper_split s a b :
  Py.upper s = a +:+ b -> exists a' b', s = a' +:+ b' /\ Py.upper a' = a /\ Py.upper b' = b.
Proof.
  revert s. induction a as [|c a IH]; intros s H.
  - by exists "", s.
  - destruct s as [|d s]; [discriminate|].
    rewrite app_cons in H. simpl in H. injection H as Hc Hs.
    destruct (IH _ Hs) as (a' & b' & -> & Ha & Hb).
    exists (String d a'), b'. simpl. by rewrite Hc, Ha.
Qed.

(** [bad in name.upper()] is containment ignoring case, for a pattern
    written in upper case. *)
Lemma contains_upper_spec name bad :
  Py.upper bad = bad ->
  Py.contains bad (Py.upper name) = true <-> contains_ignoring_case name bad.
Proof.
  intros Hbad. rewrite contains_spec. unfold contains_ignoring_case. split.
  - intros (pre & post & H).
    apply upper_split in H as (pre' & rest & -> & _ & H).
    apply upper_split in H as (mid & post' & -> & Hmid & _).
    exists pre', mid, post'. by rewrite Hbad.
  - intros (pre & mid & post & -> & Hmid).
    exists (Py.upper pre), (Py.upper post).
    by rewrite !upper_app, Hmid, Hbad.
Qed.

(** ** The TLS weakness classifier *)

Lemma deny_list_upper bad : bad ∈ TLS.WEAK_CIPHER_SUBSTRINGS -> Py.upper bad = bad.
Proof.
  unfold TLS.WEAK_CIPHER_SUBSTRINGS. rewrite !elem_of_cons, elem_of_nil.
  intros [-> | [-> | [-> | [-> | [-> | [-> | []]]]]]]; reflexivity.
Qed.

Lemma deny_list_scan name :
  existsb (fun bad => Py.contains bad (Py.upper name)) TLS.WEAK_CIPHER_SUBSTRINGS = true
  <-> name_on_deny_list (Some name).
Proof.
  rewrite existsb_exists. unfold name_on_deny_list. split.
  - intros (bad & Hin & Hc). apply list_elem_of_In in Hin.
    exists name, bad. split; [done|]. split; [done|].
    by apply contains_upper_spec; [apply deny_list_upper|].
  - intros (name' & bad & [= <-] & Hin & Hc). exists bad. split.
    + by apply list_elem_of_In.
    + by apply contains_upper_spec; [apply deny_list_upper|].
Qed.

(** C3, as the specification words it, at a record with a bit length but no
    cipher name: 112 bits are below 128, yet the classifier answers false. *)
Lemma C3_nameless_cipher_not_flagged :
  ~ (TLS.is_weak_cipher None (Some 112) = true
     <-> name_on_deny_list None \/ bits_below_128 (Some 112)).
Proof.
  intros [_ H]. assert (Hw : TLS.is_weak_cipher None (Some 112) = true).
  { apply H. right. exists 112. split; [reflexivity | lia]. }
  discriminate Hw.
Qed.

(** C3 (amended): [is_weak_cipher] answers true exactly when the cipher name
    is present and non-empty and, in addition, either the name contains one
    of RC4, 3DES, DES-, MD5, NULL, EXPORT ignoring case, or the bit length
    is present and below 128.  Without a cipher name the answer is false
    whatever the bit length. *)
Theorem C3_is_weak_cipher_spec (cipher_name : option string) (cipher_bits : option Z) :
  TLS.is_weak_cipher cipher_name cipher_bits = true
  <-> Py.truthy cipher_name = true /\
      (name_on_deny_list cipher_name \/ bits_below_128 cipher_bits).
Proof.
  unfold TLS.is_weak_cipher.
  destruct (Py.truthy cipher_name) eqn:Ht; cbn [negb];
    [| split; [done | intros [? _]; done]].
  destruct cipher_name as [name|]; [|done].
  change (default "" (Some name)) with name. cbv zeta.
  destruct (existsb _ _) eqn:Hscan.
  - apply deny_list_scan in Hscan. split; [intros _; split; [done | by left] | done].
  - assert (Hno : ~ name_on_deny_list (Some name)).
    { intros Hn. apply deny_list_scan in Hn. rewrite Hn in Hscan. discriminate. }
    unfold bits_below_128. destruct cipher_bits as [bits|].
    + destruct (Z.ltb_spec bits 128); split.
      * intros _. split; [done|]. right. by exists bits.
      * done.
      * done.
      * intros [_ [? | (b & [= <-] & ?)]]; [done | lia].
    + split; [done|]. intros [_ [? | (b & ? & _)]]; done.
Qed.

Example weak_3des :
  TLS.is_weak_cipher (Some "TLS_RSA_WITH_3DES_EDE_CBC_SHA") (Some 168) = true.
Proof. reflexivity. Qed.

Example weak_lowercase_rc4 : TLS.is_weak_cipher (Some "ecdhe-rsa-rc4-sha") None = true.
Proof. reflexivity. Qed.

Example weak_112_bits :
  TLS.is_weak_cipher (Some "ECDHE-RSA-AES256-GCM-SHA384") (Some 112) = true.
Proof. reflexivity. Qed.

Example strong_cipher :
  TLS.is_weak_cipher (Some "TLS_AES_256_GCM_SHA384") (Some 256) = false.
Proof. reflexivity. Qed.

Example weak_tls11 : TLS.is_weak_protocol (Some "TLSv1.1") = true.
Proof. vm_compute. reflexivity. Qed.

Example modern_tls13 : TLS.is_weak_protocol (Some "TLSv1.3") = false.
Proof. vm_compute. reflexivity. Qed.

(** ** The TLS target parser *)

Lemma contains_char_cons c a r :
  Py.contains (String c "") (String a r)
  = (if Ascii.eqb c a then true else false) || Py.contains (String c "") r.
Proof. cbn [Py.contains Py.startswith]. by destruct (Ascii.eqb c a). Qed.

Lemma rsplit1_spec c s :
  if Py.contains (String c "") s
  then exists h t, Py.rsplit1 c s = [h; t] /\ s = h +:+ String c t /\
                   Py.contains (String c "") t = false
  else Py.rsplit1 c s = [s].
Proof.
  induction s as [|a r IH]; [done|].
  rewrite contains_char_cons. cbn [Py.rsplit1].
  destruct (Py.contains (String c "") r) eqn:Hr.
  - rewrite orb_true_r. destruct IH as (h & t & -> & -> & Ht).
    exists (String a h), t. by rewrite app_cons.
  - rewrite orb_false_r, IH. rewrite (Ascii.eqb_sym a c).
    destruct (Ascii.eqb_spec c a) as [->|Hne]; [|done].
    by exists "", r.
Qed.

Lemma digit_not_space c : Py.isdigit_char c = true -> Py.isspace c = false.
Proof. by destruct c as [[] [] [] [] [] [] [] []]. Qed.

Lemma digit_value_range c : Py.isdigit_char c = true -> 0 <= Py.digit_value c <= 9.
Proof. destruct c as [[] [] [] [] [] [] [] []]; try discriminate; intros _; by vm_compute. Qed.

Lemma all_digits_rstrip s : Py.all_digits s = true -> Py.rstrip s = s.
Proof.
  induction s as [|c r IH]; [done|]. cbn [Py.all_digits Py.rstrip].
  intros [Hc Hr]%andb_prop. rewrite (IH Hr).
  destruct r; [by rewrite (digit_not_space c Hc) | done].
Qed.

Lemma all_digits_strip s : Py.all_digits s = true -> Py.strip s = s.
Proof.
  intros H. unfold Py.strip.
  assert (Hl : Py.lstrip s = s).
  { destruct s as [|c r]; [done|]. cbn [Py.all_digits] in H.
    apply andb_prop in H as [Hc _]. cbn [Py.lstrip]. by rewrite (digit_not_space c Hc). }
  rewrite Hl. by apply all_digits_rstrip.
Qed.

Lemma digit_not_int_space c : Py.isdigit_char c = true -> Py.int_isspace c = false.
Proof. destruct c as [[] [] [] [] [] [] [] []]; done. Qed.

Lemma all_digits_int_rstrip s : Py.all_digits s = true -> Py.int_rstrip s = s.
Proof.
  induction s as [|c r IH]; [done|]. cbn [Py.all_digits Py.int_rstrip].
  intros [Hc Hr]%andb_prop. rewrite (IH Hr).
  destruct r; [by rewrite (digit_not_int_space c Hc) | done].
Qed.

Lemma all_digits_int_strip s :
  Py.all_digits s = true -> Py.int_rstrip (Py.int_lstrip s) = s.
Proof.
  intros H.
  assert (Hl : Py.int_lstrip s = s).
  { destruct s as [|c r]; [done|]. cbn [Py.all_digits] in H.
    apply andb_prop in H as [Hc _]. cbn [Py.int_lstrip].
    by rewrite (digit_not_int_space c Hc). }
  rewrite Hl. by apply all_digits_int_rstrip.
Qed.

Lemma int_digits_all_digits s : forall acc after_digit,
  Py.all_digits s = true -> 0 <= acc -> s <> "" \/ after_digit = true ->
  exists n, Py.int_digits acc after_digit s = Some n /\ 0 <= n.
Proof.
  induction s as [|c r IH]; intros acc after_digit Hs Hacc Hne.
  - destruct Hne as [? | ->]; [done|]. by exists acc.
  - cbn [Py.all_digits] in Hs. apply andb_prop in Hs as [Hc Hr].
    cbn [Py.int_digits]. rewrite Hc. apply IH; [done | | by right].
    pose proof (digit_value_range c Hc). lia.
Qed.

(** On a string of digits [int] cannot raise, and its value is not negative. *)
Lemma int_isdigit s : Py.isdigit s = true -> exists n, Py.int s = Some n /\ 0 <= n.
Proof.
  destruct s as [|c r]; [done|]. cbn [Py.isdigit]. intros Hs.
  unfold Py.int. rewrite (all_digits_int_strip _ Hs).
  assert (Hc : Py.isdigit_char c = true).
  { cbn [Py.all_digits] in Hs. by apply andb_prop in Hs as [? _]. }
  assert (Hint : exists n, Py.int_digits 0 false (String c r) = Some n /\ 0 <= n).
  { apply int_digits_all_digits; [done | lia | by left]. }
  destruct c as [[] [] [] [] [] [] [] []]; try discriminate Hc; exact Hint.
Qed.

Example int_whitespace :
  Py.int (String "160" "3600") = Some 3600
  /\ Py.int (String "031" "3600") = None
  /\ Py.strip (String "031" "3600") = "3600"
  /\ Py.int " 1_000 " = Some 1000 /\ Py.int "+-1" = None /\ Py.int "" = None.
Proof. repeat split; vm_compute; reflexivity. Qed.

(** Every way [parse_target] can end. *)
Lemma parse_target_cases raw :
  let target := Py.strip raw in
  (target = "" /\ TLS.parse_target raw = Raise (ValueError "Empty target entry"))
  \/ (target <> "" /\ Py.contains ":" target = false /\
      TLS.parse_target raw = Ok (shell target target 443))
  \/ (exists host port_str,
        target = host +:+ ":" +:+ port_str /\ Py.contains ":" port_str = false /\
        ((Py.isdigit port_str = false /\
          TLS.parse_target raw = Raise (ValueError ("Invalid port in target: " +:+ target)))
         \/ (exists port,
               Py.isdigit port_str = true /\ Py.int port_str = Some port /\ 0 <= port /\
               TLS.parse_target raw = Ok (shell target host port)))).
Proof.
  intros target. unfold TLS.parse_target. fold target.
  destruct target as [|c0 r0] eqn:Htarget; [by left|]. right.
  rewrite <- Htarget. replace (Py.truthy (Some target)) with true by by rewrite Htarget.
  cbn [negb]. pose proof (rsplit1_spec ":" target) as Hsplit.
  destruct (Py.contains ":" target) eqn:Hcolon; cbn [negb].
  - right. destruct Hsplit as (host & port_str & -> & Heq & Hlast).
    exists host, port_str. split; [done|]. split; [done|].
    destruct (Py.isdigit port_str) eqn:Hdigit; cbn [negb]; [right | by left].
    destruct (int_isdigit _ Hdigit) as (port & -> & Hport). by exists port.
  - left. split; [by rewrite Htarget | done].
Qed.

(** C5, as the specification words it, at two targets the parser accepts:
    [":443"] has an empty host, and ["example.com:70000"] a port above
    65535. *)
Lemma C5_accepted_outside_invariant :
  (exists t, TLS.parse_target ":443" = Ok t /\ TLS.hostname t = "")
  /\ (exists t, TLS.parse_target "example.com:70000" = Ok t /\
                ~ (1 <= TLS.port t <= 65535)).
Proof.
  split; eexists; (split; [vm_compute; reflexivity|]); [reflexivity | cbn; lia].
Qed.

(** C5 (amended): a target that [parse_target] accepts is non-empty once
    trimmed.  Without a colon the host is the whole trimmed target and the
    port defaults to 443.  With a colon the target is cut at its last
    colon: the host is the text before it, which may be empty, and the port
    is the value of the all-digit text after it, any integer from 0 upwards,
    with no range check.  A target that is empty once trimmed, or whose text
    after the last colon is not all digits, is rejected with a message that
    names the reason. *)
Theorem C5_parse_target_spec (raw : string) :
  match TLS.parse_target raw with
  | Ok t =>
      t = shell (Py.strip raw) (TLS.hostname t) (TLS.port t) /\
      Py.strip raw <> "" /\ 0 <= TLS.port t /\
      (Py.contains ":" (Py.strip raw) = false /\
         TLS.hostname t = Py.strip raw /\ TLS.port t = 443
       \/ exists port_str,
            Py.strip raw = TLS.hostname t +:+ ":" +:+ port_str /\
            Py.contains ":" port_str = false /\ Py.isdigit port_str = true /\
            Py.int port_str = Some (TLS.port t))
  | Raise e =>
      Py.strip raw = "" /\ exc_str e = "Empty target entry"
      \/ exists host port_str,
           Py.strip raw = host +:+ ":" +:+ port_str /\
           Py.contains ":" port_str = false /\ Py.isdigit port_str = false /\
           exc_str e = "Invalid port in target: " +:+ Py.strip raw
  end.
Proof.
  destruct (parse_target_cases raw)
    as [[Hempty ->] | [(Hne & Hcolon & ->) | (host & port_str & Heq & Hlast & Hcase)]].
  - by left.
  - split; [done|]. split; [done|]. split; [done|]. by left.
  - destruct Hcase as [[Hdigit ->] | (port & Hdigit & Hint & Hport & ->)].
    + right. by exists host, port_str.
    + cbn [TLS.hostname TLS.port shell]. split; [done|].
      split; [rewrite Heq; by destruct host|]. split; [done|].
      right. by exists port_str.
Qed.

Example parse_default_port : TLS.parse_target " example.com " = Ok (shell "example.com" "example.com" 443).
Proof. vm_compute. reflexivity. Qed.

Example parse_explicit_port : TLS.parse_target "10.0.0.10:8443" = Ok (shell "10.0.0.10:8443" "10.0.0.10" 8443).
Proof. vm_compute. reflexivity. Qed.

Example parse_last_colon : TLS.parse_target "[::1]:443" = Ok (shell "[::1]:443" "[::1]" 443).
Proof. vm_compute. reflexivity. Qed.

Example parse_bad_port :
  TLS.parse_target "example.com:https" = Raise (ValueError "Invalid port in target: example.com:https").
Proof. vm_compute. reflexivity. Qed.

Example parse_blank : TLS.parse_target "   " = Raise (ValueError "Empty target entry").
Proof. vm_compute. reflexivity. Qed.

(** ** The TLS probe and its batch loop *)

Section TLSBatch.
Context (net : TLS.Network) (timeout : TLS.Timeout net).

(** [check_target] on a fresh shell: either the connection or the
    handshake raised and only [error] is set, or the session was
    established and the record holds what the library reported. *)
Lemma check_target_cases w target host port :
  let t := shell target host port in
  let '(w', r) := TLS.check_target net w t timeout in
  (exists msg, r = TLS.set_error (Some msg) t)
  \/ (exists w1 sock ssock,
        TLS.create_connection net w (host, port) timeout = (w1, Ok sock) /\
        TLS.wrap_socket net w1 sock host = (w', Ok ssock) /\
        r = TLS.mkTLSResult target host port
              (reported_version net ssock)
              (reported_cipher net ssock).1.1
              (reported_cipher net ssock).1.2
              (reported_cipher net ssock).2
              (TLS.is_weak_protocol (reported_version net ssock))
              (TLS.is_weak_cipher (reported_cipher net ssock).1.1
                                  (reported_cipher net ssock).2)
              None).
Proof.
  intros t. unfold TLS.check_target. cbn [TLS.hostname TLS.port t shell].
  destruct (TLS.create_connection net w (host, port) timeout)
    as [w1 [sock|e]] eqn:Hconnect.
  - destruct (TLS.wrap_socket net w1 sock host) as [w2 [ssock|e]] eqn:Hwrap.
    + right. exists w1, sock, ssock. split; [done|]. split; [done|].
      unfold reported_version, reported_cipher.
      destruct (TLS.version net ssock) as [v|e];
        destruct (TLS.cipher net ssock) as [[[n p] b]|]; reflexivity.
    + left. by exists (exc_str e).
  - left. by exists (exc_str e).
Qed.

Lemma check_target_keeps w t :
  let r := (TLS.check_target net w t timeout).2 in
  TLS.target r = TLS.target t /\ TLS.hostname r = TLS.hostname t /\
  TLS.port r = TLS.port t.
Proof.
  unfold TLS.check_target.
  destruct (TLS.create_connection net w _ timeout) as [w1 [sock|e]]; [|done].
  destruct (TLS.wrap_socket net w1 sock _) as [w2 [ssock|e]]; [|done].
  destruct (TLS.version net ssock) as [v|e];
    destruct (TLS.cipher net ssock) as [[[n p] b]|]; done.
Qed.

(** A rejected entry is stored without touching the network. *)
Lemma probe_rejected st t_str e :
  TLS.parse_target t_str = Raise e ->
  TLS.probe net timeout st t_str = (st.1, st.2 ++ [invalid_target t_str e]).
Proof. intros H. unfold TLS.probe. by rewrite H. Qed.

Lemma probe_produced st t_str :
  exists w r, TLS.probe net timeout st t_str = (w, st.2 ++ [r]) /\
              produced net timeout t_str r.
Proof.
  unfold TLS.probe, produced. destruct (TLS.parse_target t_str) as [t|e].
  - destruct (TLS.check_target net st.1 t timeout) as [w r] eqn:Hc.
    exists w, r. split; [done|]. exists st.1. by rewrite Hc.
  - by exists st.1, (invalid_target t_str e).
Qed.

(** The loop of [main] appends one record per entry, in order. *)
Lemma probe_loop targets : forall w results,
  exists w' rs,
    foldl (TLS.probe net timeout) (w, results) targets = (w', results ++ rs) /\
    Forall2 (produced net timeout) targets rs.
Proof.
  induction targets as [|t_str targets IH]; intros w results.
  - exists w, []. by rewrite app_nil_r.
  - cbn [foldl].
    destruct (probe_produced (w, results) t_str) as (w1 & r & -> & Hr).
    cbn [snd].
    destruct (IH w1 (results ++ [r])) as (w' & rs & -> & Hrs).
    exists w', (r :: rs). rewrite <- app_assoc. by split; [|constructor].
Qed.

End TLSBatch.

Lemma main_results net files w args :
  match TLS.gather_targets files args with
  | Raise _ => TLS.main net files w args = (w, (1, []))
  | Ok targets =>
      exists w' results,
        TLS.main net files w args = (w', (0, results)) /\
        Forall2 (produced net (TLS.arg_timeout args)) targets results
  end.
Proof.
  unfold TLS.main. destruct (TLS.gather_targets files args) as [targets|e]; [|done].
  destruct (probe_loop net (TLS.arg_timeout args) targets w []) as (w' & rs & -> & H).
  by exists w', rs.
Qed.

(** C10: an entry that [parse_target] rejects, because it is empty once
    trimmed or because its port is not numeric, still gets its record in the
    batch, at the position of the entry: [hostname] is the raw entry, [port]
    is 0, no observation, both flags false, and [error] starts with
    "Invalid target format:".  The turn of the loop that stores it leaves
    the network as it was: no connection is attempted. *)
Theorem C10_rejected_entry_recorded net files w args targets w' status results
    (i : nat) (t_str : string) (e : Exception) :
  TLS.gather_targets files args = Ok targets ->
  TLS.main net files w args = (w', (status, results)) ->
  targets !! i = Some t_str ->
  TLS.parse_target t_str = Raise e ->
  results !! i =
    Some (TLS.mkTLSResult t_str t_str 0 None None None None false false
            (Some ("Invalid target format: " +:+ exc_str e)))
  /\ (forall st, TLS.probe net (TLS.arg_timeout args) st t_str
                 = (st.1, st.2 ++ [invalid_target t_str e]))
  /\ (Py.strip t_str = "" /\ exc_str e = "Empty target entry"
      \/ exists host port_str,
           Py.strip t_str = host +:+ ":" +:+ port_str /\
           Py.isdigit port_str = false /\
           exc_str e = "Invalid port in target: " +:+ Py.strip t_str).
Proof.
  intros Hgather Hmain Hi Hparse.
  pose proof (main_results net files w args) as H. rewrite Hgather in H.
  destruct H as (w'' & results' & Hmain' & Hall).
  rewrite Hmain in Hmain'. injection Hmain' as _ _ <-.
  split; [|split].
  - destruct (Forall2_lookup_l _ _ _ _ _ Hall Hi) as (r & Hr & Hprod).
    unfold produced in Hprod. rewrite Hparse in Hprod. by rewrite Hr, Hprod.
  - intros st. by apply probe_rejected.
  - destruct (parse_target_cases t_str)
      as [[Hempty He] | [(_ & _ & He) | (host & port_str & Heq & _ & Hcase)]].
    + left. rewrite Hparse in He. by injection He as ->.
    + rewrite Hparse in He. discriminate.
    + right. exists host, port_str.
      destruct Hcase as [[Hdigit He] | (port & _ & _ & _ & He)];
        rewrite Hparse in He; [|discriminate]. by injection He as ->.
Qed.

Lemma C10_rejected_entry_recorded_witness :
  let args := Script.args None (Some "example.com:443, example.com:https") in
  let e := ValueError "Invalid port in target: example.com:https" in
  (TLS.gather_targets ∅ args = Ok ["example.com:443"; "example.com:https"] /\
   TLS.parse_target "example.com:https" = Raise e)
  /\ (TLS.main Script.net ∅ [] args).2.2 !! 1%nat =
       Some (TLS.mkTLSResult "example.com:https" "example.com:https" 0
               None None None None false false
               (Some "Invalid target format: Invalid port in target: example.com:https")).
Proof.
  intros args e. split; [split; vm_compute; reflexivity|].
  refine (proj1 (C10_rejected_entry_recorded Script.net ∅ [] args
                   ["example.com:443"; "example.com:https"]
                   (TLS.main Script.net ∅ [] args).1
                   (TLS.main Script.net ∅ [] args).2.1
                   (TLS.main Script.net ∅ [] args).2.2
                   1%nat "example.com:https" e _ _ _ _));
    vm_compute; reflexivity.
Defined.

(** The rejected entry leaves no trace in the log of connection attempts. *)
Example rejected_entry_not_connected :
  (TLS.main Script.net ∅ [] (Script.args None (Some "example.com:443, example.com:https"))).1
  = [("example.com", 443)].
Proof. vm_compute. reflexivity. Qed.

(** ** The redirect walk *)

Section Walk.
Context (web : HTTP.Web) (timeout : HTTP.Timeout web).

Lemma headers_contains_get name items :
  HTTP.headers_contains name items = true <-> is_Some (HTTP.headers_get name items).
Proof. unfold HTTP.headers_contains. by rewrite bool_decide_eq_true. Qed.

(** The loop stops at once when its condition fails, whatever the fuel,
    and issues no request. *)
Lemma follow_stop fuel w resp responses :
  loop_condition resp responses = false ->
  HTTP.follow web fuel w resp responses timeout = Some (w, (responses, None)).
Proof.
  unfold loop_condition. intros H. destruct fuel; cbn [HTTP.follow]; by rewrite H.
Qed.

(** One turn of the loop. *)
Lemma follow_step fuel w resp responses location :
  loop_condition resp responses = true ->
  HTTP.headers_get "location" (HTTP.resp_headers resp) = Some location ->
  HTTP.follow web (S fuel) w resp responses timeout =
    match HTTP.urljoin web (HTTP.resp_url resp) location with
    | Raise e => Some (w, ([], Some e))
    | Ok next_url =>
        match HTTP.get web w next_url timeout with
        | (w, Raise e) => Some (w, ([], Some e))
        | (w, Ok resp) => HTTP.follow web fuel w resp (responses ++ [resp]) timeout
        end
    end.
Proof.
  unfold loop_condition. intros H Hloc. cbn [HTTP.follow]. by rewrite H, Hloc.
Qed.

Lemma loop_condition_location resp responses :
  loop_condition resp responses = true ->
  exists location, HTTP.headers_get "location" (HTTP.resp_headers resp) = Some location.
Proof.
  unfold loop_condition. intros [[_ H]%andb_prop _]%andb_prop.
  by apply headers_contains_get in H.
Qed.

(** The loop ends within [max_redirects - len(responses)] turns. *)
Lemma follow_terminates fuel : forall w resp responses,
  (HTTP.max_redirects - length responses <= fuel)%nat ->
  is_Some (HTTP.follow web fuel w resp responses timeout).
Proof.
  induction fuel as [|fuel IH]; intros w resp responses Hfuel.
  - rewrite follow_stop; [done|]. unfold loop_condition.
    rewrite bool_decide_eq_false_2; [by rewrite andb_false_r | lia].
  - destruct (loop_condition resp responses) eqn:Hcond.
    + destruct (loop_condition_location _ _ Hcond) as [location Hloc].
      rewrite (follow_step _ _ _ _ _ Hcond Hloc).
      destruct (HTTP.urljoin web _ location) as [next_url|e0]; [|done].
      destruct (HTTP.get web w next_url timeout) as [w1 [resp1|e]]; [|done].
      apply IH. rewrite length_app. cbn [length]. lia.
    + by rewrite follow_stop.
Qed.

(** More fuel does not change an answer. *)
Lemma follow_fuel_mono fuel : forall fuel' w resp responses res,
  HTTP.follow web fuel w resp responses timeout = Some res ->
  (fuel <= fuel')%nat ->
  HTTP.follow web fuel' w resp responses timeout = Some res.
Proof.
  induction fuel as [|fuel IH]; intros fuel' w resp responses res Hres Hle.
  - destruct (loop_condition resp responses) eqn:Hcond.
    + cbn [HTTP.follow] in Hres. fold (loop_condition resp responses) in Hres.
      by rewrite Hcond in Hres.
    + rewrite follow_stop in Hres by done. by rewrite follow_stop.
  - destruct fuel' as [|fuel']; [lia|].
    destruct (loop_condition resp responses) eqn:Hcond.
    + destruct (loop_condition_location _ _ Hcond) as [location Hloc].
      rewrite (follow_step fuel _ _ _ _ Hcond Hloc) in Hres.
      rewrite (follow_step fuel' _ _ _ _ Hcond Hloc).
      destruct (HTTP.urljoin web _ location) as [next_url|e0]; [|done].
      destruct (HTTP.get web w next_url timeout) as [w1 [resp1|e]]; [|done].
      apply (IH fuel'); [done | lia].
    + rewrite follow_stop in Hres by done. by rewrite follow_stop.
Qed.

(** What the loop can hand back: nothing and an error, or the responses
    it started from followed by the ones it collected, ending in the
    response at which the loop condition failed. *)
Lemma follow_result fuel : forall w resp responses w' rs err,
  last responses = Some resp ->
  HTTP.follow web fuel w resp responses timeout = Some (w', (rs, err)) ->
  (is_Some err /\ rs = [])
  \/ (err = None /\ (exists more, rs = responses ++ more) /\
      exists final, last rs = Some final /\ loop_condition final rs = false).
Proof.
  induction fuel as [|fuel IH]; intros w resp responses w' rs err Hlast Hres.
  - destruct (loop_condition resp responses) eqn:Hcond.
    + cbn [HTTP.follow] in Hres. fold (loop_condition resp responses) in Hres.
      by rewrite Hcond in Hres.
    + rewrite follow_stop in Hres by done. injection Hres as <- <- <-.
      right. split; [done|]. split; [exists []; by rewrite app_nil_r|]. by exists resp.
  - destruct (loop_condition resp responses) eqn:Hcond.
    + destruct (loop_condition_location _ _ Hcond) as [location Hloc].
      rewrite (follow_step _ _ _ _ _ Hcond Hloc) in Hres.
      destruct (HTTP.urljoin web _ location) as [next_url|e0];
        [|injection Hres as <- <- <-; left; by split].
      destruct (HTTP.get web w next_url timeout) as [w1 [resp1|e]].
      * apply IH in Hres; [|by rewrite last_snoc].
        destruct Hres as [? | (-> & [more ->] & Hfinal)]; [by left|].
        right. split; [done|]. split; [|done].
        exists (resp1 :: more). by rewrite <- app_assoc.
      * injection Hres as <- <- <-. left. by split.
    + rewrite follow_stop in Hres by done. injection Hres as <- <- <-.
      right. split; [done|]. split; [exists []; by rewrite app_nil_r|]. by exists resp.
Qed.

(** The chain never grows beyond [max_redirects] responses. *)
Lemma follow_bound fuel : forall w resp responses w' rs err,
  (length responses <= HTTP.max_redirects)%nat ->
  HTTP.follow web fuel w resp responses timeout = Some (w', (rs, err)) ->
  (length rs <= HTTP.max_redirects)%nat.
Proof.
  induction fuel as [|fuel IH]; intros w resp responses w' rs err Hlen Hres.
  - destruct (loop_condition resp responses) eqn:Hcond.
    + cbn [HTTP.follow] in Hres. fold (loop_condition resp responses) in Hres.
      by rewrite Hcond in Hres.
    + rewrite follow_stop in Hres by done. by injection Hres as <- <- <-.
  - destruct (loop_condition resp responses) eqn:Hcond.
    + destruct (loop_condition_location _ _ Hcond) as [location Hloc].
      rewrite (follow_step _ _ _ _ _ Hcond Hloc) in Hres.
      destruct (HTTP.urljoin web _ location) as [next_url|e0];
        [|injection Hres as <- <- <-; cbn [length]; lia].
      destruct (HTTP.get web w next_url timeout) as [w1 [resp1|e]].
      * apply IH in Hres; [done|]. rewrite length_app. cbn [length].
        unfold loop_condition in Hcond.
        apply andb_prop in Hcond as [_ Hlt%bool_decide_eq_true]. lia.
      * injection Hres as <- <- <-. cbn [length]. lia.
    + rewrite follow_stop in Hres by done. by injection Hres as <- <- <-.
Qed.

(** [fetch_url] is total: [max_redirects] turns of fuel, or more, give
    its answer. *)
Lemma fetch_url_fuel_enough fuel w url :
  (HTTP.max_redirects <= fuel)%nat ->
  HTTP.fetch_url_fuel web fuel w url timeout = Some (HTTP.fetch_url web w url timeout).
Proof.
  intros Hfuel. unfold HTTP.fetch_url.
  assert (Hsome : is_Some (HTTP.fetch_url_fuel web HTTP.max_redirects w url timeout)).
  { unfold HTTP.fetch_url_fuel.
    destruct (HTTP.get web w url timeout) as [w1 [resp|e]]; [|done].
    apply follow_terminates. lia. }
  destruct Hsome as [res Hres]. rewrite Hres. cbn [default from_option id].
  unfold HTTP.fetch_url_fuel in *.
  destruct (HTTP.get web w url timeout) as [w1 [resp|e]]; [|done].
  by apply (follow_fuel_mono HTTP.max_redirects).
Qed.

(** Every way [fetch_url] can end. *)
Lemma fetch_url_cases w url :
  let '(w', (rs, err)) := HTTP.fetch_url web w url timeout in
  (is_Some err /\ rs = [])
  \/ (err = None /\
      (exists w1 first more,
         HTTP.get web w url timeout = (w1, Ok first) /\ rs = first :: more) /\
      (exists final, last rs = Some final /\ loop_condition final rs = false) /\
      (length rs <= HTTP.max_redirects)%nat).
Proof.
  pose proof (fetch_url_fuel_enough HTTP.max_redirects w url (le_n _)) as H.
  destruct (HTTP.fetch_url web w url timeout) as [w' [rs err]].
  unfold HTTP.fetch_url_fuel in H.
  destruct (HTTP.get web w url timeout) as [w1 [first|e]] eqn:Hget.
  - assert (Hlen : (length rs <= HTTP.max_redirects)%nat).
    { apply (follow_bound HTTP.max_redirects w1 first [first] w' rs err); [|done].
      unfold HTTP.max_redirects. cbn [length]. lia. }
    apply follow_result in H; [|done].
    destruct H as [? | (-> & [more ->] & Hfinal)]; [by left|].
    right. split; [done|]. split; [by exists w1, first, more|]. by split.
  - injection H as <- <- <-. left. by split.
Qed.

(** *** Walks *)

Lemma walked_nonempty w url rs w' : walked web timeout w url rs w' -> rs <> [].
Proof. by destruct 1. Qed.

Lemma walked_snoc w0 url0 rs w :
  walked web timeout w0 url0 rs w ->
  forall resp location next_url w' resp',
    last rs = Some resp ->
    HTTP.is_redirect (HTTP.resp_status_code resp) = true ->
    HTTP.headers_get "location" (HTTP.resp_headers resp) = Some location ->
    HTTP.urljoin web (HTTP.resp_url resp) location = Ok next_url ->
    HTTP.get web w next_url timeout = (w', Ok resp') ->
    walked web timeout w0 url0 (rs ++ [resp']) w'.
Proof.
  induction 1
    as [w0 url0 w1 resp0 Hget | w0 url0 w1 resp0 location0 next0 rs w2 Hget Hred Hloc Hjoin Hrun IH];
    intros resp location next_url w' resp' Hlast Hredirect Hlocation Hnext Hget'.
  - injection Hlast as <-. cbn [app].
    eapply walked_cons; [done..|]. by apply walked_last.
  - cbn [app]. eapply walked_cons; [done..|].
    eapply IH; [|done..]. pose proof (walked_nonempty _ _ _ _ Hrun).
    by destruct rs.
Qed.

(** Every response of a walk was returned by [get], so its URL parses. *)
Lemma walked_parses w url rs w' :
  walked web timeout w url rs w' ->
  forall resp, resp ∈ rs -> exists scheme, HTTP.urlparse_scheme web (HTTP.resp_url resp) = Ok scheme.
Proof.
  induction 1
    as [w0 url0 w1 resp0 Hget | w0 url0 w1 resp0 location0 next0 rs w2 Hget Hred Hloc Hjoin Hrun IH];
    intros resp Hin.
  - apply list_elem_of_singleton in Hin as ->. by eapply HTTP.get_url_parses.
  - apply elem_of_cons in Hin as [-> | Hin]; [by eapply HTTP.get_url_parses | by apply IH].
Qed.

(** A run of redirects is a walk. *)
Lemma redirecting_walked w url rs w' :
  redirecting web timeout w url rs w' -> rs <> [] -> walked web timeout w url rs w'.
Proof.
  induction 1 as [w url | w url w1 resp location next_url rs w2 Hget Hred Hloc Hjoin Hrun IH];
    intros Hne; [done|].
  destruct rs as [|resp' rs'].
  - inversion Hrun; subst. by apply walked_last.
  - eapply walked_cons; [done..|]. by apply IH.
Qed.

Lemma loop_condition_redirect resp responses :
  loop_condition resp responses = true ->
  HTTP.is_redirect (HTTP.resp_status_code resp) = true.
Proof. unfold loop_condition. by intros [[? _]%andb_prop _]%andb_prop. Qed.

Lemma loop_condition_bound resp responses :
  loop_condition resp responses = true -> (length responses < HTTP.max_redirects)%nat.
Proof. unfold loop_condition. by intros [_ ?%bool_decide_eq_true]%andb_prop. Qed.

Lemma loop_condition_true resp responses location :
  HTTP.is_redirect (HTTP.resp_status_code resp) = true ->
  HTTP.headers_get "location" (HTTP.resp_headers resp) = Some location ->
  (length responses < HTTP.max_redirects)%nat ->
  loop_condition resp responses = true.
Proof.
  intros Hredirect Hloc Hlen. unfold loop_condition. rewrite Hredirect. cbn [andb].
  rewrite (proj2 (headers_contains_get _ _)) by (by rewrite Hloc).
  by apply bool_decide_eq_true.
Qed.

Lemma last_cons_default {A} (d x : A) (l : list A) :
  default d (last (x :: l)) = default x (last l).
Proof.
  revert d x. induction l as [|y l IH]; intros d x; [done|].
  change (last (x :: y :: l)) with (last (y :: l)). by rewrite (IH d), (IH x).
Qed.

(** Along a walk the loop takes one turn per response. *)
Lemma follow_along w url more w2 :
  walked web timeout w url more w2 ->
  forall fuel resp responses location,
    HTTP.is_redirect (HTTP.resp_status_code resp) = true ->
    HTTP.headers_get "location" (HTTP.resp_headers resp) = Some location ->
    HTTP.urljoin web (HTTP.resp_url resp) location = Ok url ->
    (length responses + length more <= HTTP.max_redirects)%nat ->
    HTTP.follow web (length more + fuel) w resp responses timeout
    = HTTP.follow web fuel w2 (default resp (last more)) (responses ++ more) timeout.
Proof.
  induction 1
    as [w url w1 resp1 Hget | w url w1 resp1 location1 next1 more w2 Hget Hred1 Hloc1 Hjoin1 Hrun IH];
    intros fuel resp responses location Hredirect Hloc Hjoin Hlen;
    cbn [length] in Hlen |- *; cbn [Nat.add].
  - rewrite (follow_step _ _ _ _ location); [|apply (loop_condition_true _ _ location)|];
      [|done|done|lia|done].
    by rewrite Hjoin, Hget.
  - rewrite (follow_step _ _ _ _ location); [|apply (loop_condition_true _ _ location)|];
      [|done|done|lia|done].
    rewrite Hjoin, Hget. rewrite (IH fuel resp1 _ location1); [|done..|].
    + by rewrite last_cons_default, <- app_assoc.
    + rewrite length_app. cbn [length]. lia.
Qed.

(** A walk no longer than the bound is followed to its end; what happens
    next is up to the loop at the last response. *)
Lemma fetch_url_along w url first more w2 fuel :
  walked web timeout w url (first :: more) w2 ->
  (length (first :: more) <= HTTP.max_redirects)%nat ->
  HTTP.fetch_url_fuel web (length more + fuel) w url timeout
  = HTTP.follow web fuel w2 (default first (last more)) (first :: more) timeout.
Proof.
  intros Hrun Hlen. unfold HTTP.fetch_url_fuel.
  inversion Hrun as [? ? ? ? Hget | ? ? w1 ? location next_url ? ? Hget Hred Hloc Hjoin Hrun1];
    subst; rewrite Hget.
  - done.
  - by rewrite (follow_along _ _ _ _ Hrun1 fuel first [first] location).
Qed.

(** What the loop hands back without error is a walk. *)
Lemma follow_walked fuel : forall w resp responses w' rs w0 url0,
  walked web timeout w0 url0 responses w ->
  last responses = Some resp ->
  HTTP.follow web fuel w resp responses timeout = Some (w', (rs, None)) ->
  walked web timeout w0 url0 rs w'.
Proof.
  induction fuel as [|fuel IH]; intros w resp responses w' rs w0 url0 Hrun Hlast Hres.
  - destruct (loop_condition resp responses) eqn:Hcond.
    + cbn [HTTP.follow] in Hres. fold (loop_condition resp responses) in Hres.
      by rewrite Hcond in Hres.
    + rewrite follow_stop in Hres by done. by injection Hres as <- <-.
  - destruct (loop_condition resp responses) eqn:Hcond.
    + destruct (loop_condition_location _ _ Hcond) as [location Hloc].
      rewrite (follow_step fuel _ _ _ _ Hcond Hloc) in Hres.
      destruct (HTTP.urljoin web _ location) as [next_url|e0] eqn:Hjoin; [|discriminate].
      destruct (HTTP.get web w next_url timeout) as [w1 [resp1|e]] eqn:Hget; [|discriminate].
      eapply IH; [|by apply last_snoc|exact Hres].
      eapply walked_snoc; [done..| by eapply loop_condition_redirect |done|done|done].
    + rewrite follow_stop in Hres by done. by injection Hres as <- <-.
Qed.

(** Where an error of the loop comes from. *)
Lemma follow_failed fuel : forall w resp responses w' rs e w0 url0,
  walked web timeout w0 url0 responses w ->
  last responses = Some resp ->
  HTTP.follow web fuel w resp responses timeout = Some (w', (rs, Some e)) ->
  exists run w1 final_resp location,
    walked web timeout w0 url0 run w1 /\ last run = Some final_resp /\
    HTTP.is_redirect (HTTP.resp_status_code final_resp) = true /\
    HTTP.headers_get "location" (HTTP.resp_headers final_resp) = Some location /\
    (length run < HTTP.max_redirects)%nat /\
    (HTTP.urljoin web (HTTP.resp_url final_resp) location = Raise e /\ w' = w1
     \/ exists next_url,
          HTTP.urljoin web (HTTP.resp_url final_resp) location = Ok next_url /\
          HTTP.get web w1 next_url timeout = (w', Raise e)).
Proof.
  induction fuel as [|fuel IH]; intros w resp responses w' rs e w0 url0 Hrun Hlast Hres.
  - destruct (loop_condition resp responses) eqn:Hcond.
    + cbn [HTTP.follow] in Hres. fold (loop_condition resp responses) in Hres.
      by rewrite Hcond in Hres.
    + rewrite follow_stop in Hres by done. discriminate.
  - destruct (loop_condition resp responses) eqn:Hcond.
    + destruct (loop_condition_location _ _ Hcond) as [location Hloc].
      pose proof (loop_condition_redirect _ _ Hcond) as Hredirect.
      pose proof (loop_condition_bound _ _ Hcond) as Hlen.
      rewrite (follow_step fuel _ _ _ _ Hcond Hloc) in Hres.
      destruct (HTTP.urljoin web _ location) as [next_url|e0] eqn:Hjoin.
      * destruct (HTTP.get web w next_url timeout) as [w1 [resp1|e1]] eqn:Hget.
        -- eapply IH; [|by apply last_snoc|exact Hres]. by eapply walked_snoc.
        -- injection Hres as <- _ <-. exists responses, w, resp, location.
           do 5 (split; [done|]). right. by exists next_url.
      * injection Hres as <- _ <-. exists responses, w, resp, location.
        do 5 (split; [done|]). by left.
    + rewrite follow_stop in Hres by done. discriminate.
Qed.

(** A chain handed back without error is the walk that completes. *)
Lemma fetch_url_walked w url w' rs :
  HTTP.fetch_url web w url timeout = (w', (rs, None)) ->
  walk_completes web timeout w url rs w'.
Proof.
  intros Hfetch.
  pose proof (fetch_url_cases w url) as Hcases. rewrite Hfetch in Hcases.
  destruct Hcases
    as [[[? ?] _] | (_ & (w1 & first & more & Hget & ->) & (final & Hlast & Hcond) & Hlen)];
    [done|].
  split; [|split; [done|]].
  - pose proof (fetch_url_fuel_enough HTTP.max_redirects w url (le_n _)) as H.
    rewrite Hfetch in H. unfold HTTP.fetch_url_fuel in H. rewrite Hget in H.
    exact (follow_walked _ w1 first [first] w' _ w url (walked_last _ _ _ _ _ _ Hget)
             eq_refl H).
  - exists final. split; [done|]. unfold loop_condition in Hcond.
    apply andb_false_iff in Hcond as [[Hred | Hloc]%andb_false_iff | Hfull].
    + by left.
    + right. left. unfold HTTP.headers_contains in Hloc.
      apply bool_decide_eq_false in Hloc.
      destruct (HTTP.headers_get "location" _); [|done]. by destruct Hloc.
    + right. right. apply bool_decide_eq_false in Hfull. lia.
Qed.

(** An error handed back is the exception of the step that failed. *)
Lemma fetch_url_failed w url w' rs e :
  HTTP.fetch_url web w url timeout = (w', (rs, Some e)) ->
  walk_fails web timeout w url w' e.
Proof.
  intros Hfetch.
  pose proof (fetch_url_fuel_enough HTTP.max_redirects w url (le_n _)) as H.
  rewrite Hfetch in H. unfold HTTP.fetch_url_fuel in H.
  destruct (HTTP.get web w url timeout) as [w1 [first|e1]] eqn:Hget.
  - right.
    exact (follow_failed _ w1 first [first] w' rs e w url
             (walked_last _ _ _ _ _ _ Hget) eq_refl H).
  - left. by injection H as <- _ <-.
Qed.

(** A walk that completes is what [fetch_url] hands back. *)
Lemma walk_completes_fetched w url rs w' :
  walk_completes web timeout w url rs w' ->
  HTTP.fetch_url web w url timeout = (w', (rs, None)).
Proof.
  intros (Hrun & Hlen & final & Hlast & Hstop).
  destruct rs as [|first more]; [done|].
  pose proof (fetch_url_fuel_enough (length more + HTTP.max_redirects) w url) as H.
  rewrite (fetch_url_along w url first more w' HTTP.max_redirects Hrun Hlen) in H.
  rewrite follow_stop in H; [symmetry; apply (inj Some), H; lia|].
  assert (Hfinal : default first (last more) = final).
  { by rewrite <- (last_cons_default first first more), Hlast. }
  rewrite Hfinal. unfold loop_condition.
  destruct Hstop as [-> | [Hloc | Hfull]]; [done| |].
  - unfold HTTP.headers_contains. rewrite Hloc.
    rewrite (bool_decide_eq_false_2 (is_Some None)) by (by intros [? ?]).
    by rewrite andb_false_r.
  - rewrite bool_decide_eq_false_2; [by rewrite andb_false_r | lia].
Qed.

(** A walk in which a step fails makes [fetch_url] hand back that
    exception and nothing else. *)
Lemma walk_fails_fetched w url w' e :
  walk_fails web timeout w url w' e ->
  HTTP.fetch_url web w url timeout = (w', ([], Some e)).
Proof.
  intros [Hget | (run & w1 & final & location & Hrun & Hlast & Hredirect & Hloc & Hlen & Hstep)].
  - pose proof (fetch_url_fuel_enough HTTP.max_redirects w url (le_n _)) as H.
    unfold HTTP.fetch_url_fuel in H. rewrite Hget in H. by injection H.
  - destruct run as [|first more]; [done|].
    pose proof (fetch_url_fuel_enough (length more + HTTP.max_redirects) w url) as H.
    rewrite (fetch_url_along w url first more w1 HTTP.max_redirects Hrun) in H
      by (cbn [length] in *; lia).
    assert (Hfinal : default first (last more) = final).
    { by rewrite <- (last_cons_default first first more), Hlast. }
    specialize (H ltac:(lia)). rewrite Hfinal in H.
    change (HTTP.follow web HTTP.max_redirects) with (HTTP.follow web (S 9)) in H.
    rewrite (follow_step _ _ _ _ location) in H;
      [|by apply (loop_condition_true _ _ location)|done].
    destruct Hstep as [[Hjoin ->] | (next_url & Hjoin & Hget)].
    + rewrite Hjoin in H. by injection H.
    + rewrite Hjoin, Hget in H. by injection H.
Qed.

End Walk.

Section Probe.
Context (web : HTTP.Web) (timeout : HTTP.Timeout web).

Lemma redirecting_prefix rs1 : forall rs2 w url w2,
  redirecting web timeout w url (rs1 ++ rs2) w2 ->
  exists w1, redirecting web timeout w url rs1 w1.
Proof.
  induction rs1 as [|resp rs1 IH]; intros rs2 w url w2 Hrun.
  - exists w. constructor.
  - inversion Hrun as [|? ? w1 ? location next_url ? ? Hget Hredirect Hloc Hjoin Hrun1]; subst.
    destruct (IH _ _ _ _ Hrun1) as [w1' Hrun1'].
    exists w1'. by econstructor.
Qed.

Lemma redirecting_last rs : forall w url w2 final,
  redirecting web timeout w url rs w2 -> last rs = Some final ->
  HTTP.is_redirect (HTTP.resp_status_code final) = true /\
  is_Some (HTTP.headers_get "location" (HTTP.resp_headers final)).
Proof.
  induction rs as [|resp rs IH]; intros w url w2 final Hrun Hlast; [done|].
  inversion Hrun as [|? ? w1 ? location next_url ? ? Hget Hredirect Hloc Hjoin Hrun1]; subst.
  destruct rs as [|resp' rs'].
  - injection Hlast as <-. by rewrite Hloc.
  - by apply (IH _ _ _ _ Hrun1).
Qed.

(** A run of redirects no longer than the bound is followed to its end;
    what happens next is up to the loop at the last response. *)
Lemma fetch_url_redirecting w url first more w2 fuel :
  redirecting web timeout w url (first :: more) w2 ->
  (length (first :: more) <= HTTP.max_redirects)%nat ->
  HTTP.fetch_url_fuel web (length more + fuel) w url timeout
  = HTTP.follow web fuel w2 (default first (last more)) (first :: more) timeout.
Proof.
  intros Hrun Hlen. apply fetch_url_along; [|done].
  by apply redirecting_walked.
Qed.

(** The URLs of a fetched chain parse, so that [analyse_target] builds its
    record from the chain. *)
Lemma analyse_target_fetched w raw url w' rs first_resp final_resp :
  HTTP.normalize_url web raw = Ok url ->
  HTTP.fetch_url web w url timeout = (w', (rs, None)) ->
  head rs = Some first_resp -> last rs = Some final_resp ->
  exists first_scheme final_scheme,
    HTTP.urlparse_scheme web (HTTP.resp_url first_resp) = Ok first_scheme /\
    HTTP.urlparse_scheme web (HTTP.resp_url final_resp) = Ok final_scheme /\
    HTTP.analyse_target web w raw timeout
    = (w', Ok (site_record url rs first_scheme final_scheme final_resp)).
Proof.
  intros Hnorm Hfetch Hhead Hlast.
  destruct (fetch_url_walked web timeout _ _ _ _ Hfetch) as [Hrun _].
  destruct (walked_parses web timeout _ _ _ _ Hrun first_resp) as [first_scheme Hfirst].
  { destruct rs; [done|]. injection Hhead as ->. apply elem_of_cons. by left. }
  destruct (walked_parses web timeout _ _ _ _ Hrun final_resp) as [final_scheme Hfinal].
  { apply last_Some in Hlast as [rs' ->]. apply elem_of_app. right. by apply list_elem_of_singleton. }
  exists first_scheme, final_scheme. do 2 (split; [done|]).
  unfold HTTP.analyse_target. rewrite Hnorm, Hfetch.
  rewrite (bool_decide_eq_false_2 (is_Some None)) by (by intros [? ?]).
  rewrite (bool_decide_eq_false_2 (rs = [])) by (by intros ->).
  cbn [orb]. rewrite Hhead, Hlast, Hfirst, Hfinal. unfold site_record, headers_checked.
  by destruct (if negb _ then _ else _) as [[? ?] ?].
Qed.

Lemma analyse_target_failed w raw url w' rs e :
  HTTP.normalize_url web raw = Ok url ->
  HTTP.fetch_url web w url timeout = (w', (rs, Some e)) ->
  HTTP.analyse_target web w raw timeout = (w', Ok (site_error url e)).
Proof.
  intros Hnorm Hfetch. unfold HTTP.analyse_target. rewrite Hnorm, Hfetch.
  by rewrite (bool_decide_eq_true_2 (is_Some (Some e))).
Qed.

(** Every way [analyse_target] can hand back a record. *)
Lemma analyse_target_cases w raw w' r :
  HTTP.analyse_target web w raw timeout = (w', Ok r) ->
  exists url rs,
    HTTP.normalize_url web raw = Ok url /\
    ((exists e, HTTP.fetch_url web w url timeout = (w', (rs, Some e)) /\
                rs = [] /\ r = site_error url e)
     \/ (exists w1 first_resp final_resp,
           HTTP.fetch_url web w url timeout = (w', (rs, None)) /\
           HTTP.get web w url timeout = (w1, Ok first_resp) /\
           head rs = Some first_resp /\ last rs = Some final_resp /\
           loop_condition final_resp rs = false /\
           (length rs <= HTTP.max_redirects)%nat /\
           exists first_scheme final_scheme,
             HTTP.urlparse_scheme web (HTTP.resp_url first_resp) = Ok first_scheme /\
             HTTP.urlparse_scheme web (HTTP.resp_url final_resp) = Ok final_scheme /\
             r = site_record url rs first_scheme final_scheme final_resp)).
Proof.
  intros Hrun.
  destruct (HTTP.normalize_url web raw) as [url|e] eqn:Hnorm;
    [|unfold HTTP.analyse_target in Hrun; rewrite Hnorm in Hrun; discriminate].
  pose proof (fetch_url_cases web timeout w url) as Hcases.
  destruct (HTTP.fetch_url web w url timeout) as [w1 [rs err]] eqn:Hfetch.
  exists url, rs. split; [done|].
  destruct Hcases
    as [[[e ->] ->] | (-> & (w0 & first & more & Hget & ->) & (final & Hlast & Hcond) & Hlen)].
  - rewrite (analyse_target_failed w raw url w1 [] e Hnorm Hfetch) in Hrun.
    injection Hrun as <- <-. left. by exists e.
  - destruct (analyse_target_fetched w raw url w1 _ first final Hnorm Hfetch eq_refl Hlast)
      as (first_scheme & final_scheme & Hfirst & Hfinal & Hrec).
    rewrite Hrec in Hrun. injection Hrun as <- <-. right.
    exists w0, first, final. do 6 (split; [done|]). by exists first_scheme, final_scheme.
Qed.

End Probe.

(** C1, as the specification words it, on a server that answers the first
    request with a redirect and lets the second request time out: the first
    request succeeded, and the chain handed back is empty. *)
Lemma C1_later_failure_empties_chain :
  let w := [Script.found "https://site.example/login"; Script.timed_out] in
  (exists w1 first_resp,
     HTTP.get Script.web w "https://site.example/" 10 = (w1, Ok first_resp))
  /\ (HTTP.fetch_url Script.web w "https://site.example/" 10).2.1 = [].
Proof. split; [by eexists _, _ | vm_compute; reflexivity]. Qed.

(** C1 (amended): the chain [fetch_url] hands back is empty exactly when the
    walk failed, that is when [error] is set.  The error is the exception
    of the step that raised: the first request, or, after fewer than ten
    responses of which the last is a 3xx with a [Location], the resolution
    of that [Location] or the request of the resolved URL; whichever step
    raises, the chain handed back is empty, the responses collected before
    it being dropped.  A walk in which no step raises is handed back
    without error and in full: the chain then starts with the response to
    the first request. *)
Theorem C1_chain_empty_iff_failed web timeout w url w' rs err :
  HTTP.fetch_url web w url timeout = (w', (rs, err)) ->
  (rs = [] <-> is_Some err)
  /\ (forall e, err = Some e -> walk_fails web timeout w url w' e)
  /\ (forall w_end e,
        walk_fails web timeout w url w_end e -> rs = [] /\ err = Some e /\ w' = w_end)
  /\ (forall run w_end,
        walk_completes web timeout w url run w_end -> rs = run /\ err = None /\ w' = w_end)
  /\ (err = None ->
      walk_completes web timeout w url rs w' /\
      exists w1 first_resp,
        HTTP.get web w url timeout = (w1, Ok first_resp) /\ head rs = Some first_resp).
Proof.
  intros Hfetch. pose proof (fetch_url_cases web timeout w url) as Hcases.
  rewrite Hfetch in Hcases. split; [|split; [|split; [|split]]].
  - destruct Hcases as [[Herr ->] | (-> & (w1 & first & more & _ & ->) & _)].
    + done.
    + split; [done | by intros [? ?]].
  - intros e ->. by apply (fetch_url_failed web timeout w url w' rs).
  - intros w_end e Hfails. apply walk_fails_fetched in Hfails.
    rewrite Hfetch in Hfails. by injection Hfails as -> -> ->.
  - intros run w_end Hrun. apply walk_completes_fetched in Hrun.
    rewrite Hfetch in Hrun. by injection Hrun as -> -> ->.
  - intros ->. split; [by apply fetch_url_walked|].
    destruct Hcases as [[[? ?] _] | (_ & (w1 & first & more & Hget & ->) & _)];
      [done|]. by exists w1, first.
Qed.

Lemma C1_chain_empty_iff_failed_witness :
  let w := [Script.found "//[x"; Script.page []] in
  HTTP.fetch_url Script.web w "https://site.example/" 10
    = ([Script.page []], ([], Some (ValueError "Invalid IPv6 URL")))
  /\ (@nil HTTP.Response = [] <-> is_Some (Some (ValueError "Invalid IPv6 URL"))).
Proof.
  intros w.
  assert (H : HTTP.fetch_url Script.web w "https://site.example/" 10
              = ([Script.page []], ([], Some (ValueError "Invalid IPv6 URL"))))
    by (vm_compute; reflexivity).
  split; [exact H|].
  exact (proj1 (C1_chain_empty_iff_failed Script.web 10 _ _ _ _ _ H)).
Defined.

(** A walk without a failing step, and the chain it gives. *)
Example walk_without_failure :
  let w := [Script.found "https://site.example/login"; Script.page []] in
  let first_resp :=
    HTTP.mkResponse "https://site.example/" 302 [("Location", "https://site.example/login")] in
  let final_resp := HTTP.mkResponse "https://site.example/login" 200 [] in
  walk_completes Script.web 10 w "https://site.example/" [first_resp; final_resp] []
  /\ HTTP.fetch_url Script.web w "https://site.example/" 10
     = ([], ([first_resp; final_resp], None)).
Proof.
  intros w first_resp final_resp.
  assert (Hrun : walk_completes Script.web 10 w "https://site.example/"
                   [first_resp; final_resp] []).
  { split; [|split].
    - eapply (walked_cons Script.web 10 _ _ _ _ "https://site.example/login");
        [reflexivity..|]. by apply walked_last.
    - unfold HTTP.max_redirects. cbn [length]. lia.
    - exists final_resp. split; [done | by left]. }
  split; [exact Hrun | by apply walk_completes_fetched].
Qed.

(** C6: on a chain that was fetched without error, [https_downgrade] is true
    exactly when the scheme of the first request's URL, read from the
    response to that request ([responses[0].url]), is [https] and the scheme
    of the last response's URL is [http].  The responses in between play no
    part: with [https] at both ends the flag is false. *)
Theorem C6_https_downgrade_spec web timeout w raw w' r :
  HTTP.analyse_target web w raw timeout = (w', Ok r) ->
  HTTP.error r = None ->
  exists url rs w1 first_resp final_resp,
    HTTP.normalize_url web raw = Ok url /\
    HTTP.fetch_url web w url timeout = (w', (rs, None)) /\
    HTTP.get web w url timeout = (w1, Ok first_resp) /\
    head rs = Some first_resp /\ last rs = Some final_resp /\
    HTTP.final_url r = Some (HTTP.resp_url final_resp) /\
    (HTTP.https_downgrade r = true
     <-> HTTP.urlparse_scheme web (HTTP.resp_url first_resp) = Ok "https" /\
         HTTP.urlparse_scheme web (HTTP.resp_url final_resp) = Ok "http") /\
    (HTTP.urlparse_scheme web (HTTP.resp_url first_resp) = Ok "https" ->
     HTTP.urlparse_scheme web (HTTP.resp_url final_resp) = Ok "https" ->
     HTTP.https_downgrade r = false).
Proof.
  intros Hrun Herr.
  destruct (analyse_target_cases web timeout w raw w' r Hrun)
    as (url & rs & Hnorm &
        [(e & _ & _ & ->)
        | (w1 & first & final & Hfetch & Hget & Hhead & Hlast & _ & _ &
           first_scheme & final_scheme & Hfirst & Hfinal & ->)]);
    [discriminate Herr|].
  exists url, rs, w1, first, final. do 5 (split; [done|]). split; [done|].
  cbn [site_record HTTP.https_downgrade]. rewrite Hfirst, Hfinal. split.
  - rewrite andb_true_iff, !String.eqb_eq.
    split; [by intros [-> ->] | by intros [[= ->] [= ->]]].
  - by intros [= ->] [= ->].
Qed.

(** C9: the loop of [fetch_url] takes no further turn at a 3xx response
    without a [Location] header, and a chain that ends in such a response is
    reported as a success: [error] is unset, the 3xx response gives
    [final_url] and [status_code], and no header is evaluated, so that the
    missing-header lists and the findings are empty. *)
Theorem C9_redirect_without_location web timeout w raw url w' rs final_resp :
  HTTP.normalize_url web raw = Ok url ->
  HTTP.fetch_url web w url timeout = (w', (rs, None)) ->
  last rs = Some final_resp ->
  HTTP.is_redirect (HTTP.resp_status_code final_resp) = true ->
  HTTP.headers_contains "location" (HTTP.resp_headers final_resp) = false ->
  (forall fuel w0 responses,
     HTTP.follow web fuel w0 final_resp responses timeout = Some (w0, (responses, None)))
  /\ exists r,
       HTTP.analyse_target web w raw timeout = (w', Ok r) /\
       HTTP.error r = None /\
       HTTP.final_url r = Some (HTTP.resp_url final_resp) /\
       HTTP.status_code r = Some (HTTP.resp_status_code final_resp) /\
       HTTP.missing_required_headers r = "" /\
       HTTP.missing_optional_headers r = "" /\
       HTTP.header_findings r = "".
Proof.
  intros Hnorm Hfetch Hlast Hredirect Hloc. split.
  - intros fuel w0 responses. apply follow_stop. unfold loop_condition.
    by rewrite Hredirect, Hloc.
  - pose proof (fetch_url_cases web timeout w url) as Hcases. rewrite Hfetch in Hcases.
    destruct Hcases as [[[? ?] _] | (_ & (w1 & first & more & _ & ->) & _)]; [done|].
    destruct (analyse_target_fetched web timeout w raw url w' _ first final_resp
                Hnorm Hfetch eq_refl Hlast)
      as (first_scheme & final_scheme & _ & _ & Hrec).
    exists (site_record url (first :: more) first_scheme final_scheme final_resp).
    split; [done|].
    cbn [site_record HTTP.error HTTP.final_url HTTP.status_code
         HTTP.missing_required_headers HTTP.missing_optional_headers HTTP.header_findings].
    unfold headers_checked. rewrite Hredirect. done.
Qed.

(** C4: when the server keeps answering 3xx with a [Location] for more
    requests than the bound (twelve, say), [fetch_url] stops after the tenth
    response: ten requests are issued, the chain is the first ten responses,
    no error is set, and [analyse_target] reports the tenth response as the
    final one without evaluating any header. *)
Theorem C4_redirect_bound web timeout w raw url rs w_end :
  HTTP.normalize_url web raw = Ok url ->
  redirecting web timeout w url rs w_end ->
  (HTTP.max_redirects < length rs)%nat ->
  exists w10 tenth r,
    redirecting web timeout w url (take 10 rs) w10 /\
    rs !! 9%nat = Some tenth /\
    HTTP.fetch_url web w url timeout = (w10, (take 10 rs, None)) /\
    HTTP.analyse_target web w raw timeout = (w10, Ok r) /\
    HTTP.error r = None /\
    HTTP.final_url r = Some (HTTP.resp_url tenth) /\
    HTTP.status_code r = Some (HTTP.resp_status_code tenth) /\
    HTTP.redirect_chain r = Py.join " -> " (map HTTP.resp_url (take 10 rs)) /\
    HTTP.missing_required_headers r = "" /\
    HTTP.missing_optional_headers r = "" /\
    HTTP.header_findings r = "".
Proof.
  intros Hnorm Hrun Hlen. unfold HTTP.max_redirects in Hlen.
  rewrite <- (take_drop 10 rs) in Hrun.
  destruct (redirecting_prefix web timeout _ _ _ _ _ Hrun) as [w10 Hrun10].
  assert (Hlen10 : length (take 10 rs) = 10%nat) by (rewrite length_take; lia).
  destruct (take 10 rs) as [|first more] eqn:Htake; [done|].
  assert (is_Some (last (first :: more))) as [tenth Hlast] by (by apply last_is_Some).
  assert (Htenth : rs !! 9%nat = Some tenth).
  { rewrite <- (lookup_take_lt rs 10 9) by lia. rewrite Htake.
    rewrite last_lookup in Hlast. by rewrite Hlen10 in Hlast. }
  assert (Hfetch : HTTP.fetch_url web w url timeout = (w10, (first :: more, None))).
  { pose proof (fetch_url_fuel_enough web timeout (length more + 1) w url) as H.
    rewrite (fetch_url_redirecting web timeout w url first more w10) in H;
      [|done| unfold HTTP.max_redirects; lia].
    rewrite follow_stop in H.
    - cbn [length] in Hlen10. unfold HTTP.max_redirects in H.
      specialize (H ltac:(lia)). by injection H as <-.
    - unfold loop_condition. rewrite bool_decide_eq_false_2; [by rewrite andb_false_r|].
      unfold HTTP.max_redirects. lia. }
  destruct (redirecting_last web timeout _ _ _ _ _ Hrun10 Hlast) as [Hredirect _].
  destruct (analyse_target_fetched web timeout w raw url w10 _ first tenth
              Hnorm Hfetch eq_refl Hlast)
    as (first_scheme & final_scheme & _ & _ & Hrec).
  exists w10, tenth, (site_record url (first :: more) first_scheme final_scheme tenth).
  split; [done|]. split; [done|]. split; [done|].
  split; [done|].
  cbn [site_record HTTP.error HTTP.final_url HTTP.status_code HTTP.redirect_chain
       HTTP.missing_required_headers HTTP.missing_optional_headers HTTP.header_findings].
  unfold headers_checked. rewrite Hredirect. done.
Qed.

Lemma C6_https_downgrade_spec_witness :
  let w := [Script.found "http://site.example/"; Script.page []] in
  let res := HTTP.analyse_target Script.web w "https://site.example/" 10 in
  let r := match res.2 with Ok r => r | Raise e => site_error "" e end in
  (res = ([], Ok r) /\ HTTP.error r = None)
  /\ HTTP.https_downgrade r = true.
Proof.
  intros w res r.
  assert (Hres : res = ([], Ok r)) by (vm_compute; reflexivity).
  assert (Herr : HTTP.error r = None) by (vm_compute; reflexivity).
  split; [by split|].
  destruct (C6_https_downgrade_spec Script.web 10 w "https://site.example/" [] r Hres Herr)
    as (url & rs & w1 & first_resp & final_resp & _).
  vm_compute. reflexivity.
Defined.

Lemma C9_redirect_without_location_witness :
  let w := [Script.found "https://site.example/moved"; Ok (301, [])] in
  let final_resp := HTTP.mkResponse "https://site.example/moved" 301 [] in
  let res := HTTP.analyse_target Script.web w "site.example/" 10 in
  (HTTP.normalize_url Script.web "site.example/" = Ok "https://site.example/" /\
   last (HTTP.fetch_url Script.web w "https://site.example/" 10).2.1 = Some final_resp)
  /\ exists r, res = ([], Ok r) /\ HTTP.error r = None /\
               HTTP.status_code r = Some 301 /\ HTTP.header_findings r = "".
Proof.
  intros w final_resp res.
  split; [split; vm_compute; reflexivity|].
  destruct (C9_redirect_without_location Script.web 10 w "site.example/"
              "https://site.example/" []
              [HTTP.mkResponse "https://site.example/" 302
                 [("Location", "https://site.example/moved")]; final_resp]
              final_resp)
    as [_ (r & Hr & Herr & _ & Hstatus & _ & _ & Hfindings)];
    [vm_compute; reflexivity..|].
  by exists r.
Defined.

Lemma C4_redirect_bound_witness :
  let rs := replicate 12 (HTTP.mkResponse "https://site.example/" 302
                            [("Location", "https://site.example/")]) in
  (HTTP.normalize_url Script.web "https://site.example/" = Ok "https://site.example/" /\
   redirecting Script.web 10 Script.twelve_redirects "https://site.example/" rs [] /\
   (HTTP.max_redirects < length rs)%nat)
  /\ exists r,
       (HTTP.analyse_target Script.web Script.twelve_redirects "https://site.example/" 10).2
         = Ok r /\
       HTTP.error r = None /\ HTTP.status_code r = Some 302 /\
       HTTP.header_findings r = "".
Proof.
  intros rs.
  assert (Hnorm : HTTP.normalize_url Script.web "https://site.example/"
                  = Ok "https://site.example/") by (vm_compute; reflexivity).
  assert (Hrun : redirecting Script.web 10 Script.twelve_redirects
                   "https://site.example/" rs []).
  { do 12 (eapply (redirecting_cons Script.web 10 _ _ _ _ "https://site.example/");
           [reflexivity | reflexivity | vm_compute; reflexivity | reflexivity |]).
    apply redirecting_nil. }
  assert (Hlen : (HTTP.max_redirects < length rs)%nat) by (vm_compute; lia).
  split; [done|].
  destruct (C4_redirect_bound Script.web 10 Script.twelve_redirects
              "https://site.example/" "https://site.example/" rs [] Hnorm Hrun Hlen)
    as (w10 & tenth & r & _ & Htenth & _ & Hr & Herr & _ & Hstatus & _ & _ & _ & Hfindings).
  exists r. rewrite Hr. injection Htenth as <-. by repeat split.
Defined.

(** ** The header checks *)

Lemma lower_app s t : Py.lower (s +:+ t) = Py.lower s +:+ Py.lower t.
Proof. induction s as [|c s IH]; [done|]. rewrite app_cons. simpl. by rewrite IH. Qed.

Lemma substring_trans p q s : substring p q -> substring q s -> substring p s.
Proof.
  intros (a & b & ->) (c & d & ->). exists (c +:+ a), (b +:+ d).
  by rewrite !app_assoc'.
Qed.

Lemma lstrip_suffix s : exists pre, s = pre +:+ Py.lstrip s.
Proof.
  induction s as [|c s [pre IH]]; [by exists ""|]. cbn [Py.lstrip].
  destruct (Py.isspace c); [|by exists ""].
  exists (String c pre). by rewrite app_cons, <- IH.
Qed.

Lemma rstrip_prefix s : exists post, s = Py.rstrip s +:+ post.
Proof.
  induction s as [|c s [post IH]]; [by exists ""|]. cbn [Py.rstrip].
  destruct (Py.rstrip s) as [|c' s'] eqn:Hr.
  - destruct (Py.isspace c); [by exists (String c s)|].
    exists post. by rewrite app_cons, IH.
  - exists post. by rewrite app_cons, <- IH.
Qed.

Lemma strip_substring s : substring (Py.strip s) s.
Proof.
  unfold Py.strip. destruct (lstrip_suffix s) as [pre Hpre].
  destruct (rstrip_prefix (Py.lstrip s)) as [post Hpost].
  exists pre, post. by rewrite <- Hpost.
Qed.

Lemma split_head sep s :
  exists h t post, Py.split sep s = h :: t /\ s = h +:+ post.
Proof.
  induction s as [|c s (h & t & post & IH & Hs)]; [by exists "", [], ""|].
  cbn [Py.split]. destruct (Ascii.eqb c sep).
  - by exists "", (Py.split sep s), (String c s).
  - rewrite IH. exists (String c h), t, post. by rewrite app_cons, <- Hs.
Qed.

Lemma split_parts sep s p : p ∈ Py.split sep s -> substring p s.
Proof.
  induction s as [|c s IH].
  - intros ->%list_elem_of_singleton. by exists "", "".
  - cbn [Py.split]. destruct (Ascii.eqb c sep).
    + intros [-> | Hp]%elem_of_cons; [by exists "", (String c s)|].
      destruct (IH Hp) as (pre & post & ->). by exists (String c pre), post.
    + destruct (split_head sep s) as (h & t & post & Hsplit & Hs).
      rewrite Hsplit in IH |- *.
      intros [-> | Hp]%elem_of_cons.
      * exists "", post. by rewrite app_empty_l, app_cons, <- Hs.
      * destruct (IH ltac:(by right)) as (pre & post' & ->).
        by exists (String c pre), post'.
Qed.

Lemma split1_cut sep name value :
  Py.contains (String sep "") name = false ->
  Py.split1 sep (name +:+ String sep value) = [name; value].
Proof.
  induction name as [|c name IH]; intros Hname.
  - rewrite app_empty_l. cbn [Py.split1]. by rewrite Ascii.eqb_refl.
  - rewrite contains_char_cons in Hname. apply orb_false_elim in Hname as [Hc Hname].
    rewrite app_cons. cbn [Py.split1]. rewrite (Ascii.eqb_sym c sep).
    destruct (Ascii.eqb sep c); [done|]. by rewrite (IH Hname).
Qed.

(** A header with an unparsable max-age directive does mention max-age. *)
Lemma unparsable_mentions_max_age hsts :
  unparsable_max_age hsts -> Py.contains "max-age" (Py.lower hsts) = true.
Proof.
  intros (name & value & Hhead & _ & _).
  apply head_Some_elem_of, list_elem_of_filter in Hhead as [Hstart Hin].
  apply list_elem_of_fmap in Hin as (part & Hd & Hpart).
  apply Is_true_true, startswith_spec in Hstart as [rest Hrest].
  assert (Hsub : substring (name +:+ "=" +:+ value) hsts).
  { rewrite Hd. eapply substring_trans; [apply strip_substring | by eapply split_parts]. }
  destruct Hsub as (pre & post & ->). apply contains_spec.
  exists (Py.lower pre), (rest +:+ Py.lower post).
  by rewrite (lower_app pre), (lower_app _ post), Hrest, !app_assoc'.
Qed.

Lemma check_hsts_unparsable headers hsts findings :
  headers !! "strict-transport-security" = Some hsts ->
  unparsable_max_age hsts ->
  HTTP.check_hsts headers findings = findings ++ ["Could not parse HSTS max-age"].
Proof.
  intros Hget Hbad. pose proof (unparsable_mentions_max_age hsts Hbad) as Hmention.
  destruct Hbad as (name & value & Hhead & Hname & Hint).
  unfold HTTP.check_hsts. rewrite Hget.
  assert (Htruthy : Py.truthy (Some hsts) = true).
  { destruct hsts; [discriminate Hmention | done]. }
  rewrite Htruthy. cbn [default from_option id]. rewrite Hmention. cbn [negb].
  rewrite Hhead. cbn [default from_option id].
  assert (Heq : Py.contains "=" (name +:+ "=" +:+ value) = true).
  { apply contains_spec. by exists name, value. }
  pose proof (split1_cut "=" name value Hname) as Hcut.
  change (String "=" value) with ("=" +:+ value) in Hcut.
  by rewrite Heq, Hcut, Hint.
Qed.

(** Each later block only appends to the findings it is given. *)
Lemma check_csp_app headers findings :
  HTTP.check_csp headers findings = findings ++ HTTP.check_csp headers [].
Proof. unfold HTTP.check_csp. destruct (negb _); by rewrite ?app_nil_r. Qed.

Lemma check_xcto_app headers findings :
  HTTP.check_xcto headers findings = findings ++ HTTP.check_xcto headers [].
Proof.
  unfold HTTP.check_xcto. destruct (negb (Py.truthy _)); [done|].
  destruct (negb _); by rewrite ?app_nil_r.
Qed.

Lemma check_xfo_app headers findings :
  HTTP.check_xfo headers findings = findings ++ HTTP.check_xfo headers [].
Proof.
  unfold HTTP.check_xfo. destruct (negb (Py.truthy _)); [done|].
  destruct (negb _); by rewrite ?app_nil_r.
Qed.

Lemma check_referrer_app headers findings :
  HTTP.check_referrer headers findings = findings ++ HTTP.check_referrer headers [].
Proof.
  unfold HTTP.check_referrer. destruct (negb (Py.truthy _)); [done|].
  destruct (bool_decide _); by rewrite ?app_nil_r.
Qed.

Lemma check_permissions_app headers findings :
  HTTP.check_permissions headers findings = findings ++ HTTP.check_permissions headers [].
Proof. unfold HTTP.check_permissions. destruct (negb _); by rewrite ?app_nil_r. Qed.

Lemma check_xxp_app headers findings :
  HTTP.check_xxp headers findings = findings ++ HTTP.check_xxp headers [].
Proof. unfold HTTP.check_xxp. destruct (Py.truthy _); by rewrite ?app_nil_r. Qed.

Lemma appends_compose (g h : list string -> list string) :
  appends g -> appends h -> appends (fun findings => h (g findings)).
Proof.
  intros Hg Hh findings. rewrite (Hh (g findings)), (Hh (g [])), (Hg findings).
  by rewrite app_assoc.
Qed.

Lemma other_checks_app headers : appends (other_checks headers).
Proof.
  unfold other_checks.
  apply (appends_compose _ (HTTP.check_xxp headers)); [|intros ?; apply check_xxp_app].
  apply (appends_compose _ (HTTP.check_permissions headers));
    [|intros ?; apply check_permissions_app].
  apply (appends_compose _ (HTTP.check_referrer headers));
    [|intros ?; apply check_referrer_app].
  apply (appends_compose _ (HTTP.check_xfo headers)); [|intros ?; apply check_xfo_app].
  apply (appends_compose _ (HTTP.check_xcto headers)); [|intros ?; apply check_xcto_app].
  intros ?. apply check_csp_app.
Qed.

Lemma findings_blocks resp :
  let headers := HTTP.lowercased (HTTP.resp_headers resp) in
  (HTTP.check_security_headers resp).2
  = HTTP.check_hsts headers [] ++ HTTP.check_csp headers [] ++ HTTP.check_xcto headers []
    ++ HTTP.check_xfo headers [] ++ HTTP.check_referrer headers []
    ++ HTTP.check_permissions headers [] ++ HTTP.check_xxp headers [].
Proof.
  intros headers. unfold HTTP.check_security_headers. fold headers. cbn [snd].
  rewrite (check_xxp_app headers (HTTP.check_permissions _ _)),
          (check_permissions_app headers (HTTP.check_referrer _ _)),
          (check_referrer_app headers (HTTP.check_xfo _ _)),
          (check_xfo_app headers (HTTP.check_xcto _ _)),
          (check_xcto_app headers (HTTP.check_csp _ _)),
          (check_csp_app headers (HTTP.check_hsts _ _)).
  by rewrite <- !app_assoc.
Qed.

(** *** What each block records *)

Lemma truthy_no_value headers h : Py.truthy (headers !! h) = false <-> no_value headers h.
Proof.
  unfold no_value. destruct (headers !! h) as [[|c v]|]; cbn [Py.truthy].
  - split; [by right | done].
  - split; [done | by intros [? | ?]].
  - split; [by left | done].
Qed.

Lemma truthy_has_value headers h :
  Py.truthy (headers !! h) = true <-> exists v, has_value headers h v.
Proof.
  unfold has_value. destruct (headers !! h) as [[|c v]|]; cbn [Py.truthy].
  - split; [done | by intros (v & [= <-] & ?)].
  - split; [by eexists | done].
  - split; [done | by intros (v & ? & _)].
Qed.

Lemma contains_char_first c s :
  Py.contains (String c "") s = true ->
  exists name value, s = name +:+ String c value /\ Py.contains (String c "") name = false.
Proof.
  induction s as [|d s IH]; [done|]. rewrite contains_char_cons.
  destruct (Ascii.eqb_spec c d) as [<- | Hne]; cbn [orb].
  - intros _. by exists "", s.
  - intros (name & value & -> & Hname)%IH. exists (String d name), value. split; [done|].
    rewrite contains_char_cons, Hname. by destruct (Ascii.eqb_spec c d).
Qed.

(** A value with a max-age directive does mention max-age. *)
Lemma max_age_directive_mentions hsts d :
  max_age_directive hsts = Some d -> Py.contains "max-age" (Py.lower hsts) = true.
Proof.
  intros Hhead.
  apply head_Some_elem_of, list_elem_of_filter in Hhead as [Hstart Hin].
  apply list_elem_of_fmap in Hin as (part & Hd & Hpart).
  apply Is_true_true, startswith_spec in Hstart as [rest Hrest].
  assert (Hsub : substring d hsts).
  { rewrite Hd. eapply substring_trans; [apply strip_substring | by eapply split_parts]. }
  destruct Hsub as (pre & post & ->). apply contains_spec.
  exists (Py.lower pre), (rest +:+ Py.lower post).
  by rewrite (lower_app pre), (lower_app _ post), Hrest, !app_assoc'.
Qed.

(** The HSTS block on a value that mentions max-age. *)
Lemma check_hsts_directive headers hsts findings :
  headers !! "strict-transport-security" = Some hsts ->
  Py.contains "max-age" (Py.lower hsts) = true ->
  HTTP.check_hsts headers findings
  = match max_age_directive hsts with
    | Some directive =>
        if Py.contains "=" directive then
          match directive_seconds directive with
          | Some seconds =>
              if seconds <? 15552000
              then findings ++ ["HSTS max-age < 6 months (consider increasing)"]
              else findings
          | None => findings ++ ["Could not parse HSTS max-age"]
          end
        else findings
    | None => findings
    end.
Proof.
  intros Hget Hmention. unfold HTTP.check_hsts. rewrite Hget.
  assert (Htruthy : Py.truthy (Some hsts) = true).
  { destruct hsts; [discriminate Hmention | done]. }
  rewrite Htruthy. cbn [default from_option id]. rewrite Hmention. cbn [negb]. cbv zeta.
  fold (max_age_directive hsts).
  destruct (max_age_directive hsts) as [directive|]; cbn [default from_option id]; [|done].
  destruct (Py.contains "=" directive) eqn:Heq; [|done].
  destruct (contains_char_first _ _ Heq) as (name & value & -> & Hname).
  unfold directive_seconds. by rewrite (split1_cut "=" name value Hname).
Qed.

Lemma check_hsts_expected headers note :
  note ∈ HTTP.check_hsts headers [] <-> hsts_note headers note.
Proof.
  unfold hsts_note.
  destruct (Py.truthy (headers !! "strict-transport-security")) eqn:Htruthy.
  - apply truthy_has_value in Htruthy as (hsts & Hget & Hne).
    assert (Hno : ~ no_value headers "strict-transport-security").
    { intros [H | H]; rewrite Hget in H; [done | by injection H]. }
    assert (Hthis : forall v, has_value headers "strict-transport-security" v -> v = hsts).
    { intros v [Hv _]. rewrite Hget in Hv. by injection Hv. }
    destruct (Py.contains "max-age" (Py.lower hsts)) eqn:Hmention.
    + rewrite (check_hsts_directive headers hsts [] Hget Hmention). cbn [app]. split.
      * intros Hin. right. exists hsts. split; [done|].
        destruct (max_age_directive hsts) as [directive|] eqn:Hdirective;
          [|by apply elem_of_nil in Hin].
        destruct (Py.contains "=" directive) eqn:Heq; [|by apply elem_of_nil in Hin].
        destruct (contains_char_first _ _ Heq) as (name & value & -> & Hname).
        unfold directive_seconds in Hin. rewrite (split1_cut "=" name value Hname) in Hin.
        destruct (Py.int value) as [seconds|] eqn:Hint.
        -- destruct (Z.ltb_spec seconds 15552000) as [Hlt | _];
             [|by apply elem_of_nil in Hin].
           apply list_elem_of_singleton in Hin as ->. right. left. split; [|done].
           by exists name, value, seconds.
        -- apply list_elem_of_singleton in Hin as ->. right. right. split; [|done].
           by exists name, value.
      * intros [[? _] | (v & Hv & Hcase)]; [done|]. apply Hthis in Hv as ->.
        destruct Hcase
          as [[? _] | [[(name & value & seconds & Hd & Hname & Hint & Hlt) ->]
                      | [(name & value & Hd & Hname & Hint) ->]]];
          [congruence | |].
        -- rewrite Hd. change ("=" +:+ value) with (String "=" value).
           assert (Heq : Py.contains "=" (name +:+ String "=" value) = true).
           { apply contains_spec. by exists name, value. }
           rewrite Heq. unfold directive_seconds.
           rewrite (split1_cut "=" name value Hname), Hint.
           rewrite (proj2 (Z.ltb_lt _ _) Hlt). by apply list_elem_of_singleton.
        -- fold (max_age_directive hsts) in Hd. rewrite Hd.
           change ("=" +:+ value) with (String "=" value).
           assert (Heq : Py.contains "=" (name +:+ String "=" value) = true).
           { apply contains_spec. by exists name, value. }
           rewrite Heq. unfold directive_seconds.
           rewrite (split1_cut "=" name value Hname), Hint.
           by apply list_elem_of_singleton.
    + unfold HTTP.check_hsts. rewrite Hget.
      assert (Ht : Py.truthy (Some hsts) = true) by (by destruct hsts).
      rewrite Ht. cbn [default from_option id].
      rewrite Hmention. cbn [negb app]. rewrite list_elem_of_singleton. split.
      * intros ->. right. exists hsts. split; [done|]. by left.
      * intros [[? _] | (v & Hv & Hcase)]; [done|]. apply Hthis in Hv as ->.
        destruct Hcase
          as [[_ ->] | [[(name & value & seconds & Hd & _) _] | [(name & value & Hd & _) _]]];
          [done | |];
          apply max_age_directive_mentions in Hd; congruence.
  - unfold HTTP.check_hsts. rewrite Htruthy. cbn [app]. rewrite list_elem_of_singleton.
    apply truthy_no_value in Htruthy. split.
    + intros ->. by left.
    + intros [[_ ->] | (v & [Hv Hne] & _)]; [done|].
      destruct Htruthy as [H | H]; rewrite Hv in H; [done | by injection H].
Qed.

Lemma check_csp_expected headers note :
  note ∈ HTTP.check_csp headers [] <-> csp_note headers note.
Proof.
  unfold csp_note, HTTP.check_csp. rewrite <- truthy_no_value.
  destruct (Py.truthy (headers !! "content-security-policy")); cbn [negb app].
  - rewrite elem_of_nil. split; [done | by intros [? _]].
  - rewrite list_elem_of_singleton. split; [done | by intros [_ ?]].
Qed.

Lemma check_permissions_expected headers note :
  note ∈ HTTP.check_permissions headers [] <-> permissions_note headers note.
Proof.
  unfold permissions_note, HTTP.check_permissions. rewrite <- truthy_no_value.
  destruct (Py.truthy (headers !! "permissions-policy")); cbn [negb app].
  - rewrite elem_of_nil. split; [done | by intros [? _]].
  - rewrite list_elem_of_singleton. split; [done | by intros [_ ?]].
Qed.

Lemma check_xxp_expected headers note :
  note ∈ HTTP.check_xxp headers [] <-> xxp_note headers note.
Proof.
  unfold xxp_note, HTTP.check_xxp.
  destruct (Py.truthy (headers !! "x-xss-protection")) eqn:Htruthy; cbn [app].
  - apply truthy_has_value in Htruthy as (xxp & Hget & Hne).
    rewrite Hget. cbn [default from_option id]. rewrite list_elem_of_singleton. split.
    + intros ->. by exists xxp.
    + intros (v & [Hv _] & ->). rewrite Hget in Hv. by injection Hv as <-.
  - rewrite elem_of_nil. split; [done|]. intros (v & Hv & _).
    assert (Py.truthy (headers !! "x-xss-protection") = true)
      by (apply truthy_has_value; by exists v).
    congruence.
Qed.

Lemma check_xcto_expected headers note :
  note ∈ HTTP.check_xcto headers [] <-> xcto_note headers note.
Proof.
  unfold xcto_note, HTTP.check_xcto.
  destruct (Py.truthy (headers !! "x-content-type-options")) eqn:Htruthy; cbn [negb app].
  - pose proof Htruthy as (xcto & Hget & Hne)%truthy_has_value.
    assert (Hno : ~ no_value headers "x-content-type-options").
    { intros H%truthy_no_value. congruence. }
    rewrite Hget. cbn [default from_option id].
    destruct (String.eqb_spec (Py.lower xcto) "nosniff") as [Heq | Hneq]; cbn [negb app].
    + rewrite elem_of_nil. split; [done|].
      intros [[? _] | (v & [Hv _] & Hlow & _)]; [done|].
      rewrite Hget in Hv. injection Hv as <-. done.
    + rewrite list_elem_of_singleton. split.
      * intros ->. right. by exists xcto.
      * intros [[? _] | (v & [Hv _] & _ & ->)]; [done|].
        rewrite Hget in Hv. by injection Hv as <-.
  - rewrite list_elem_of_singleton. pose proof Htruthy as Hno%truthy_no_value. split.
    + intros ->. by left.
    + intros [[_ ->] | (v & Hv & _)]; [done|].
      assert (Py.truthy (headers !! "x-content-type-options") = true)
        by (apply truthy_has_value; by exists v).
      congruence.
Qed.

Lemma check_xfo_expected headers note :
  note ∈ HTTP.check_xfo headers [] <-> xfo_note headers note.
Proof.
  unfold xfo_note, HTTP.check_xfo.
  destruct (Py.truthy (headers !! "x-frame-options")) eqn:Htruthy; cbn [negb app].
  - pose proof Htruthy as (xfo & Hget & Hne)%truthy_has_value.
    assert (Hno : ~ no_value headers "x-frame-options").
    { intros H%truthy_no_value. congruence. }
    rewrite Hget. cbn [default from_option id]. cbv zeta.
    destruct (decide (Py.lower xfo ∈ ["deny"; "sameorigin"])) as [Hin | Hout].
    + rewrite bool_decide_eq_true_2 by done. cbn [negb]. rewrite elem_of_nil.
      split; [done|].
      intros [[? _] | (v & [Hv _] & Hdeny & Hsame & _)]; [done|].
      rewrite Hget in Hv. injection Hv as <-.
      apply elem_of_cons in Hin as [? | Hin]; [done|].
      by apply list_elem_of_singleton in Hin.
    + rewrite bool_decide_eq_false_2 by done. cbn [negb app].
      rewrite list_elem_of_singleton. split.
      * intros ->. right. exists xfo. split; [done|].
        split; [|split; [|done]]; intros Heq; apply Hout; rewrite Heq.
        -- by left.
        -- right. by left.
      * intros [[? _] | (v & [Hv _] & _ & _ & ->)]; [done|].
        rewrite Hget in Hv. by injection Hv as <-.
  - rewrite list_elem_of_singleton. pose proof Htruthy as Hno%truthy_no_value. split.
    + intros ->. by left.
    + intros [[_ ->] | (v & Hv & _)]; [done|].
      assert (Py.truthy (headers !! "x-frame-options") = true)
        by (apply truthy_has_value; by exists v).
      congruence.
Qed.

Lemma check_referrer_expected headers note :
  note ∈ HTTP.check_referrer headers [] <-> referrer_note headers note.
Proof.
  unfold referrer_note, HTTP.check_referrer.
  destruct (Py.truthy (headers !! "referrer-policy")) eqn:Htruthy; cbn [negb app].
  - pose proof Htruthy as (rp & Hget & Hne)%truthy_has_value.
    assert (Hno : ~ no_value headers "referrer-policy").
    { intros H%truthy_no_value. congruence. }
    rewrite Hget. cbn [default from_option id]. cbv zeta.
    destruct (decide (Py.lower rp
                      ∈ ({[ "no-referrer-when-downgrade"; "unsafe-url" ]} : gset string)))
      as [Hin | Hout].
    + rewrite bool_decide_eq_true_2 by done. rewrite list_elem_of_singleton. split.
      * intros ->. right. exists rp. split; [done|]. split; [|done].
        apply elem_of_union in Hin as [Hin | Hin]; apply elem_of_singleton in Hin;
          [by left | by right].
      * intros [[? _] | (v & [Hv _] & _ & ->)]; [done|].
        rewrite Hget in Hv. by injection Hv as <-.
    + rewrite bool_decide_eq_false_2 by done. rewrite elem_of_nil. split; [done|].
      intros [[? _] | (v & [Hv _] & Hweak & _)]; [done|].
      rewrite Hget in Hv. injection Hv as <-. apply Hout.
      destruct Hweak as [-> | ->]; set_solver.
  - rewrite list_elem_of_singleton. pose proof Htruthy as Hno%truthy_no_value. split.
    + intros ->. by left.
    + intros [[_ ->] | (v & Hv & _)]; [done|].
      assert (Py.truthy (headers !! "referrer-policy") = true)
        by (apply truthy_has_value; by exists v).
      congruence.
Qed.

(** The findings are the notes of the seven blocks, each under its own
    condition. *)
Lemma findings_expected resp note :
  note ∈ (HTTP.check_security_headers resp).2
  <-> expected_note (HTTP.lowercased (HTTP.resp_headers resp)) note.
Proof.
  rewrite findings_blocks. cbv zeta. unfold expected_note.
  rewrite !elem_of_app, check_hsts_expected, check_csp_expected, check_xcto_expected,
    check_xfo_expected, check_referrer_expected, check_permissions_expected,
    check_xxp_expected.
  done.
Qed.

(** Only the HSTS block records that the lifetime could not be parsed. *)
Lemma parse_note_expected headers :
  expected_note headers "Could not parse HSTS max-age"
  <-> exists hsts,
        headers !! "strict-transport-security" = Some hsts /\ unparsable_max_age hsts.
Proof.
  unfold expected_note, hsts_note, csp_note, xcto_note, xfo_note, referrer_note,
    permissions_note, xxp_note. split.
  - intros [[[_ ?] | (hsts & [Hget _] & [[_ ?] | [[_ ?] | [Hbad _]]])]
           | [[_ ?] | [[[_ ?] | (? & _ & _ & ?)] | [[[_ ?] | (? & _ & _ & _ & ?)]
           | [[[_ ?] | (? & _ & _ & ?)] | [[_ ?] | (? & _ & ?)]]]]]];
      try discriminate.
    by exists hsts.
  - intros (hsts & Hget & Hbad). left. right. exists hsts. split; [|by right; right].
    split; [done|]. intros ->. destruct Hbad as (name & value & Hhead & _).
    destruct name; discriminate Hhead.
Qed.

(** C7, as the specification words it, at three values that contain a
    max-age directive that is no integer: a directive without [=], one
    written with a colon, and an unparsable directive after a parsable one.
    The classifier records no note about the header; the findings are those
    of the five headers that are missing. *)
Lemma C7_unparsable_max_age_unnoted :
  Forall (fun hsts =>
            let resp := HTTP.mkResponse "https://site.example/" 200
                          [("Strict-Transport-Security", hsts)] in
            contains_unparsable_max_age hsts /\
            HTTP.check_hsts (HTTP.lowercased (HTTP.resp_headers resp)) [] = [] /\
            (HTTP.check_security_headers resp).2
            = ["Content-Security-Policy header missing";
               "X-Content-Type-Options missing";
               "X-Frame-Options missing (consider SAMEORIGIN or DENY)";
               "Referrer-Policy missing (consider 'strict-origin-when-cross-origin')";
               "Permissions-Policy missing (not critical but recommended)"])
         ["max-age"; "max-age: 31536000"; "max-age=31536000; max-age=abc"].
Proof.
  constructor; [|constructor; [|constructor; [|constructor]]];
    (split; [|split; vm_compute; reflexivity]).
  - exists "max-age". split; [|split; vm_compute; reflexivity].
    apply list_elem_of_In. vm_compute. by left.
  - exists "max-age: 31536000". split; [|split; vm_compute; reflexivity].
    apply list_elem_of_In. vm_compute. by left.
  - exists "max-age=abc". split; [|split; vm_compute; reflexivity].
    apply list_elem_of_In. vm_compute. right. by left.
Qed.

(** C7 (amended): whatever the Strict-Transport-Security value of a last
    response that is not a redirect, the classifier raises nothing and the
    probe succeeds: [error] is unset and the record carries the two lists
    of missing headers and the findings.  The findings are the notes of the
    seven header blocks, each recorded under its own condition.  The note
    "Could not parse HSTS max-age" is among them exactly when the first
    directive whose text starts with max-age reads [name=value] with a
    value that [int] cannot parse; it is then the first finding, and the
    notes of the later blocks follow it. *)
Theorem C7_parse_note_iff_unparsable web timeout w raw url w' rs final_resp :
  HTTP.normalize_url web raw = Ok url ->
  HTTP.fetch_url web w url timeout = (w', (rs, None)) ->
  last rs = Some final_resp ->
  HTTP.is_redirect (HTTP.resp_status_code final_resp) = false ->
  let headers := HTTP.lowercased (HTTP.resp_headers final_resp) in
  let missing_required := filter (fun h => headers !! h = None) HTTP.REQUIRED_HEADERS in
  let missing_optional := filter (fun h => headers !! h = None) HTTP.OPTIONAL_HEADERS in
  let findings := (HTTP.check_security_headers final_resp).2 in
  (exists r,
     HTTP.analyse_target web w raw timeout = (w', Ok r) /\
     HTTP.error r = None /\
     HTTP.missing_required_headers r = Py.join ";" missing_required /\
     HTTP.missing_optional_headers r = Py.join ";" missing_optional /\
     HTTP.header_findings r = Py.join " | " findings)
  /\ (forall note, note ∈ findings <-> expected_note headers note)
  /\ ("Could not parse HSTS max-age" ∈ findings
      <-> exists hsts,
            headers !! "strict-transport-security" = Some hsts /\ unparsable_max_age hsts)
  /\ (forall hsts,
        headers !! "strict-transport-security" = Some hsts -> unparsable_max_age hsts ->
        findings = "Could not parse HSTS max-age" :: other_checks headers []).
Proof.
  intros Hnorm Hfetch Hlast Hfinal headers missing_required missing_optional findings.
  split; [|split; [|split]].
  - pose proof (fetch_url_cases web timeout w url) as Hcases. rewrite Hfetch in Hcases.
    destruct Hcases as [[[? ?] _] | (_ & (w1 & first & more & _ & ->) & _)]; [done|].
    destruct (analyse_target_fetched web timeout w raw url w' _ first final_resp
                Hnorm Hfetch eq_refl Hlast)
      as (first_scheme & final_scheme & _ & _ & Hrec).
    exists (site_record url (first :: more) first_scheme final_scheme final_resp).
    split; [done|].
    cbn [site_record HTTP.error HTTP.missing_required_headers
         HTTP.missing_optional_headers HTTP.header_findings].
    unfold headers_checked. by rewrite Hfinal.
  - intros note. apply findings_expected.
  - unfold findings. rewrite findings_expected. apply parse_note_expected.
  - intros hsts Hget Hbad. unfold findings, HTTP.check_security_headers.
    fold headers. cbn [snd].
    fold (other_checks headers (HTTP.check_hsts headers [])).
    rewrite (check_hsts_unparsable headers hsts [] Hget Hbad).
    by rewrite (other_checks_app headers _).
Qed.

Lemma C7_parse_note_iff_unparsable_witness :
  let headers := [("Strict-Transport-Security", "max-age=abc; includeSubDomains");
                  ("X-Content-Type-Options", "nosniff")] in
  let w := [Script.page headers] in
  let res := HTTP.analyse_target Script.web w "https://site.example/" 10 in
  unparsable_max_age "max-age=abc; includeSubDomains"
  /\ exists r,
       res = ([], Ok r) /\ HTTP.error r = None /\
       HTTP.missing_required_headers r
         = "content-security-policy;x-frame-options;referrer-policy" /\
       HTTP.header_findings r
         = "Could not parse HSTS max-age | Content-Security-Policy header missing | X-Frame-Options missing (consider SAMEORIGIN or DENY) | Referrer-Policy missing (consider 'strict-origin-when-cross-origin') | Permissions-Policy missing (not critical but recommended)".
Proof.
  intros headers w res.
  assert (Hbad : unparsable_max_age "max-age=abc; includeSubDomains").
  { exists "max-age", "abc". split; [|split]; vm_compute; reflexivity. }
  split; [exact Hbad|].
  destruct (C7_parse_note_iff_unparsable Script.web 10 w "https://site.example/"
              "https://site.example/" []
              [HTTP.mkResponse "https://site.example/" 200 headers]
              (HTTP.mkResponse "https://site.example/" 200 headers))
    as [(r & Hr & Herr & Hrequired & _ & Hfindings) _];
    [vm_compute; reflexivity..|].
  exists r. split; [exact Hr|]. split; [exact Herr|].
  split; [rewrite Hrequired | rewrite Hfindings]; vm_compute; reflexivity.
Defined.

Example headers_all_missing :
  (HTTP.check_security_headers (HTTP.mkResponse "https://site.example/" 200 [])).1.1
  = HTTP.REQUIRED_HEADERS.
Proof. vm_compute. reflexivity. Qed.

Example hsts_padded_max_age :
  HTTP.check_hsts {[ "strict-transport-security" := "max-age=" +:+ String "160" "3600" ]} []
  = ["HSTS max-age < 6 months (consider increasing)"]
  /\ HTTP.check_hsts {[ "strict-transport-security" := "max-age=" +:+ String "031" "3600" ]} []
     = ["Could not parse HSTS max-age"].
Proof. split; vm_compute; reflexivity. Qed.

Example hsts_short_max_age :
  HTTP.check_hsts {[ "strict-transport-security" := "max-age=3600" ]} []
  = ["HSTS max-age < 6 months (consider increasing)"].
Proof. vm_compute. reflexivity. Qed.

Example hsts_without_max_age :
  HTTP.check_hsts {[ "strict-transport-security" := "includeSubDomains" ]} []
  = ["HSTS present but max-age missing"].
Proof. vm_compute. reflexivity. Qed.

Example hsts_max_age_without_value :
  HTTP.check_hsts {[ "strict-transport-security" := "max-age" ]} [] = [].
Proof. vm_compute. reflexivity. Qed.

Example xfo_allow_from :
  HTTP.check_xfo {[ "x-frame-options" := "ALLOW-FROM https://x" ]} []
  = ["X-Frame-Options value 'ALLOW-FROM https://x' is non-standard; prefer DENY or SAMEORIGIN"].
Proof. vm_compute. reflexivity. Qed.

(** ** Error and observation in a probe record *)

Lemma parse_target_shell raw t :
  TLS.parse_target raw = Ok t -> exists target host port, t = shell target host port.
Proof.
  intros Hparse.
  destruct (parse_target_cases raw)
    as [[_ H] | [(_ & _ & H) | (host & port_str & _ & _ & [[_ H] | (port & _ & _ & _ & H)])]];
    rewrite Hparse in H; try discriminate; injection H as ->; by eexists _, _, _.
Qed.

(** Every record of a TLS batch either has only [error] set or holds what
    the library reported for an established session. *)
Lemma tls_record_cases net timeout t_str r :
  produced net timeout t_str r ->
  (is_Some (TLS.error r) /\ tls_unobserved r)
  \/ (TLS.error r = None /\
      exists ssock,
        TLS.tls_version r = reported_version net ssock /\
        (TLS.cipher_name r, TLS.cipher_protocol r, TLS.cipher_bits r)
          = reported_cipher net ssock /\
        TLS.weak_protocol r = TLS.is_weak_protocol (TLS.tls_version r) /\
        TLS.weak_cipher r = TLS.is_weak_cipher (TLS.cipher_name r) (TLS.cipher_bits r)).
Proof.
  unfold produced. destruct (TLS.parse_target t_str) as [t|e] eqn:Hparse.
  - destruct (parse_target_shell _ _ Hparse) as (target & host & port & ->).
    intros [w ->]. pose proof (check_target_cases net timeout w target host port) as H.
    cbv zeta in H. destruct (TLS.check_target net w _ timeout) as [w' r].
    destruct H as [[msg ->] | (w1 & sock & ssock & _ & _ & ->)].
    + left. by split.
    + right. split; [done|]. exists ssock. cbn.
      by destruct (reported_cipher net ssock) as [[? ?] ?].
  - intros ->. left. by split.
Qed.

(** C2, as the specification words it, on a session that is established
    while the library reports neither a version nor a cipher: the record has
    no error and no observation, so that neither group is populated. *)
Lemma C2_silent_session_neither_group :
  exists w r,
    TLS.main Script.net ∅ [] (Script.args (Some "silent.example") None) = (w, (0, [r]))
    /\ ~ (is_Some (TLS.error r) <-> ~ tls_observed r).
Proof.
  eexists _, _. split; [vm_compute; reflexivity|].
  intros [_ H]. cbn in H. unfold tls_observed in H. cbn in H.
  destruct H as [? ?]; [|done]. by intros [[? ?] | [[? ?] | [[? ?] | [? ?]]]].
Qed.

(** C2 (amended): in every probe record at most one of the two groups is
    populated.  When [error] is set, every observation field is absent and
    every flag is false or empty, for a TLS record and for an HTTP record
    alike.  An HTTP record without error always carries [final_url],
    [scheme] and [status_code].  A TLS record without error belongs to an
    established session and carries the version and the cipher the library
    reported for it, with the two flags computed from them; the source
    allows both reports to be absent. *)
Theorem C2_error_excludes_observation :
  (forall net files w args w' status results r,
     TLS.main net files w args = (w', (status, results)) ->
     r ∈ results ->
     (is_Some (TLS.error r) /\ tls_unobserved r)
     \/ (TLS.error r = None /\
         exists ssock,
           TLS.tls_version r = reported_version net ssock /\
           (TLS.cipher_name r, TLS.cipher_protocol r, TLS.cipher_bits r)
             = reported_cipher net ssock /\
           TLS.weak_protocol r = TLS.is_weak_protocol (TLS.tls_version r) /\
           TLS.weak_cipher r = TLS.is_weak_cipher (TLS.cipher_name r) (TLS.cipher_bits r)))
  /\ (forall web timeout w raw w' r,
        HTTP.analyse_target web w raw timeout = (w', Ok r) ->
        (is_Some (HTTP.error r) /\ http_unobserved r)
        \/ (HTTP.error r = None /\ http_observed r)).
Proof.
  split.
  - intros net files w args w' status results r Hmain Hr.
    pose proof (main_results net files w args) as H.
    destruct (TLS.gather_targets files args) as [targets|e].
    + destruct H as (w'' & results' & Hmain' & Hall).
      rewrite Hmain in Hmain'. injection Hmain' as _ _ <-.
      apply list_elem_of_lookup in Hr as [i Hi].
      destruct (Forall2_lookup_r _ _ _ _ _ Hall Hi) as (t_str & _ & Hprod).
      by apply (tls_record_cases net (TLS.arg_timeout args) t_str).
    + rewrite Hmain in H. injection H as _ _ ->. by apply elem_of_nil in Hr.
  - intros web timeout w raw w' r Hrun.
    destruct (analyse_target_cases web timeout w raw w' r Hrun)
      as (url & rs & _ &
          [(e & _ & _ & ->)
          | (w1 & first & final & _ & _ & _ & _ & _ & _ & fs & ls & _ & _ & ->)]).
    + left. by split.
    + right. by split.
Qed.

Lemma C2_error_excludes_observation_witness :
  let args := Script.args None (Some "down.example:443,badcert.example,example.com") in
  let results := (TLS.main Script.net ∅ [] args).2.2 in
  let r := default (shell "" "" 0) (results !! 0%nat) in
  (TLS.main Script.net ∅ [] args
     = ([("down.example", 443); ("badcert.example", 443); ("example.com", 443)],
        (0, results))
   /\ r ∈ results)
  /\ is_Some (TLS.error r) /\ tls_unobserved r.
Proof.
  intros args results r.
  assert (Hmain : TLS.main Script.net ∅ [] args
                  = ([("down.example", 443); ("badcert.example", 443); ("example.com", 443)],
                     (0, results))) by (vm_compute; reflexivity).
  assert (Hr : r ∈ results) by (vm_compute; apply list_elem_of_here).
  split; [by split|].
  destruct (proj1 C2_error_excludes_observation Script.net ∅ [] args _ _ _ r Hmain Hr)
    as [H | [Hnone _]]; [exact H | discriminate Hnone].
Defined.

Example tls_batch_records :
  (TLS.main Script.net ∅ []
     (Script.args None (Some "down.example:443,badcert.example,example.com"))).2.2
  = [ TLS.mkTLSResult "down.example:443" "down.example" 443 None None None None
        false false (Some "[Errno 111] Connection refused");
      TLS.mkTLSResult "badcert.example" "badcert.example" 443 None None None None
        false false (Some "certificate verify failed");
      TLS.mkTLSResult "example.com" "example.com" 443 (Some "TLSv1.3")
        (Some "TLS_AES_256_GCM_SHA384") (Some "TLSv1.3") (Some 256) false false None ].
Proof. vm_compute. reflexivity. Qed.

(** ** Duplicate removal in [gather_targets] *)

Lemma filter_comm (P Q : string -> Prop) `{!forall x, Decision (P x)}
    `{!forall x, Decision (Q x)} (l : list string) :
  filter P (filter Q l) = filter Q (filter P l).
Proof. rewrite !list_filter_filter. apply list_filter_iff. intros x. tauto. Qed.

Lemma first_seen_filter (P : string -> Prop) `{!forall x, Decision (P x)} l :
  filter P (first_seen l) = first_seen (filter P l).
Proof.
  induction l as [|x l IH]; [done|]. cbn [first_seen]. rewrite !filter_cons.
  destruct (decide (P x)) as [Hx|Hx].
  - cbn [first_seen]. by rewrite <- IH, filter_comm.
  - rewrite <- IH, list_filter_filter. apply list_filter_iff.
    intros y. split; [tauto|]. intros Hy. split; [done|]. by intros ->.
Qed.

Lemma filter_keeps_all (P : string -> Prop) `{!forall x, Decision (P x)} (l : list string) :
  (forall x, P x) -> filter P l = l.
Proof.
  intros HP. induction l as [|x l IH]; [done|].
  by rewrite filter_cons_True, IH.
Qed.

Lemma unique_loop l : forall (seen : gset string) (unique : list string),
  (forall x, x ∈ seen <-> x ∈ unique) ->
  (foldl TLS.unique_step (seen, unique) l).2
  = unique ++ first_seen (filter (fun x => x ∉ unique) l).
Proof.
  induction l as [|t l IH]; intros seen unique Hseen; [by rewrite app_nil_r|].
  cbn [foldl]. unfold TLS.unique_step at 2. cbn [fst snd]. rewrite filter_cons.
  destruct (decide (t ∉ unique)) as [Hnew|Hold].
  - rewrite bool_decide_eq_true_2 by (by rewrite Hseen).
    rewrite IH.
    + cbn [first_seen]. rewrite <- app_assoc. cbn [app]. do 2 f_equal.
      rewrite first_seen_filter, list_filter_filter. f_equal. apply list_filter_iff.
      intros y. rewrite elem_of_app, list_elem_of_singleton. tauto.
    + intros x. rewrite elem_of_union, elem_of_singleton, elem_of_app,
        list_elem_of_singleton, Hseen. tauto.
  - rewrite bool_decide_eq_false_2 by (by rewrite Hseen). by apply IH.
Qed.

(** The duplicate-removal loop keeps the first occurrence of every string
    it is given, in the order of these first occurrences. *)
Lemma unique_targets_first_seen l :
  (foldl TLS.unique_step (∅, []) l).2 = first_seen l.
Proof.
  rewrite unique_loop by (intros x; by rewrite elem_of_empty, elem_of_nil).
  rewrite app_nil_l. f_equal. apply filter_keeps_all. intros x. apply not_elem_of_nil.
Qed.

Lemma first_seen_elem_of l x : x ∈ first_seen l <-> x ∈ l.
Proof.
  induction l as [|y l IH]; [done|]. cbn [first_seen].
  rewrite !elem_of_cons, list_elem_of_filter, IH.
  destruct (decide (x = y)); tauto.
Qed.

Lemma first_seen_NoDup l : NoDup (first_seen l).
Proof.
  induction l as [|y l IH]; [constructor|]. cbn [first_seen]. constructor.
  - rewrite list_elem_of_filter. tauto.
  - by apply NoDup_filter.
Qed.

Example dedup_example :
  TLS.gather_targets (net:=Script.net) ∅ (Script.args None (Some "a:443,a:443,b:443"))
  = Ok ["a:443"; "b:443"].
Proof. vm_compute. reflexivity. Qed.

(** C8 at the arguments [--target "example.com:443 " --targets example.com:443]:
    the value of [--target] enters the duplicate removal as it was typed,
    with its trailing space, while the entries of [--targets] and of the
    input file are trimmed first.  The two strings differ, both are kept,
    and the batch probes the trimmed target [example.com:443] twice. *)
Theorem C8_untrimmed_target_probed_twice net files w timeout :
  let args := @TLS.mkArgs net (Some "example.com:443 ") (Some "example.com:443") None timeout in
  TLS.gather_targets files args = Ok ["example.com:443 "; "example.com:443"]
  /\ Py.strip "example.com:443 " = "example.com:443"
  /\ exists w' r1 r2,
       TLS.main net files w args = (w', (0, [r1; r2])) /\
       TLS.target r1 = "example.com:443" /\ TLS.target r2 = "example.com:443" /\
       TLS.hostname r1 = TLS.hostname r2 /\ TLS.port r1 = TLS.port r2.
Proof.
  intros args.
  assert (Hgather : TLS.gather_targets files args
                    = Ok ["example.com:443 "; "example.com:443"])
    by (vm_compute; reflexivity).
  split; [exact Hgather|]. split; [vm_compute; reflexivity|].
  pose proof (main_results net files w args) as H. rewrite Hgather in H.
  destruct H as (w' & results & Hmain & Hall).
  apply Forall2_cons_inv_l in Hall as (r1 & rest & Hr1 & Hall & ->).
  apply Forall2_cons_inv_l in Hall as (r2 & rest' & Hr2 & Hall & ->).
  apply Forall2_nil_inv_l in Hall as ->.
  exists w', r1, r2. split; [exact Hmain|].
  unfold produced in Hr1, Hr2.
  replace (TLS.parse_target "example.com:443 ")
    with (Ok (shell "example.com:443" "example.com" 443)) in Hr1
    by (vm_compute; reflexivity).
  replace (TLS.parse_target "example.com:443")
    with (Ok (shell "example.com:443" "example.com" 443)) in Hr2
    by (vm_compute; reflexivity).
  destruct Hr1 as [w1 ->], Hr2 as [w2 ->].
  pose proof (check_target_keeps net (TLS.arg_timeout args) w1
                (shell "example.com:443" "example.com" 443)) as (Ht1 & Hh1 & Hp1).
  pose proof (check_target_keeps net (TLS.arg_timeout args) w2
                (shell "example.com:443" "example.com" 443)) as (Ht2 & Hh2 & Hp2).
  by rewrite Ht1, Ht2, Hh1, Hh2, Hp1, Hp2.
Qed.

(** * Further properties of the two scripts *)

(** ** Trimming *)

Lemma lstrip_idem s : Py.lstrip (Py.lstrip s) = Py.lstrip s.
Proof.
  induction s as [|c s IH]; [done|]. cbn [Py.lstrip].
  destruct (Py.isspace c) eqn:Hc; [done|]. cbn [Py.lstrip]. by rewrite Hc.
Qed.

Lemma rstrip_idem s : Py.rstrip (Py.rstrip s) = Py.rstrip s.
Proof.
  induction s as [|c s IH]; [done|]. cbn [Py.rstrip].
  destruct (Py.rstrip s) as [|c' s'] eqn:Hr.
  - destruct (Py.isspace c) eqn:Hc; [done|]. cbn [Py.rstrip]. by rewrite Hc.
  - cbn [Py.rstrip]. cbn [Py.rstrip] in IH. by rewrite IH.
Qed.

Lemma lstrip_length s : (String.length (Py.lstrip s) <= String.length s)%nat.
Proof.
  induction s as [|c s IH]; [done|]. cbn [Py.lstrip].
  destruct (Py.isspace c); cbn [String.length]; lia.
Qed.

Lemma rstrip_keeps_lstripped s : Py.lstrip s = s -> Py.lstrip (Py.rstrip s) = Py.rstrip s.
Proof.
  destruct s as [|c s]; [done|]. cbn [Py.lstrip Py.rstrip].
  destruct (Py.isspace c) eqn:Hc.
  - intros H. pose proof (lstrip_length s) as Hlen. rewrite H in Hlen.
    cbn [String.length] in Hlen. lia.
  - intros _. destruct (Py.rstrip s); cbn [Py.lstrip]; by rewrite Hc.
Qed.

Lemma strip_idem s : Py.strip (Py.strip s) = Py.strip s.
Proof.
  unfold Py.strip.
  by rewrite (rstrip_keeps_lstripped _ (lstrip_idem s)), rstrip_idem.
Qed.

Lemma truthy_Some s : Py.truthy (Some s) = true <-> s <> "".
Proof. by destruct s. Qed.

Lemma truthy_Some_false s : Py.truthy (Some s) = false <-> s = "".
Proof. by destruct s. Qed.

(** ** The TLS target parser, again *)

(** X1: [parse_target] ignores the whitespace around an entry, and parsing
    the [target] field of a record it returned gives that record back. *)
Theorem X1_parse_target_trimmed (raw : string) :
  TLS.parse_target (Py.strip raw) = TLS.parse_target raw
  /\ forall t, TLS.parse_target raw = Ok t -> TLS.parse_target (TLS.target t) = Ok t.
Proof.
  assert (Hstrip : TLS.parse_target (Py.strip raw) = TLS.parse_target raw).
  { unfold TLS.parse_target. by rewrite strip_idem. }
  split; [exact Hstrip|]. intros t Hparse.
  destruct (parse_target_cases raw)
    as [[_ H] | [(_ & _ & H) | (host & port_str & _ & _ & [[_ H] | (port & _ & _ & _ & H)])]];
    rewrite Hparse in H; try discriminate; injection H as ->;
    cbn [TLS.target shell]; by rewrite Hstrip.
Qed.

(** ** Collecting the targets *)

Lemma load_targets_loop lines : forall targets,
  foldl (fun targets line =>
           let line := Py.strip line in
           if negb (Py.truthy (Some line)) || Py.startswith "#" line then targets
           else targets ++ [line]) targets lines
  = targets ++ filter kept_line (Py.strip <$> lines).
Proof.
  induction lines as [|line lines IH]; intros targets; [by rewrite app_nil_r|].
  cbn [foldl fmap list_fmap]. rewrite IH, filter_cons. cbv zeta.
  destruct (decide (kept_line (Py.strip line))) as [[Hne Hc] | Hdrop].
  - rewrite (proj2 (truthy_Some _) Hne), Hc. cbn [negb orb]. by rewrite <- app_assoc.
  - destruct (Py.truthy (Some (Py.strip line))) eqn:Ht; cbn [negb orb]; [|done].
    destruct (Py.startswith "#" (Py.strip line)) eqn:Hc; [done|].
    exfalso. apply Hdrop. split; [by apply truthy_Some | done].
Qed.

Lemma load_targets_filter lines :
  TLS.load_targets_from_file lines = filter kept_line (Py.strip <$> lines).
Proof. unfold TLS.load_targets_from_file. by rewrite load_targets_loop. Qed.

(** X2: [load_targets_from_file] keeps, in the order of the file, the
    trimmed lines that are neither blank nor comments; every entry it
    returns is non-empty, carries no surrounding whitespace and does not
    start with [#]. *)
Theorem X2_load_targets_from_file_spec (lines : list string) :
  TLS.load_targets_from_file lines = filter kept_line (Py.strip <$> lines)
  /\ forall t, t ∈ TLS.load_targets_from_file lines ->
       t <> "" /\ Py.strip t = t /\ Py.startswith "#" t = false.
Proof.
  pose proof (load_targets_filter lines) as H.
  split; [exact H|]. intros t. rewrite H, list_elem_of_filter, list_elem_of_fmap.
  intros [[Hne Hc] (line & -> & _)]. by rewrite strip_idem.
Qed.

Lemma comma_loop entries : forall targets : list string,
  foldl (fun targets t =>
           if Py.truthy (Some (Py.strip t)) then targets ++ [Py.strip t] else targets)
        targets entries
  = targets ++ filter (fun t => t <> "") (Py.strip <$> entries).
Proof.
  induction entries as [|t entries IH]; intros targets; [by rewrite app_nil_r|].
  cbn [foldl fmap list_fmap]. rewrite IH, filter_cons.
  destruct (decide (Py.strip t <> "")) as [Hne | Hempty].
  - rewrite (proj2 (truthy_Some _) Hne). by rewrite <- app_assoc.
  - destruct (Py.truthy (Some (Py.strip t))) eqn:Ht; [|done].
    by apply truthy_Some in Ht.
Qed.

(** What [gather_targets] computes, in terms of the collected entries. *)
Lemma gather_targets_collected {net} files (args : TLS.Args net) :
  TLS.gather_targets files args =
  match TLS.arg_input args with
  | Some path =>
      match files !! path with
      | None => Raise (FileNotFoundError ("Input file not found: " +:+ path))
      | Some (Raise e) => Raise e
      | Some (Ok lines) =>
          match first_seen (collected (TLS.arg_target args) (TLS.arg_targets args) lines) with
          | [] => Raise (ValueError "No targets specified. Use --target, --targets, or --input.")
          | unique => Ok unique
          end
      end
  | None =>
      match first_seen (collected (TLS.arg_target args) (TLS.arg_targets args) []) with
      | [] => Raise (ValueError "No targets specified. Use --target, --targets, or --input.")
      | unique => Ok unique
      end
  end.
Proof.
  unfold TLS.gather_targets, collected. cbv zeta.
  rewrite !app_nil_l.
  assert (Hfile : forall lines front : list string,
            front ++ TLS.load_targets_from_file lines
            = front ++ filter kept_line (Py.strip <$> lines))
    by (intros; by rewrite load_targets_filter).
  destruct (Py.truthy (TLS.arg_target args)), (Py.truthy (TLS.arg_targets args));
    rewrite ?comma_loop, ?app_nil_l, ?app_nil_r;
    (destruct (TLS.arg_input args) as [path|];
     [destruct (files !! path) as [[lines|e]|]; [|done|done] |]);
    rewrite unique_targets_first_seen, ?Hfile, <- ?app_assoc, ?app_nil_l;
    cbn [fmap list_fmap filter list_filter]; rewrite ?app_nil_r;
    match goal with |- context [first_seen ?l] => by destruct (first_seen l) end.
Qed.

Lemma first_seen_nil l : first_seen l = [] -> l = [].
Proof. by destruct l. Qed.

Lemma collected_nonempty single comma lines t :
  t ∈ collected single comma lines -> t <> "".
Proof.
  unfold collected. rewrite !elem_of_app. intros [H | [H | H]].
  - destruct single as [[|c s]|]; cbn in H; try by apply elem_of_nil in H.
    by apply list_elem_of_singleton in H as ->.
  - destruct (Py.truthy comma); [|by apply elem_of_nil in H].
    by apply list_elem_of_filter in H as [? _].
  - by apply list_elem_of_filter in H as [[? _] _].
Qed.

Lemma gather_targets_Ok {net} files (args : TLS.Args net) targets :
  TLS.gather_targets files args = Ok targets ->
  targets = first_seen (collected (TLS.arg_target args) (TLS.arg_targets args)
                          (input_lines files (TLS.arg_input args)))
  /\ targets <> [].
Proof.
  rewrite gather_targets_collected. unfold input_lines.
  destruct (TLS.arg_input args) as [path|]; [destruct (files !! path) as [[lines|e]|]|];
    try discriminate;
    destruct (first_seen _); try discriminate; by intros [= <-].
Qed.

(** X3: the list [gather_targets] returns is never empty and has no
    duplicate.  It holds the collected entries, each at the place of its
    first occurrence: the value of [--target] as it was typed, then the
    trimmed non-empty entries of [--targets], then the trimmed lines of the
    input file that are neither blank nor comments.  No entry is the empty
    string. *)
Theorem X3_gather_targets_first_seen {net} files (args : TLS.Args net) targets :
  TLS.gather_targets files args = Ok targets ->
  let entries := collected (TLS.arg_target args) (TLS.arg_targets args)
                   (input_lines files (TLS.arg_input args)) in
  targets = first_seen entries /\ targets <> [] /\ NoDup targets
  /\ (forall t, t ∈ targets <-> t ∈ entries)
  /\ (forall t, t ∈ targets -> t <> "").
Proof.
  intros Hgather entries. subst entries.
  destruct (gather_targets_Ok files args targets Hgather) as [Heq Hne].
  split; [done|]. split; [done|]. rewrite Heq.
  split; [apply first_seen_NoDup|]. split; [apply first_seen_elem_of|].
  intros t Ht. rewrite first_seen_elem_of in Ht. by apply collected_nonempty in Ht.
Qed.

Lemma X3_gather_targets_first_seen_witness :
  let files : gmap string (result (list string)) :=
    {[ "targets.txt" := Ok ["# production"; " b.example:443 "; ""; "a.example:8443"] ]} in
  let args := @TLS.mkArgs Script.net (Some "a.example") (Some "b.example:443, ,a.example")
                (Some "targets.txt") 5 in
  TLS.gather_targets files args = Ok ["a.example"; "b.example:443"; "a.example:8443"]
  /\ NoDup ["a.example"; "b.example:443"; "a.example:8443"].
Proof.
  intros files args.
  assert (H : TLS.gather_targets files args
              = Ok ["a.example"; "b.example:443"; "a.example:8443"])
    by (vm_compute; reflexivity).
  split; [exact H|].
  exact (proj1 (proj2 (proj2 (X3_gather_targets_first_seen files args _ H)))).
Defined.

(** X4: [gather_targets] fails in three ways only.  An [--input] path that
    does not exist is fatal even when other targets were given on the
    command line, and the message names the path; so is a path whose
    existence check or reading raises (a directory, a file that cannot be
    opened or is not UTF-8), the exception being passed on as it is;
    otherwise [gather_targets] fails when nothing at all was collected.  In
    each case [main] returns status 1, stores no record and leaves the
    network untouched. *)
Theorem X4_gather_targets_failure net files (w : TLS.World net) (args : TLS.Args net) e :
  TLS.gather_targets files args = Raise e ->
  ((exists path,
      TLS.arg_input args = Some path /\ files !! path = None /\
      exc_str e = "Input file not found: " +:+ path)
   \/ (exists path, TLS.arg_input args = Some path /\ files !! path = Some (Raise e))
   \/ ((forall path e', TLS.arg_input args = Some path -> files !! path <> Some (Raise e')) /\
       collected (TLS.arg_target args) (TLS.arg_targets args)
         (input_lines files (TLS.arg_input args)) = [] /\
       exc_str e = "No targets specified. Use --target, --targets, or --input."))
  /\ TLS.main net files w args = (w, (1, [])).
Proof.
  intros Hgather. split.
  - rewrite gather_targets_collected in Hgather. unfold input_lines.
    destruct (TLS.arg_input args) as [path|];
      [destruct (files !! path) as [[lines|e']|] eqn:Hfile|].
    + destruct (first_seen _) eqn:Hseen; [|discriminate].
      injection Hgather as <-. right. right.
      split; [|split; [by apply first_seen_nil | done]].
      intros path' e' [= <-]. by rewrite Hfile.
    + injection Hgather as ->. right. left. by exists path.
    + injection Hgather as <-. left. by exists path.
    + destruct (first_seen _) eqn:Hseen; [|discriminate].
      injection Hgather as <-. right. right.
      split; [done|]. split; [by apply first_seen_nil | done].
  - pose proof (main_results net files w args) as H. by rewrite Hgather in H.
Qed.

Lemma X4_gather_targets_failure_witness :
  let files : gmap string (result (list string)) :=
    {[ "targets" := Raise (mkException "[Errno 21] Is a directory: 'targets'") ]} in
  let args := @TLS.mkArgs Script.net (Some "example.com:443") None (Some "targets") 5 in
  let e := mkException "[Errno 21] Is a directory: 'targets'" in
  TLS.gather_targets files args = Raise e
  /\ TLS.main Script.net files [] args = ([], (1, [])).
Proof.
  intros files args e.
  assert (H : TLS.gather_targets files args = Raise e) by (vm_compute; reflexivity).
  split; [exact H|].
  exact (proj2 (X4_gather_targets_failure Script.net files [] args e H)).
Defined.

Example missing_input_file :
  TLS.gather_targets ∅ (@TLS.mkArgs Script.net (Some "example.com:443") None
                          (Some "missing.txt") 5)
  = Raise (FileNotFoundError "Input file not found: missing.txt").
Proof. vm_compute. reflexivity. Qed.

(** ** The TLS batch, again *)

(** X5: when the targets were gathered, [main] returns status 0 with
    exactly one record per target, in the order of the targets, whatever
    happens to the other targets.  The record of a target that parses goes
    by the trimmed target, with the host and port parsed from it; the
    record of a target that does not parse is the stored parse error. *)
Theorem X5_main_one_record_per_target net files w args targets w' status results :
  TLS.gather_targets files args = Ok targets ->
  TLS.main net files w args = (w', (status, results)) ->
  status = 0 /\ length results = length targets
  /\ forall (i : nat) t_str, targets !! i = Some t_str ->
       exists r, results !! i = Some r /\
         match TLS.parse_target t_str with
         | Ok t => TLS.target r = Py.strip t_str /\
                   TLS.hostname r = TLS.hostname t /\ TLS.port r = TLS.port t
         | Raise e => r = invalid_target t_str e
         end.
Proof.
  intros Hgather Hmain.
  pose proof (main_results net files w args) as H. rewrite Hgather in H.
  destruct H as (w'' & results' & Hmain' & Hall).
  rewrite Hmain in Hmain'. injection Hmain' as _ -> <-.
  split; [done|]. split; [symmetry; by eapply Forall2_length|].
  intros i t_str Hi.
  destruct (Forall2_lookup_l _ _ _ _ _ Hall Hi) as (r & Hr & Hprod).
  exists r. split; [done|]. unfold produced in Hprod.
  destruct (TLS.parse_target t_str) as [t|e] eqn:Hparse; [|done].
  destruct Hprod as [w1 ->].
  destruct (check_target_keeps net (TLS.arg_timeout args) w1 t) as (-> & -> & ->).
  split; [|done].
  destruct (parse_target_cases t_str)
    as [[_ H] | [(_ & _ & H) | (host & port_str & _ & _ & [[_ H] | (port & _ & _ & _ & H)])]];
    rewrite Hparse in H; try discriminate; by injection H as ->.
Qed.

Lemma X5_main_one_record_per_target_witness :
  let args := Script.args None (Some "down.example:443, example.com:https, example.com") in
  let run := TLS.main Script.net ∅ [] args in
  TLS.gather_targets ∅ args = Ok ["down.example:443"; "example.com:https"; "example.com"]
  /\ run.2.1 = 0 /\ length run.2.2 = 3%nat.
Proof.
  intros args run.
  assert (H : TLS.gather_targets ∅ args
              = Ok ["down.example:443"; "example.com:https"; "example.com"])
    by (vm_compute; reflexivity).
  split; [exact H|].
  destruct (X5_main_one_record_per_target Script.net ∅ [] args _ run.1 run.2.1 run.2.2 H)
    as (Hstatus & Hlen & _); [vm_compute; reflexivity|]. by split.
Defined.

(** X6: [check_target] makes one connection attempt, to the host and port
    of the record, and at most one handshake, with the host as server name.
    If either raises, the record comes back with [error] set to the message
    of that exception and nothing else changed; otherwise the version is
    what [version()] reported ([None] if it raised), the cipher fields are
    the triple [cipher()] reported (left as they were if it reported none),
    both flags are computed from these fields, and [error] is left as it
    was. *)
Theorem X6_check_target_outcomes net w (t : TLS.TLSResult) timeout w' r :
  TLS.check_target net w t timeout = (w', r) ->
  (exists e,
     TLS.create_connection net w (TLS.hostname t, TLS.port t) timeout = (w', Raise e) /\
     r = TLS.set_error (Some (exc_str e)) t)
  \/ (exists w1 sock e,
        TLS.create_connection net w (TLS.hostname t, TLS.port t) timeout = (w1, Ok sock) /\
        TLS.wrap_socket net w1 sock (TLS.hostname t) = (w', Raise e) /\
        r = TLS.set_error (Some (exc_str e)) t)
  \/ (exists w1 sock ssock,
        TLS.create_connection net w (TLS.hostname t, TLS.port t) timeout = (w1, Ok sock) /\
        TLS.wrap_socket net w1 sock (TLS.hostname t) = (w', Ok ssock) /\
        TLS.target r = TLS.target t /\ TLS.hostname r = TLS.hostname t /\
        TLS.port r = TLS.port t /\ TLS.error r = TLS.error t /\
        TLS.tls_version r = reported_version net ssock /\
        (TLS.cipher_name r, TLS.cipher_protocol r, TLS.cipher_bits r)
          = default (TLS.cipher_name t, TLS.cipher_protocol t, TLS.cipher_bits t)
              (TLS.cipher net ssock) /\
        TLS.weak_protocol r = TLS.is_weak_protocol (TLS.tls_version r) /\
        TLS.weak_cipher r = TLS.is_weak_cipher (TLS.cipher_name r) (TLS.cipher_bits r)).
Proof.
  unfold TLS.check_target.
  destruct (TLS.create_connection net w _ timeout) as [w1 [sock|e]] eqn:Hconnect.
  - destruct (TLS.wrap_socket net w1 sock _) as [w2 [ssock|e]] eqn:Hwrap.
    + intros [= <- <-]. right. right. exists w1, sock, ssock.
      split; [done|]. split; [done|]. unfold reported_version.
      destruct (TLS.version net ssock) as [v|e];
        destruct (TLS.cipher net ssock) as [[[n p] b]|]; by cbn.
    + intros [= <- <-]. right. left. by exists w1, sock, e.
  - intros [= <- <-]. left. by exists e.
Qed.

Lemma X6_check_target_outcomes_witness :
  let t := shell "badcert.example" "badcert.example" 443 in
  TLS.check_target Script.net [] t 5
    = ([("badcert.example", 443)], TLS.set_error (Some "certificate verify failed") t)
  /\ TLS.create_connection Script.net [] ("badcert.example", 443) 5
     = ([("badcert.example", 443)], Ok "badcert.example").
Proof.
  intros t.
  assert (H : TLS.check_target Script.net [] t 5
              = ([("badcert.example", 443)],
                 TLS.set_error (Some "certificate verify failed") t))
    by (vm_compute; reflexivity).
  split; [exact H|].
  destruct (X6_check_target_outcomes Script.net [] t 5 _ _ H)
    as [(e & Hc & _) | [(w1 & sock & e & _ & _ & _) | (w1 & sock & ssock & _ & _ & _ & _ & _ & Herr & _)]];
    [vm_compute in Hc; discriminate Hc | vm_compute; reflexivity
    | vm_compute in Herr; discriminate Herr].
Defined.

(** X7: in every record of a TLS batch the two flags are the classifiers'
    answers for the fields of that record: [weak_protocol] for
    [tls_version], [weak_cipher] for [cipher_name] and [cipher_bits].  In
    particular a record with an error has both flags false. *)
Theorem X7_flags_follow_fields net files w args w' status results r :
  TLS.main net files w args = (w', (status, results)) ->
  r ∈ results ->
  TLS.weak_protocol r = TLS.is_weak_protocol (TLS.tls_version r)
  /\ TLS.weak_cipher r = TLS.is_weak_cipher (TLS.cipher_name r) (TLS.cipher_bits r)
  /\ (is_Some (TLS.error r) -> TLS.weak_protocol r = false /\ TLS.weak_cipher r = false).
Proof.
  intros Hmain Hr. pose proof (main_results net files w args) as H.
  destruct (TLS.gather_targets files args) as [targets|e].
  - destruct H as (w'' & results' & Hmain' & Hall).
    rewrite Hmain in Hmain'. injection Hmain' as _ _ <-.
    apply list_elem_of_lookup in Hr as [i Hi].
    destruct (Forall2_lookup_r _ _ _ _ _ Hall Hi) as (t_str & _ & Hprod).
    destruct (tls_record_cases net _ t_str r Hprod)
      as [[Herr (Hv & Hn & _ & Hb & Hwp & Hwc)] | (Hnone & ssock & _ & _ & Hwp & Hwc)].
    + rewrite Hv, Hn, Hb, Hwp, Hwc. by repeat split.
    + split; [done|]. split; [done|]. intros [? Herr]. congruence.
  - rewrite Hmain in H. injection H as _ _ ->. by apply elem_of_nil in Hr.
Qed.

Lemma X7_flags_follow_fields_witness :
  let args := Script.args None (Some "down.example:443,example.com") in
  let run := TLS.main Script.net ∅ [] args in
  let r := default (shell "" "" 0) (run.2.2 !! 1%nat) in
  r ∈ run.2.2
  /\ TLS.weak_cipher r = TLS.is_weak_cipher (TLS.cipher_name r) (TLS.cipher_bits r).
Proof.
  intros args run r.
  assert (Hr : r ∈ run.2.2) by (vm_compute; apply list_elem_of_further, list_elem_of_here).
  split; [exact Hr|].
  exact (proj1 (proj2 (X7_flags_follow_fields Script.net ∅ [] args run.1 run.2.1 run.2.2 r
                         eq_refl Hr))).
Defined.

(** ** URL normalisation *)

Lemma strip_fixed_parts s : Py.strip s = s -> Py.lstrip s = s /\ Py.rstrip s = s.
Proof.
  intros H.
  assert (Hl : Py.lstrip s = s).
  { rewrite <- H at 1. unfold Py.strip.
    by rewrite (rstrip_keeps_lstripped _ (lstrip_idem s)). }
  split; [exact Hl|]. rewrite <- Hl at 1. exact H.
Qed.

Lemma rstrip_app a s : Py.rstrip s <> "" -> Py.rstrip (a +:+ s) = a +:+ Py.rstrip s.
Proof.
  intros Hs. induction a as [|c a IH]; [done|].
  rewrite !app_cons. cbn [Py.rstrip]. rewrite IH.
  destruct (a +:+ Py.rstrip s) eqn:Ha; [|done].
  destruct a; [by rewrite app_empty_l in Ha | discriminate].
Qed.

Lemma strip_https s : Py.strip s = s -> s <> "" -> Py.strip ("https://" +:+ s) = "https://" +:+ s.
Proof.
  intros Hs Hne. destruct (strip_fixed_parts s Hs) as [_ Hr].
  unfold Py.strip. change (Py.lstrip ("https://" +:+ s)) with ("https://" +:+ s).
  rewrite rstrip_app by (by rewrite Hr). by rewrite Hr.
Qed.

(** X8: [normalize_url] raises in two cases only: on a blank entry, with
    "Empty URL", and on an entry that [urlparse] refuses, with the
    exception of [urlparse].  Otherwise it returns the trimmed entry,
    prefixed with [https://] exactly when [urlparse] finds no scheme in it.
    Whenever [urlparse] finds a scheme in the URL returned, normalising
    that URL again changes nothing. *)
Theorem X8_normalize_url_spec web (raw : string) :
  match HTTP.normalize_url web raw with
  | Raise e =>
      (Py.strip raw = "" /\ exc_str e = "Empty URL")
      \/ (Py.strip raw <> "" /\ HTTP.urlparse_scheme web (Py.strip raw) = Raise e)
  | Ok url =>
      Py.strip raw <> "" /\
      (exists scheme,
         HTTP.urlparse_scheme web (Py.strip raw) = Ok scheme /\
         (scheme <> "" /\ url = Py.strip raw
          \/ scheme = "" /\ url = "https://" +:+ Py.strip raw)) /\
      (forall scheme,
         HTTP.urlparse_scheme web url = Ok scheme -> scheme <> "" ->
         HTTP.normalize_url web url = Ok url)
  end.
Proof.
  unfold HTTP.normalize_url at 1.
  destruct (Py.truthy (Some (Py.strip raw))) eqn:Ht; cbn [negb].
  - apply truthy_Some in Ht.
    destruct (HTTP.urlparse_scheme web (Py.strip raw)) as [scheme|e] eqn:Hparse;
      [|right; by split].
    destruct (Py.truthy (Some scheme)) eqn:Hs; cbn [negb].
    + apply truthy_Some in Hs. split; [done|].
      split; [exists scheme; split; [done | by left]|].
      intros scheme' Hparse' Hne. unfold HTTP.normalize_url. rewrite strip_idem.
      rewrite (proj2 (truthy_Some _) Ht). cbn [negb].
      by rewrite Hparse', (proj2 (truthy_Some _) Hne).
    + apply truthy_Some_false in Hs. split; [done|].
      split; [exists scheme; split; [done | by right]|].
      intros scheme' Hparse' Hne.
      unfold HTTP.normalize_url. rewrite (strip_https _ (strip_idem raw) Ht).
      change (Py.truthy (Some ("https://" +:+ Py.strip raw))) with true. cbn [negb].
      by rewrite Hparse', (proj2 (truthy_Some _) Hne).
  - left. by apply truthy_Some_false in Ht.
Qed.

Lemma X8_normalize_url_spec_witness :
  HTTP.normalize_url Script.web " example.com" = Ok "https://example.com"
  /\ HTTP.normalize_url Script.web "https://example.com" = Ok "https://example.com".
Proof.
  assert (Hn : HTTP.normalize_url Script.web " example.com" = Ok "https://example.com")
    by (vm_compute; reflexivity).
  split; [exact Hn|].
  pose proof (X8_normalize_url_spec Script.web " example.com") as H.
  rewrite Hn in H. destruct H as (_ & _ & Hidem).
  apply (Hidem "https"); [vm_compute; reflexivity | discriminate].
Defined.

Example normalize_refuses_bracket :
  HTTP.normalize_url Script.web "http://[" = Raise (ValueError "Invalid IPv6 URL")
  /\ HTTP.normalize_url Script.web "[" = Ok "https://["
  /\ HTTP.normalize_url Script.web "https://[" = Raise (ValueError "Invalid IPv6 URL").
Proof. repeat split; vm_compute; reflexivity. Qed.

Example normalize_adds_scheme :
  HTTP.normalize_url Script.web " example.com/login " = Ok "https://example.com/login".
Proof. vm_compute. reflexivity. Qed.

Example normalize_keeps_http :
  HTTP.normalize_url Script.web "http://example.com" = Ok "http://example.com".
Proof. vm_compute. reflexivity. Qed.

(** ** Missing headers *)

Lemma lowercased_loop items : forall (d : gmap string string) name,
  foldl (fun d kv => <[ Py.lower kv.1 := kv.2 ]> d) d items !! name = None
  <-> d !! name = None /\ forall k v, (k, v) ∈ items -> Py.lower k <> name.
Proof.
  induction items as [|[k0 v0] items IH]; intros d name.
  - cbn [foldl]. split; [intros H; split; [done|] | by intros [? _]].
    intros k v Hin. by apply elem_of_nil in Hin.
  - cbn [foldl]. rewrite IH. cbn [fst snd]. rewrite lookup_insert_None. split.
    + intros [[Hd Hk0] Hrest]. split; [done|].
      intros k v [[= -> ->] | Hin]%elem_of_cons; [done | by eapply Hrest].
    + intros [Hd Hall]. split; [split; [done|] |].
      * apply (Hall k0 v0). by left.
      * intros k v Hin. apply (Hall k v). by right.
Qed.

Lemma lowercased_None items name :
  HTTP.lowercased items !! name = None
  <-> forall k v, (k, v) ∈ items -> Py.lower k <> name.
Proof.
  unfold HTTP.lowercased. rewrite lowercased_loop, lookup_empty.
  split; [by intros [_ ?] | by split].
Qed.

(** X9: a required (or optional) header is listed as missing exactly when
    no header of the response bears its name, the names being compared
    without regard to case; the value plays no part, so that a header sent
    with an empty value is not listed. *)
Theorem X9_missing_headers_spec (resp : HTTP.Response) (h : string) :
  (h ∈ (HTTP.check_security_headers resp).1.1
   <-> h ∈ HTTP.REQUIRED_HEADERS /\
       forall k v, (k, v) ∈ HTTP.resp_headers resp -> Py.lower k <> h)
  /\ (h ∈ (HTTP.check_security_headers resp).1.2
      <-> h ∈ HTTP.OPTIONAL_HEADERS /\
          forall k v, (k, v) ∈ HTTP.resp_headers resp -> Py.lower k <> h).
Proof.
  unfold HTTP.check_security_headers. cbn [fst snd].
  rewrite !list_elem_of_filter, !lowercased_None. tauto.
Qed.

Example missing_ignores_case :
  (HTTP.check_security_headers
     (HTTP.mkResponse "https://site.example/" 200
        [("CONTENT-SECURITY-POLICY", "default-src 'self'"); ("X-Frame-Options", "")])).1.1
  = ["strict-transport-security"; "x-content-type-options"; "referrer-policy"].
Proof. vm_compute. reflexivity. Qed.

(** ** Notes about missing headers *)


(** What each block can add to the findings. *)
Lemma check_hsts_notes headers x :
  x ∈ HTTP.check_hsts headers [] ->
  (x = "HSTS missing (for HTTPS site)" /\
   Py.truthy (headers !! "strict-transport-security") = false)
  \/ x = "HSTS present but max-age missing"
  \/ x = "HSTS max-age < 6 months (consider increasing)"
  \/ x = "Could not parse HSTS max-age".
Proof.
  unfold HTTP.check_hsts.
  destruct (Py.truthy (headers !! "strict-transport-security")) eqn:Ht.
  - repeat (match goal with
            | |- context [if ?b then _ else _] => destruct b
            | |- context [match ?o with _ => _ end] => destruct o
            end);
      rewrite ?app_nil_l; set_unfold; intros H; try done;
      destruct H as [-> | []]; tauto.
  - rewrite app_nil_l. set_unfold. intros [-> | []]. by left.
Qed.

Lemma check_csp_notes headers x :
  x ∈ HTTP.check_csp headers [] ->
  x = "Content-Security-Policy header missing" /\
  Py.truthy (headers !! "content-security-policy") = false.
Proof.
  unfold HTTP.check_csp.
  destruct (Py.truthy (headers !! "content-security-policy")); cbn [negb];
    rewrite ?app_nil_l; set_unfold; intros H; [done|]. by destruct H as [-> | []].
Qed.

Lemma check_xcto_notes headers x :
  x ∈ HTTP.check_xcto headers [] ->
  (x = "X-Content-Type-Options missing" /\
   Py.truthy (headers !! "x-content-type-options") = false)
  \/ exists v, x = "X-Content-Type-Options is '" +:+ v +:+ "', expected 'nosniff'".
Proof.
  unfold HTTP.check_xcto.
  destruct (Py.truthy (headers !! "x-content-type-options")); cbn [negb].
  - destruct (negb _); rewrite ?app_nil_l; set_unfold; intros H; [|done].
    right. destruct H as [-> | []]. eauto.
  - rewrite app_nil_l. set_unfold. intros [-> | []]. by left.
Qed.

Lemma check_xfo_notes headers x :
  x ∈ HTTP.check_xfo headers [] ->
  (x = "X-Frame-Options missing (consider SAMEORIGIN or DENY)" /\
   Py.truthy (headers !! "x-frame-options") = false)
  \/ exists v, x = "X-Frame-Options value '" +:+ v
                   +:+ "' is non-standard; prefer DENY or SAMEORIGIN".
Proof.
  unfold HTTP.check_xfo.
  destruct (Py.truthy (headers !! "x-frame-options")); cbn [negb].
  - cbv zeta. destruct (negb _); rewrite ?app_nil_l; intros H;
      [|by apply elem_of_nil in H].
    right. apply list_elem_of_singleton in H as ->. eauto.
  - rewrite app_nil_l. intros ->%list_elem_of_singleton. by left.
Qed.

Lemma check_referrer_notes headers x :
  x ∈ HTTP.check_referrer headers [] ->
  (x = "Referrer-Policy missing (consider 'strict-origin-when-cross-origin')" /\
   Py.truthy (headers !! "referrer-policy") = false)
  \/ exists v, x = "Referrer-Policy '" +:+ v +:+ "' is weaker than recommended".
Proof.
  unfold HTTP.check_referrer.
  destruct (Py.truthy (headers !! "referrer-policy")); cbn [negb].
  - cbv zeta. destruct (bool_decide _); rewrite ?app_nil_l; intros H;
      [|by apply elem_of_nil in H].
    right. apply list_elem_of_singleton in H as ->. eauto.
  - rewrite app_nil_l. intros ->%list_elem_of_singleton. by left.
Qed.

Lemma check_permissions_notes headers x :
  x ∈ HTTP.check_permissions headers [] ->
  x = "Permissions-Policy missing (not critical but recommended)" /\
  Py.truthy (headers !! "permissions-policy") = false.
Proof.
  unfold HTTP.check_permissions.
  destruct (Py.truthy (headers !! "permissions-policy")); cbn [negb];
    rewrite ?app_nil_l; intros H; [by apply elem_of_nil in H|].
  by apply list_elem_of_singleton in H as ->.
Qed.

Lemma check_xxp_notes headers x :
  x ∈ HTTP.check_xxp headers [] ->
  exists v, x = "X-XSS-Protection present (legacy): '" +:+ v +:+ "'".
Proof.
  unfold HTTP.check_xxp.
  destruct (Py.truthy (headers !! "x-xss-protection"));
    rewrite ?app_nil_l; intros H; [|by apply elem_of_nil in H].
  apply list_elem_of_singleton in H as ->. eauto.
Qed.

(** A header without a usable value leaves its note. *)
Lemma missing_note_left headers h note :
  missing_note h = Some note ->
  Py.truthy (headers !! h) = false ->
  note ∈ HTTP.check_hsts headers [] ++ HTTP.check_csp headers []
         ++ HTTP.check_xcto headers [] ++ HTTP.check_xfo headers []
         ++ HTTP.check_referrer headers [] ++ HTTP.check_permissions headers []
         ++ HTTP.check_xxp headers [].
Proof.
  unfold missing_note.
  repeat (match goal with
          | |- context [String.eqb h ?s] => destruct (String.eqb_spec h s) as [-> | _]
          end;
          [intros [= <-] Ht; rewrite !elem_of_app;
           unfold HTTP.check_hsts, HTTP.check_csp, HTTP.check_xcto, HTTP.check_xfo,
             HTTP.check_referrer, HTTP.check_permissions;
           rewrite Ht; cbn [negb app]; rewrite !list_elem_of_singleton; tauto |]).
  discriminate.
Qed.

(** X10: the note that a header is missing is among the findings exactly
    when the response has no usable value for it, that is when the header
    is absent or was sent with an empty value.  So every header listed as
    missing has its note, and a header sent with an empty value has the
    note although it is not listed as missing.  This holds for the five
    required headers and for [permissions-policy]; a missing
    [x-xss-protection] leaves no note. *)
Theorem X10_missing_note_iff_no_value (resp : HTTP.Response) (h note : string) :
  missing_note h = Some note ->
  let headers := HTTP.lowercased (HTTP.resp_headers resp) in
  (note ∈ (HTTP.check_security_headers resp).2 <-> Py.truthy (headers !! h) = false)
  /\ (h ∈ ((HTTP.check_security_headers resp).1.1 ++ (HTTP.check_security_headers resp).1.2) ->
      note ∈ (HTTP.check_security_headers resp).2)
  /\ (headers !! h = Some "" ->
      (h ∉ ((HTTP.check_security_headers resp).1.1 ++ (HTTP.check_security_headers resp).1.2)) /\
      note ∈ (HTTP.check_security_headers resp).2).
Proof.
  intros Hnote headers.
  assert (Hiff : note ∈ (HTTP.check_security_headers resp).2
                 <-> Py.truthy (headers !! h) = false).
  { rewrite findings_blocks. fold headers. split; [|by apply missing_note_left].
    rewrite !elem_of_app.
    intros [H%check_hsts_notes | [H%check_csp_notes | [H%check_xcto_notes
           | [H%check_xfo_notes | [H%check_referrer_notes
           | [H%check_permissions_notes | H%check_xxp_notes]]]]]];
      unfold missing_note in Hnote;
      repeat (match type of Hnote with
              | context [String.eqb h ?s] => destruct (String.eqb_spec h s) as [-> | _]
              end;
              [injection Hnote as <-;
               repeat match goal with
                      | H : _ \/ _ |- _ => destruct H as [H | H]
                      | H : _ /\ _ |- _ => destruct H as [H ?]
                      | H : exists _, _ |- _ => destruct H as [? H]
                      end; first [done | discriminate] |]);
      discriminate. }
  split; [exact Hiff|].
  assert (Hlisted : forall l : list string, h ∈ filter (fun h => headers !! h = None) l ->
                                            headers !! h = None).
  { intros l. rewrite list_elem_of_filter. tauto. }
  unfold HTTP.check_security_headers at 1 2 4 5. fold headers. cbn [fst snd]. split.
  - intros [Hin | Hin]%elem_of_app; apply Hiff; by rewrite (Hlisted _ Hin).
  - intros Hempty. split; [|apply Hiff; by rewrite Hempty].
    intros [Hin | Hin]%elem_of_app; apply Hlisted in Hin; congruence.
Qed.

Lemma X10_missing_note_iff_no_value_witness :
  let resp := HTTP.mkResponse "https://site.example/" 200 [("X-Frame-Options", "")] in
  missing_note "x-frame-options"
    = Some "X-Frame-Options missing (consider SAMEORIGIN or DENY)"
  /\ "X-Frame-Options missing (consider SAMEORIGIN or DENY)"
       ∈ (HTTP.check_security_headers resp).2.
Proof.
  intros resp. split; [reflexivity|].
  refine (proj2 (proj2 (proj2 (X10_missing_note_iff_no_value resp "x-frame-options" _ eq_refl))
                   _)).
  vm_compute. reflexivity.
Defined.

(** ** The HSTS lifetime *)

Lemma contains_char_app c a b :
  Py.contains (String c "") (a +:+ b)
  = Py.contains (String c "") a || Py.contains (String c "") b.
Proof.
  induction a as [|d a IH].
  - rewrite app_empty_l. by destruct b.
  - rewrite app_cons, !contains_char_cons, IH. by rewrite orb_assoc.
Qed.

Lemma all_digits_without c s :
  Py.isdigit_char c = false -> Py.all_digits s = true -> Py.contains (String c "") s = false.
Proof.
  intros Hc. induction s as [|d s IH]; [done|]. cbn [Py.all_digits].
  intros [Hd Hs]%andb_prop. rewrite contains_char_cons, (IH Hs), orb_false_r.
  destruct (Ascii.eqb_spec c d) as [-> | _]; [congruence | done].
Qed.

Lemma split_first sep h :
  Py.contains (String sep "") h = false ->
  Py.split sep h = [h] /\ forall rest, Py.split sep (h +:+ String sep rest) = h :: Py.split sep rest.
Proof.
  induction h as [|c h IH]; intros Hh.
  - split; [done|]. intros rest. rewrite app_empty_l. cbn [Py.split].
    by rewrite Ascii.eqb_refl.
  - rewrite contains_char_cons in Hh. apply orb_false_elim in Hh as [Hc Hh].
    destruct (IH Hh) as [Hone Hmore]. rewrite (Ascii.eqb_sym sep c) in Hc.
    split; [|intros rest; rewrite app_cons]; cbn [Py.split];
      destruct (Ascii.eqb c sep); try done; by rewrite ?Hone, ?Hmore.
Qed.

Lemma isdigit_all_digits s : Py.isdigit s = true -> Py.all_digits s = true /\ s <> "".
Proof. by destruct s. Qed.

Lemma check_hsts_lifetime (headers : gmap string string)
    (findings : list string) (digits tail : string) :
  Py.isdigit digits = true ->
  tail = "" \/ Py.startswith ";" tail = true ->
  headers !! "strict-transport-security" = Some ("max-age=" +:+ digits +:+ tail) ->
  exists seconds,
    Py.int digits = Some seconds /\ 0 <= seconds /\
    HTTP.check_hsts headers findings
    = if seconds <? 15552000
      then findings ++ ["HSTS max-age < 6 months (consider increasing)"]
      else findings.
Proof.
  intros Hdigits Htail Hget.
  destruct (int_isdigit digits Hdigits) as (seconds & Hint & Hpos).
  exists seconds. split; [done|]. split; [done|].
  destruct (isdigit_all_digits digits Hdigits) as [Hall Hne].
  set (part := "max-age=" +:+ digits).
  assert (Hstrip : Py.strip part = part).
  { unfold Py.strip. change (Py.lstrip part) with part. unfold part.
    rewrite rstrip_app; by rewrite (all_digits_rstrip _ Hall). }
  assert (Hsemi : Py.contains ";" part = false).
  { unfold part. rewrite contains_char_app, (all_digits_without ";" digits); done. }
  assert (Hparts : exists others,
             Py.strip <$> Py.split ";" ("max-age=" +:+ digits +:+ tail) = part :: others).
  { destruct (split_first ";" part Hsemi) as [Hone Hmore].
    destruct Htail as [-> | [rest ->]%startswith_spec].
    - rewrite app_empty_r. fold part. rewrite Hone. exists []. by rewrite <- Hstrip at 2.
    - rewrite <- app_assoc'. fold part. change (";" +:+ rest) with (String ";" rest).
      rewrite Hmore. eexists. cbn [fmap list_fmap]. by rewrite Hstrip. }
  destruct Hparts as [others Hparts].
  unfold HTTP.check_hsts. rewrite Hget. cbn [default from_option id].
  change (Py.truthy (Some ("max-age=" +:+ digits +:+ tail))) with true.
  change (Py.contains "max-age" (Py.lower ("max-age=" +:+ digits +:+ tail))) with true.
  cbn [negb]. cbv zeta. rewrite Hparts.
  rewrite filter_cons_True by (unfold part; exact I).
  cbn [head default from_option id].
  change (Py.contains "=" part) with true.
  change (Py.split1 "=" part) with ["max-age"; digits].
  cbv iota. by rewrite Hint.
Qed.




(** ** The shape of a fetched chain *)

(** X12: a chain that [fetch_url] hands back without error is what the
    walk through the server gives: it starts with the response to the URL
    asked for, each response but the last is a 3xx with a [Location]
    header, each next request goes to that location resolved against the
    URL of the response, and the world handed back is the one after these
    requests.  The chain has between one and ten responses, and it stops at
    a response that is not a 3xx, or has no [Location], or is the tenth. *)
Theorem X12_fetched_chain_is_a_walk web timeout w url w' rs :
  HTTP.fetch_url web w url timeout = (w', (rs, None)) ->
  walked web timeout w url rs w'
  /\ (1 <= length rs <= HTTP.max_redirects)%nat
  /\ exists final_resp,
       last rs = Some final_resp /\
       (HTTP.is_redirect (HTTP.resp_status_code final_resp) = false
        \/ HTTP.headers_get "location" (HTTP.resp_headers final_resp) = None
        \/ length rs = HTTP.max_redirects).
Proof.
  intros Hfetch.
  pose proof (fetch_url_cases web timeout w url) as Hcases. rewrite Hfetch in Hcases.
  destruct Hcases as [[[? ?] _] | (_ & (w1 & first & more & Hget & ->) & (final & Hlast & Hcond) & Hlen)];
    [done|].
  split; [|split].
  - pose proof (fetch_url_fuel_enough web timeout HTTP.max_redirects w url (le_n _)) as H.
    rewrite Hfetch in H. unfold HTTP.fetch_url_fuel in H. rewrite Hget in H.
    apply (follow_walked web timeout _ w1 first [first] w' _ w url (walked_last _ _ _ _ _ _ Hget)
             eq_refl H).
  - cbn [length] in *. lia.
  - exists final. split; [done|]. unfold loop_condition in Hcond.
    apply andb_false_iff in Hcond as [[Hred | Hloc]%andb_false_iff | Hfull].
    + by left.
    + right. left. unfold HTTP.headers_contains in Hloc.
      apply bool_decide_eq_false in Hloc.
      destruct (HTTP.headers_get "location" _); [|done]. by destruct Hloc.
    + right. right. apply bool_decide_eq_false in Hfull. lia.
Qed.

Lemma X12_fetched_chain_is_a_walk_witness :
  let w := [Script.found "https://site.example/a"; Script.found "/b"; Script.page []] in
  let fetched := HTTP.fetch_url Script.web w "https://site.example/" 10 in
  fetched.2.2 = None
  /\ walked Script.web 10 w "https://site.example/" fetched.2.1 [].
Proof.
  intros w fetched. split; [reflexivity|].
  exact (proj1 (X12_fetched_chain_is_a_walk Script.web 10 w "https://site.example/"
                  fetched.1 fetched.2.1 eq_refl)).
Defined.

Lemma never_both_schemes s : String.eqb s "https" && String.eqb s "http" = false.
Proof.
  destruct (String.eqb_spec s "https") as [-> | _]; [reflexivity | done].
Qed.

(** X13: when the first response is not a 3xx, or is a 3xx without a
    [Location] header, [fetch_url] issues that one request and nothing
    more, and [analyse_target] reports it as the final response with a
    chain of that single URL.  A chain of a single response never counts as
    a downgrade. *)
Theorem X13_direct_answer web timeout w raw url w1 resp :
  HTTP.normalize_url web raw = Ok url ->
  HTTP.get web w url timeout = (w1, Ok resp) ->
  HTTP.is_redirect (HTTP.resp_status_code resp) = false
  \/ HTTP.headers_contains "location" (HTTP.resp_headers resp) = false ->
  HTTP.fetch_url web w url timeout = (w1, ([resp], None))
  /\ exists r,
       HTTP.analyse_target web w raw timeout = (w1, Ok r) /\
       HTTP.url r = url /\ HTTP.error r = None /\
       HTTP.final_url r = Some (HTTP.resp_url resp) /\
       HTTP.status_code r = Some (HTTP.resp_status_code resp) /\
       HTTP.redirect_chain r = HTTP.resp_url resp /\
       HTTP.https_downgrade r = false.
Proof.
  intros Hnorm Hget Hstop.
  assert (Hfetch : HTTP.fetch_url web w url timeout = (w1, ([resp], None))).
  { pose proof (fetch_url_fuel_enough web timeout HTTP.max_redirects w url (le_n _)) as H.
    unfold HTTP.fetch_url_fuel in H. rewrite Hget, follow_stop in H; [by injection H|].
    unfold loop_condition. destruct Hstop as [-> | ->]; [done | by rewrite andb_false_r]. }
  split; [exact Hfetch|].
  destruct (analyse_target_fetched web timeout w raw url w1 [resp] resp resp
              Hnorm Hfetch eq_refl eq_refl)
    as (first_scheme & final_scheme & Hfirst & Hfinal & Hrec).
  rewrite Hfirst in Hfinal. injection Hfinal as <-.
  exists (site_record url [resp] first_scheme first_scheme resp).
  split; [done|].
  cbn [site_record HTTP.url HTTP.error HTTP.final_url HTTP.status_code
       HTTP.redirect_chain HTTP.https_downgrade map Py.join].
  by rewrite never_both_schemes.
Qed.

Lemma X13_direct_answer_witness :
  let run := HTTP.analyse_target Script.web [Script.page []] "site.example" 10 in
  HTTP.normalize_url Script.web "site.example" = Ok "https://site.example"
  /\ HTTP.fetch_url Script.web [Script.page []] "https://site.example" 10
     = ([], ([HTTP.mkResponse "https://site.example" 200 []], None)).
Proof.
  intros run.
  assert (Hnorm : HTTP.normalize_url Script.web "site.example" = Ok "https://site.example")
    by (vm_compute; reflexivity).
  split; [exact Hnorm|].
  refine (proj1 (X13_direct_answer Script.web 10 [Script.page []] "site.example"
                   "https://site.example" [] (HTTP.mkResponse "https://site.example" 200 [])
                   Hnorm eq_refl _)).
  by left.
Defined.

(** ** The batch of the weak-configuration scanner *)

Lemma gather_urls_collected {web} files (args : WeakConfig.Args web) :
  WeakConfig.gather_urls files args =
  match WeakConfig.arg_input args with
  | Some path =>
      match files !! path with
      | None => Raise (FileNotFoundError ("Input file not found: " +:+ path))
      | Some (Raise e) => Raise e
      | Some (Ok lines) =>
          match first_seen (collected (WeakConfig.arg_url args) (WeakConfig.arg_urls args)
                              lines) with
          | [] => Raise (ValueError "No URLs specified. Use --url, --urls, or --input.")
          | unique => Ok unique
          end
      end
  | None =>
      match first_seen (collected (WeakConfig.arg_url args) (WeakConfig.arg_urls args) []) with
      | [] => Raise (ValueError "No URLs specified. Use --url, --urls, or --input.")
      | unique => Ok unique
      end
  end.
Proof.
  unfold WeakConfig.gather_urls, collected. cbv zeta.
  change WeakConfig.unique_step with TLS.unique_step.
  change WeakConfig.load_urls_from_file with TLS.load_targets_from_file.
  rewrite !app_nil_l.
  assert (Hfile : forall lines front : list string,
            front ++ TLS.load_targets_from_file lines
            = front ++ filter kept_line (Py.strip <$> lines))
    by (intros; by rewrite load_targets_filter).
  destruct (Py.truthy (WeakConfig.arg_url args)), (Py.truthy (WeakConfig.arg_urls args));
    rewrite ?comma_loop, ?app_nil_l, ?app_nil_r;
    (destruct (WeakConfig.arg_input args) as [path|];
     [destruct (files !! path) as [[lines|e]|]; [|done|done] |]);
    rewrite unique_targets_first_seen, ?Hfile, <- ?app_assoc, ?app_nil_l;
    cbn [fmap list_fmap filter list_filter]; rewrite ?app_nil_r;
    match goal with |- context [first_seen ?l] => by destruct (first_seen l) end.
Qed.

Lemma gather_urls_Ok {web} files (args : WeakConfig.Args web) urls :
  WeakConfig.gather_urls files args = Ok urls ->
  urls = first_seen (collected (WeakConfig.arg_url args) (WeakConfig.arg_urls args)
                       (input_lines files (WeakConfig.arg_input args)))
  /\ urls <> [].
Proof.
  rewrite gather_urls_collected. unfold input_lines.
  destruct (WeakConfig.arg_input args) as [path|];
    [destruct (files !! path) as [[lines|e]|]|];
    try discriminate;
    destruct (first_seen _); try discriminate; by intros [= <-].
Qed.

Lemma collected_trimmed single comma lines u :
  u ∈ collected single comma lines -> single = Some u \/ (Py.strip u = u /\ u <> "").
Proof.
  unfold collected. rewrite !elem_of_app. intros [H | [H | H]].
  - left. destruct single as [[|c s]|]; cbn in H; try by apply elem_of_nil in H.
    by apply list_elem_of_singleton in H as ->.
  - right. destruct (Py.truthy comma); [|by apply elem_of_nil in H].
    apply list_elem_of_filter in H as [Hne (x & -> & _)%list_elem_of_fmap].
    by rewrite strip_idem.
  - right. apply list_elem_of_filter in H as [[Hne _] (x & -> & _)%list_elem_of_fmap].
    by rewrite strip_idem.
Qed.

(** X14: the list [gather_urls] returns is never empty, has no duplicate
    and keeps the collected entries at their first occurrence.  Every entry
    taken from [--urls] or from the input file is trimmed and non-empty;
    only the value of [--url], which is taken as it was typed, can be blank
    or carry surrounding whitespace. *)
Theorem X14_gather_urls_entries {web} files (args : WeakConfig.Args web) urls :
  WeakConfig.gather_urls files args = Ok urls ->
  urls = first_seen (collected (WeakConfig.arg_url args) (WeakConfig.arg_urls args)
                       (input_lines files (WeakConfig.arg_input args)))
  /\ urls <> [] /\ NoDup urls
  /\ forall u, u ∈ urls ->
       WeakConfig.arg_url args = Some u \/ (Py.strip u = u /\ u <> "").
Proof.
  intros Hgather. destruct (gather_urls_Ok files args urls Hgather) as [Heq Hne].
  split; [done|]. split; [done|]. rewrite Heq. split; [apply first_seen_NoDup|].
  intros u Hu. rewrite first_seen_elem_of in Hu. by eapply collected_trimmed.
Qed.

Lemma X14_gather_urls_entries_witness :
  let args := @WeakConfig.mkArgs Script.web (Some " ") (Some "a.example, b.example ,a.example")
                None 10 in
  WeakConfig.gather_urls ∅ args = Ok [" "; "a.example"; "b.example"]
  /\ NoDup [" "; "a.example"; "b.example"].
Proof.
  intros args.
  assert (H : WeakConfig.gather_urls ∅ args = Ok [" "; "a.example"; "b.example"])
    by (vm_compute; reflexivity).
  split; [exact H|].
  exact (proj1 (proj2 (proj2 (X14_gather_urls_entries ∅ args _ H)))).
Defined.

Section Scan.
Context (web : HTTP.Web) (timeout : HTTP.Timeout web).

Lemma normalize_url_blank raw :
  Py.strip raw = "" -> HTTP.normalize_url web raw = Raise (ValueError "Empty URL").
Proof. intros Hblank. unfold HTTP.normalize_url. by rewrite Hblank. Qed.

(** [analyse_target] raises when [normalize_url] does, before any
    request, and in no other case: for an entry that normalises it hands
    back a record that goes by the normalised URL. *)
Lemma analyse_target_total w raw :
  (exists url w' r,
     HTTP.normalize_url web raw = Ok url /\
     HTTP.analyse_target web w raw timeout = (w', Ok r) /\ HTTP.url r = url)
  \/ (exists e,
        HTTP.normalize_url web raw = Raise e /\
        HTTP.analyse_target web w raw timeout = (w, Raise e)).
Proof.
  destruct (HTTP.normalize_url web raw) as [url|e] eqn:Hnorm.
  - left. exists url.
    pose proof (fetch_url_cases web timeout w url) as Hcases.
    destruct (HTTP.fetch_url web w url timeout) as [w' [rs err]] eqn:Hfetch.
    destruct Hcases
      as [[[e ->] ->] | (-> & (w1 & first & more & _ & ->) & (final & Hlast & _) & _)].
    + exists w', (site_error url e). split; [done|]. split; [|done].
      by eapply analyse_target_failed.
    + destruct (analyse_target_fetched web timeout w raw url w' _ first final
                  Hnorm Hfetch eq_refl Hlast)
        as (first_scheme & final_scheme & _ & _ & Hrec).
      by exists w', (site_record url (first :: more) first_scheme final_scheme final).
  - right. exists e. split; [done|]. unfold HTTP.analyse_target. by rewrite Hnorm.
Qed.

Lemma scan_raised urls : forall w e,
  foldl (WeakConfig.scan web timeout) (w, Raise e) urls = (w, Raise e).
Proof. induction urls as [|u urls IH]; intros w e; [done|]. cbn [foldl]. apply IH. Qed.

Lemma scan_loop_ok urls : forall w results,
  (forall u, u ∈ urls -> exists url, HTTP.normalize_url web u = Ok url) ->
  exists w' rs,
    foldl (WeakConfig.scan web timeout) (w, Ok results) urls = (w', Ok (results ++ rs)) /\
    Forall2 (fun u r => HTTP.normalize_url web u = Ok (HTTP.url r)) urls rs.
Proof.
  induction urls as [|u urls IH]; intros w results Hall.
  - exists w, []. by rewrite app_nil_r.
  - cbn [foldl]. unfold WeakConfig.scan at 2. cbn [fst snd].
    destruct (analyse_target_total w u)
      as [(url & w1 & r & Hnorm & -> & Hurl) | (e & Hraise & _)].
    + destruct (IH w1 (results ++ [r])) as (w' & rs & -> & Hrs).
      { intros u' Hu'. apply Hall. by right. }
      exists w', (r :: rs). rewrite <- app_assoc. split; [done|].
      constructor; [by rewrite Hurl | done].
    + destruct (Hall u) as [url Hnorm]; [by left | congruence].
Qed.

(** The run ends at the first entry that does not normalise. *)
Lemma scan_loop_raise w results u rest e :
  HTTP.normalize_url web u = Raise e ->
  foldl (WeakConfig.scan web timeout) (w, Ok results) (u :: rest) = (w, Raise e).
Proof.
  intros Hraise. cbn [foldl]. unfold WeakConfig.scan at 2.
  cbn [fst snd].
  destruct (analyse_target_total w u) as [(url & _ & _ & Hnorm & _) | (e' & Hraise' & ->)];
    [congruence|].
  rewrite Hraise in Hraise'. injection Hraise' as <-. apply scan_raised.
Qed.

End Scan.

(** X15: when every gathered URL normalises, that is when none is blank
    and [urlparse] refuses none, the scanner's [main] returns status 0 with
    exactly one record per URL, in the order of the URLs, and the record of
    a URL goes by its normalised form, whether the fetch succeeded or
    failed. *)
Theorem X15_scanner_one_record_per_url web files w (args : WeakConfig.Args web) urls :
  WeakConfig.gather_urls files args = Ok urls ->
  (forall u, u ∈ urls -> exists url, HTTP.normalize_url web u = Ok url) ->
  exists w' results,
    WeakConfig.main web files w args = (w', Ok (0, results)) /\
    length results = length urls /\
    forall (i : nat) u, urls !! i = Some u ->
      exists r, results !! i = Some r /\ HTTP.normalize_url web u = Ok (HTTP.url r).
Proof.
  intros Hgather Hall. unfold WeakConfig.main. rewrite Hgather.
  destruct (scan_loop_ok web (WeakConfig.arg_timeout args) urls w [] Hall)
    as (w' & rs & -> & Hrs).
  exists w', rs. split; [done|]. split; [symmetry; by eapply Forall2_length|].
  intros i u Hi. destruct (Forall2_lookup_l _ _ _ _ _ Hrs Hi) as (r & Hr & Hnorm).
  by exists r.
Qed.

Lemma X15_scanner_one_record_per_url_witness :
  let args := @WeakConfig.mkArgs Script.web None (Some "a.example,b.example") None 10 in
  let w := [Script.page []; Script.timed_out] in
  WeakConfig.gather_urls ∅ args = Ok ["a.example"; "b.example"]
  /\ exists w' results,
       WeakConfig.main Script.web ∅ w args = (w', Ok (0, results)) /\
       length results = 2%nat.
Proof.
  intros args w.
  assert (H : WeakConfig.gather_urls ∅ args = Ok ["a.example"; "b.example"])
    by (vm_compute; reflexivity).
  split; [exact H|].
  destruct (X15_scanner_one_record_per_url Script.web ∅ w args _ H)
    as (w' & results & Hmain & Hlen & _).
  { intros u. rewrite !elem_of_cons, elem_of_nil.
    intros [-> | [-> | []]]; eexists; vm_compute; reflexivity. }
  by exists w', results.
Defined.

(** A URL that [urlparse] refuses ends the run as a blank one does: the
    record of the URL scanned before it is lost with the run. *)
Example refused_url_ends_the_run :
  let args := @WeakConfig.mkArgs Script.web None (Some "a.example,http://[") None 10 in
  WeakConfig.gather_urls ∅ args = Ok ["a.example"; "http://["]
  /\ WeakConfig.main Script.web ∅ [Script.page []] args
     = ([], Raise (ValueError "Invalid IPv6 URL")).
Proof. split; vm_compute; reflexivity. Qed.

(** X16: a blank URL ends the scanner's run.  [analyse_target] raises
    "Empty URL" for it and [main] does not catch it: the run ends with
    that exception instead of a status, and no record is handed to the
    writers.  Only the value of [--url] can be blank, so this happens
    exactly when [--url] is given as whitespace. *)
Theorem X16_blank_url_ends_the_run web files w (args : WeakConfig.Args web) urls u :
  WeakConfig.gather_urls files args = Ok urls ->
  u ∈ urls -> Py.strip u = "" ->
  WeakConfig.arg_url args = Some u
  /\ exists w', WeakConfig.main web files w args = (w', Raise (ValueError "Empty URL")).
Proof.
  intros Hgather Hin Hblank.
  destruct (gather_urls_Ok files args urls Hgather) as [Heq _].
  rewrite Heq, first_seen_elem_of in Hin.
  assert (Hne : u <> "") by (by eapply collected_nonempty).
  assert (Hurl : WeakConfig.arg_url args = Some u).
  { destruct (collected_trimmed _ _ _ _ Hin) as [? | [Hfix _]]; [done|]. congruence. }
  split; [exact Hurl|]. exists w.
  unfold WeakConfig.main. rewrite Hgather.
  assert (Hhead : exists rest, urls = u :: rest).
  { rewrite Heq. unfold collected. rewrite Hurl, (proj2 (truthy_Some u) Hne).
    cbn [default from_option id app first_seen]. by eexists. }
  destruct Hhead as [rest ->].
  by rewrite (scan_loop_raise web (WeakConfig.arg_timeout args) w [] u rest
                (ValueError "Empty URL") (normalize_url_blank web u Hblank)).
Qed.

Lemma X16_blank_url_ends_the_run_witness :
  let args := @WeakConfig.mkArgs Script.web (Some "  ") (Some "a.example") None 10 in
  WeakConfig.gather_urls ∅ args = Ok ["  "; "a.example"]
  /\ exists w', WeakConfig.main Script.web ∅ [Script.page []] args
                = (w', Raise (ValueError "Empty URL")).
Proof.
  intros args.
  assert (H : WeakConfig.gather_urls ∅ args = Ok ["  "; "a.example"])
    by (vm_compute; reflexivity).
  split; [exact H|].
  refine (proj2 (X16_blank_url_ends_the_run Script.web ∅ [Script.page []] args _ "  " H _ _)).
  - apply list_elem_of_here.
  - vm_compute. reflexivity.
Defined.

(** ** A response that passes every check *)

(** X17: a response passes every header check, with nothing listed as
    missing among the required headers and no finding at all, when it sends
    an HSTS lifetime of at least 15552000 seconds, a non-empty
    Content-Security-Policy, [nosniff], a frame option of [deny] or
    [sameorigin], a Referrer-Policy that is neither of the two weak values,
    a non-empty Permissions-Policy, and no X-XSS-Protection value; the
    fixed values are compared without regard to case. *)
Theorem X17_hardened_response_is_clean (resp : HTTP.Response)
    (digits tail csp xcto xfo rp pp : string) (seconds : Z) :
  let headers := HTTP.lowercased (HTTP.resp_headers resp) in
  headers !! "strict-transport-security" = Some ("max-age=" +:+ digits +:+ tail) ->
  Py.isdigit digits = true ->
  tail = "" \/ Py.startswith ";" tail = true ->
  Py.int digits = Some seconds -> 15552000 <= seconds ->
  headers !! "content-security-policy" = Some csp -> csp <> "" ->
  headers !! "x-content-type-options" = Some xcto -> Py.lower xcto = "nosniff" ->
  headers !! "x-frame-options" = Some xfo ->
  Py.lower xfo = "deny" \/ Py.lower xfo = "sameorigin" ->
  headers !! "referrer-policy" = Some rp -> rp <> "" ->
  Py.lower rp <> "no-referrer-when-downgrade" -> Py.lower rp <> "unsafe-url" ->
  headers !! "permissions-policy" = Some pp -> pp <> "" ->
  Py.truthy (headers !! "x-xss-protection") = false ->
  (HTTP.check_security_headers resp).1.1 = []
  /\ (HTTP.check_security_headers resp).2 = [].
Proof.
  intros headers Hhsts Hdigits Htail Hint Hlong Hcsp Hcsp' Hxcto Hxcto' Hxfo Hxfo'
    Hrp Hrp' Hweak1 Hweak2 Hpp Hpp' Hxxp.
  split.
  - unfold HTTP.check_security_headers. fold headers. cbn [fst].
    unfold HTTP.REQUIRED_HEADERS.
    rewrite !filter_cons, filter_nil, Hhsts, Hcsp, Hxcto, Hxfo, Hrp.
    by repeat case_decide.
  - rewrite findings_blocks. fold headers.
    destruct (check_hsts_lifetime headers [] digits tail Hdigits Htail Hhsts)
      as (seconds' & Hint' & _ & ->).
    rewrite Hint in Hint'. injection Hint' as <-.
    rewrite (proj2 (Z.ltb_ge _ _) Hlong).
    unfold HTTP.check_csp, HTTP.check_xcto, HTTP.check_xfo, HTTP.check_referrer,
      HTTP.check_permissions, HTTP.check_xxp.
    rewrite Hcsp, Hxcto, Hxfo, Hrp, Hpp, Hxxp.
    rewrite (proj2 (truthy_Some csp) Hcsp'), (proj2 (truthy_Some rp) Hrp'),
      (proj2 (truthy_Some pp) Hpp').
    assert (Hxcto_ne : Py.truthy (Some xcto) = true) by (destruct xcto; done).
    assert (Hxfo_ne : Py.truthy (Some xfo) = true) by (destruct xfo; [by destruct Hxfo'|done]).
    rewrite Hxcto_ne, Hxfo_ne. cbn [negb default from_option id]. cbv zeta.
    rewrite Hxcto'. cbn [String.eqb Ascii.eqb Bool.eqb negb].
    rewrite (bool_decide_eq_true_2 (Py.lower xfo ∈ ["deny"; "sameorigin"]))
      by (rewrite !elem_of_cons; tauto).
    rewrite bool_decide_eq_false_2
      by (rewrite elem_of_union, !elem_of_singleton; tauto).
    done.
Qed.

Lemma X17_hardened_response_is_clean_witness :
  let resp := HTTP.mkResponse "https://site.example/" 200
    [ ("Strict-Transport-Security", "max-age=31536000; includeSubDomains");
      ("Content-Security-Policy", "default-src 'self'");
      ("X-Content-Type-Options", "NoSniff");
      ("X-Frame-Options", "SAMEORIGIN");
      ("Referrer-Policy", "strict-origin-when-cross-origin");
      ("Permissions-Policy", "geolocation=()") ] in
  HTTP.check_security_headers resp = ([], ["x-xss-protection"], []).
Proof.
  intros resp.
  destruct (X17_hardened_response_is_clean resp "31536000" "; includeSubDomains"
              "default-src 'self'" "NoSniff" "SAMEORIGIN" "strict-origin-when-cross-origin"
              "geolocation=()" 31536000) as [Hrequired Hfindings];
    [reflexivity | reflexivity | by right | reflexivity | lia
    | reflexivity | discriminate | reflexivity | reflexivity
    | reflexivity | by right | reflexivity | discriminate
    | vm_compute; discriminate | vm_compute; discriminate
    | reflexivity | discriminate | reflexivity |].
  destruct (HTTP.check_security_headers resp) as [[required optional] findings] eqn:H.
  cbn [fst snd] in Hrequired, Hfindings. subst required findings.
  f_equal. f_equal. apply (f_equal (fun x => x.1.2)) in H. cbn [fst snd] in H.
  rewrite <- H. vm_compute. reflexivity.
Defined.

(** ** Where the error of a fetch comes from *)


(** X18: when [fetch_url] hands back an error, the chain is empty and the
    error is the exception of the step of the walk that raised: the first
    request, or, after a run of fewer than ten responses that ends in a 3xx
    with a [Location], the resolution of that [Location] against the URL of
    the response or the request of the resolved URL.  No other step
    produces the error, and the world handed back is the one that step
    left. *)
Theorem X18_fetch_error_is_a_failed_step web timeout w url w' rs e :
  HTTP.fetch_url web w url timeout = (w', (rs, Some e)) ->
  rs = []
  /\ (HTTP.get web w url timeout = (w', Raise e)
      \/ exists run w1 final_resp location,
           walked web timeout w url run w1 /\ last run = Some final_resp /\
           HTTP.is_redirect (HTTP.resp_status_code final_resp) = true /\
           HTTP.headers_get "location" (HTTP.resp_headers final_resp) = Some location /\
           (length run < HTTP.max_redirects)%nat /\
           (HTTP.urljoin web (HTTP.resp_url final_resp) location = Raise e /\ w' = w1
            \/ exists next_url,
                 HTTP.urljoin web (HTTP.resp_url final_resp) location = Ok next_url /\
                 HTTP.get web w1 next_url timeout = (w', Raise e))).
Proof.
  intros Hfetch. split.
  - pose proof (fetch_url_cases web timeout w url) as Hcases. rewrite Hfetch in Hcases.
    by destruct Hcases as [[_ ->] | [? _]].
  - exact (fetch_url_failed web timeout w url w' rs e Hfetch).
Qed.

Lemma X18_fetch_error_is_a_failed_step_witness :
  let w := [Script.found "https://site.example/login"; Script.timed_out] in
  HTTP.fetch_url Script.web w "https://site.example/" 10
    = ([], ([], Some (mkException "Read timed out")))
  /\ [] = @nil HTTP.Response.
Proof.
  intros w.
  assert (H : HTTP.fetch_url Script.web w "https://site.example/" 10
              = ([], ([], Some (mkException "Read timed out"))))
    by (vm_compute; reflexivity).
  split; [exact H|].
  exact (eq_sym (proj1 (X18_fetch_error_is_a_failed_step Script.web 10 _ _ _ _ _ H))).
Defined.

(** ** Composed targets *)

Lemma rsplit1_app c h t :
  Py.contains (String c "") t = false -> Py.rsplit1 c (h +:+ String c t) = [h; t].
Proof.
  intros Ht. induction h as [|a h IH].
  - rewrite app_empty_l. cbn [Py.rsplit1].
    pose proof (rsplit1_spec c t) as Hspec. rewrite Ht in Hspec. rewrite Hspec.
    by rewrite Ascii.eqb_refl.
  - rewrite app_cons. cbn [Py.rsplit1]. by rewrite IH.
Qed.

Lemma lstrip_app h t : Py.lstrip h = h -> h <> "" -> Py.lstrip (h +:+ t) = h +:+ t.
Proof.
  destruct h as [|c h]; [done|]. intros Hl _. rewrite app_cons. cbn [Py.lstrip] in *.
  destruct (Py.isspace c); [|done].
  pose proof (lstrip_length h) as Hlen. rewrite Hl in Hlen.
  cbn [String.length] in Hlen. lia.
Qed.

Lemma strip_host_port host digits :
  Py.lstrip host = host -> Py.isdigit digits = true ->
  Py.strip (host +:+ ":" +:+ digits) = host +:+ ":" +:+ digits.
Proof.
  intros Hhost Hdigits. destruct (isdigit_all_digits digits Hdigits) as [Hall Hne].
  assert (Hright : Py.rstrip (":" +:+ digits) = ":" +:+ digits).
  { rewrite rstrip_app; by rewrite (all_digits_rstrip _ Hall). }
  unfold Py.strip.
  assert (Hleft : Py.lstrip (host +:+ ":" +:+ digits) = host +:+ ":" +:+ digits).
  { destruct (decide (host = "")) as [-> | Hhost_ne]; [done | by apply lstrip_app]. }
  rewrite Hleft, rstrip_app; rewrite Hright; [done | discriminate].
Qed.

Lemma parse_host_port host digits :
  Py.lstrip host = host -> Py.isdigit digits = true ->
  exists port,
    Py.int digits = Some port /\ 0 <= port /\
    TLS.parse_target (host +:+ ":" +:+ digits)
    = Ok (shell (host +:+ ":" +:+ digits) host port).
Proof.
  intros Hhost Hdigits. destruct (int_isdigit digits Hdigits) as (port & Hint & Hpos).
  exists port. split; [done|]. split; [done|].
  destruct (isdigit_all_digits digits Hdigits) as [Hall _].
  unfold TLS.parse_target. rewrite (strip_host_port host digits Hhost Hdigits).
  assert (Htruthy : Py.truthy (Some (host +:+ ":" +:+ digits)) = true) by (by destruct host).
  rewrite Htruthy. cbn [negb].
  assert (Hcolon : Py.contains ":" (host +:+ ":" +:+ digits) = true).
  { apply contains_spec. by exists host, digits. }
  rewrite Hcolon. cbn [negb].
  change (":" +:+ digits) with (String ":" digits).
  rewrite rsplit1_app by (by apply all_digits_without).
  by rewrite Hdigits, Hint.
Qed.



(** X20: duplicates are removed by the text of the entry, not by the
    endpoint it denotes.  A host listed once without a port and once with
    [:443] gives two entries, and the batch connects to the same host and
    port twice. *)
Theorem X20_same_endpoint_probed_twice net w timeout (host path : string) :
  Py.strip host = host -> host <> "" ->
  Py.contains ":" host = false -> Py.startswith "#" host = false ->
  let files : gmap string (result (list string)) :=
    {[ path := Ok [host; host +:+ ":443"] ]} in
  let args := @TLS.mkArgs net None None (Some path) timeout in
  TLS.gather_targets files args = Ok [host; host +:+ ":443"]
  /\ exists w' r1 r2,
       TLS.main net files w args = (w', (0, [r1; r2])) /\
       TLS.target r1 <> TLS.target r2 /\
       TLS.hostname r1 = host /\ TLS.hostname r2 = host /\
       TLS.port r1 = 443 /\ TLS.port r2 = 443.
Proof.
  intros Hstrip Hne Hcolon Hhash files args.
  destruct (strip_fixed_parts host Hstrip) as [Hleft _].
  assert (Hdiff : host <> host +:+ ":443").
  { intros Heq. apply (f_equal String.length) in Heq. revert Heq. clear.
    induction host as [|c host IH]; [done|]. rewrite app_cons. cbn [String.length]. lia. }
  assert (Hstrip2 : Py.strip (host +:+ ":443") = host +:+ ":443")
    by (by apply (strip_host_port host "443")).
  assert (Hparse1 : TLS.parse_target host = Ok (shell host host 443)).
  { unfold TLS.parse_target. rewrite Hstrip, (proj2 (truthy_Some _) Hne), Hcolon. done. }
  assert (Hparse2 : TLS.parse_target (host +:+ ":443") = Ok (shell (host +:+ ":443") host 443)).
  { destruct (parse_host_port host "443" Hleft eq_refl) as (port & Hint & _ & Hp).
    vm_compute in Hint. injection Hint as <-. exact Hp. }
  assert (Hgather : TLS.gather_targets files args = Ok [host; host +:+ ":443"]).
  { rewrite gather_targets_collected. unfold args, files. cbn [TLS.arg_input].
    rewrite lookup_singleton_eq. unfold collected.
    cbn [TLS.arg_target TLS.arg_targets Py.truthy app fmap list_fmap].
    rewrite Hstrip, Hstrip2.
    rewrite (filter_cons_True kept_line host) by done.
    rewrite (filter_cons_True kept_line (host +:+ ":443"))
      by (split; [by destruct host | by destruct host]).
    rewrite filter_nil. cbn [first_seen]. rewrite filter_nil.
    rewrite filter_cons_True by (intros Heq; by apply Hdiff). by rewrite filter_nil. }
  split; [exact Hgather|].
  pose proof (main_results net files w args) as H. rewrite Hgather in H.
  destruct H as (w' & results & Hmain & Hall).
  apply Forall2_cons_inv_l in Hall as (r1 & rest & Hr1 & Hall & ->).
  apply Forall2_cons_inv_l in Hall as (r2 & rest' & Hr2 & Hall & ->).
  apply Forall2_nil_inv_l in Hall as ->.
  exists w', r1, r2. split; [exact Hmain|].
  unfold produced in Hr1, Hr2. rewrite Hparse1 in Hr1. rewrite Hparse2 in Hr2.
  destruct Hr1 as [w1 ->], Hr2 as [w2 ->].
  pose proof (check_target_keeps net (TLS.arg_timeout args) w1 (shell host host 443))
    as (Ht1 & Hh1 & Hp1).
  pose proof (check_target_keeps net (TLS.arg_timeout args) w2
                (shell (host +:+ ":443") host 443)) as (Ht2 & Hh2 & Hp2).
  by rewrite Ht1, Ht2, Hh1, Hh2, Hp1, Hp2.
Qed.

Lemma X20_same_endpoint_probed_twice_witness :
  let files : gmap string (result (list string)) :=
    {[ "targets.txt" := Ok ["example.com"; "example.com" +:+ ":443"] ]} in
  let args := @TLS.mkArgs Script.net None None (Some "targets.txt") 5 in
  (TLS.main Script.net files [] args).1 = [("example.com", 443); ("example.com", 443)]
  /\ TLS.gather_targets files args = Ok ["example.com"; "example.com" +:+ ":443"].
Proof.
  intros files args. split; [vm_compute; reflexivity|].
  refine (proj1 (X20_same_endpoint_probed_twice Script.net [] 5 "example.com" "targets.txt"
                   _ _ _ _)); [reflexivity | discriminate | reflexivity | reflexivity].
Defined.
